(** * SONAR / dSONAR: the byte <-> tone codec and the reverse-reconstruction
      pipeline of [mbx_sonar.c] and [mbx_dsonar.c], embedded in Rocq.

    Conventions of the embedding.

    - [double] is IEEE-754 binary64, modelled by Rocq's primitive [float]:
      every C operation on doubles is one correctly rounded binary64
      operation (no extended precision, no fused multiply-add).
    - [int] is a 32-bit two's complement integer kept as a [Z]; where the
      code can leave the range the wrap-around is written out ([int_of_Z]).
      [unsigned char] is a [Z] in [0, 256), reached through [uchar_of_Z].
      An [unsigned int] is a [Z] in [0, 2^32); [printf]'s [%d] prints it as
      the [int] with the same 32 bits.
    - A [reverse_sample_node_t*] is either [NULL] or a node with its four
      fields and its [next] pointer; lists built by the decoders are acyclic.
    - A text stream is the list of characters of the file; [fgets] and the
      file position are modelled on it.  The conversions of libc's [sscanf]
      are parameters of the decoders (Section variables); a reference scanner
      for the notation the generators of [audio_engine.c] write is given for
      the executable examples.
    - A line read by [fgets] may hold NUL characters; [strstr] and
      [strlen] see it up to the first of them ([c_string]).  The scanner
      parameters are handed the line as read.  Multi-byte values in a
      container are read as a little-endian host reads them.
    - Counters of lines, samples and list nodes that the code advances with
      [++] are plain integers: signed overflow is undefined in C, so runs in
      which such a counter would pass 2^31 - 1 are outside the model.
    - [malloc] succeeds and writes to an open stream succeed. *)

From Stdlib Require Import ZArith QArith Qround Qabs Qpower Lia Lqa Bool.
From Stdlib Require Import PrimFloat FloatOps SpecFloat FloatAxioms Uint63.
From Stdlib Require Import Ascii String.
From stdpp Require Import base option list strings pretty gmap.

Set Warnings "-inexact-float".

#[local] Open Scope Z_scope.

(** ** Part I. Definitions *)

(** *** C scalar conversions *)

(** Conversion of an integer value to [int] (two's complement wrap-around). *)
Definition int_of_Z (z : Z) : Z := (z + 2147483648) mod 4294967296 - 2147483648.

(** Conversion of an integer value to [unsigned char]. *)
Definition uchar_of_Z (z : Z) : Z := z mod 256.

(** [(double)i] for an [int] or [unsigned char] value [i]; exact, since
    |i| < 2^53. *)
Definition double_of_int (i : Z) : float :=
  if i <? 0 then PrimFloat.opp (PrimFloat.of_uint63 (Uint63.of_Z (- i)))
  else PrimFloat.of_uint63 (Uint63.of_Z i).

(** The integral part of a double, rounded toward zero; [None] for NaN and
    the infinities. *)
Definition trunc_double (x : float) : option Z :=
  match Prim2SF x with
  | S754_zero _ => Some 0
  | S754_finite s m e =>
      let mag := Z.shiftl (Z.pos m) e in
      Some (if s then - mag else mag)
  | S754_infinity _ => None
  | S754_nan => None
  end.

(** [(unsigned char)x] for a double [x].  ISO C defines it only when the
    integral part of [x] lies in [0, 255]; outside that range the model
    reduces the integral part modulo 256 and sends NaN and the infinities
    to 0.  Every evaluation below falls inside the defined range. *)
Definition uchar_of_double (x : float) : Z :=
  match trunc_double x with
  | Some z => uchar_of_Z z
  | None => 0
  end.

(** [(int)x] for a double [x]; out of range (undefined in ISO C) the model
    returns INT_MIN, as the x86-64 conversion instruction does. *)
Definition int_of_double (x : float) : Z :=
  match trunc_double x with
  | Some z => if (-2147483648 <=? z) && (z <=? 2147483647) then z else -2147483648
  | None => -2147483648
  end.

(** *** mbx_sonar.c: the forward mapping *)

Module Sonar.

Record sonar_config_t : Type := {
  sample_rate : Z;
  base_frequency : float;
  frequency_range : float;
  sample_duration : float;
  use_dynamic_lib : bool
}.

Definition default_config : sonar_config_t := {|
  sample_rate := 44100;
  base_frequency := 220.0%float;
  frequency_range := 2000.0%float;
  sample_duration := 0.05%float;
  use_dynamic_lib := true
|}.

Definition map_byte_to_frequency (byte : Z) (config : sonar_config_t) : float :=
  let normalized := (double_of_int byte / 255.0)%float in
  (base_frequency config + normalized * frequency_range config)%float.

Definition map_byte_to_amplitude (byte : Z) : float :=
  (0.1 + (double_of_int byte / 255.0) * 0.9)%float.

End Sonar.

(** *** mbx_dsonar.h / mbx_dsonar.c: configuration and the inverse mapping *)

Record dsonar_config_t : Type := {
  base_frequency : float;
  frequency_range : float;
  tolerance : float;
  strict_mode : bool;
  input_format : string
}.

Definition default_dsonar_config : dsonar_config_t := {|
  base_frequency := 220.0%float;
  frequency_range := 2000.0%float;
  tolerance := 5.0%float;
  strict_mode := false;
  input_format := "auto"
|}.

Definition frequency_to_byte (frequency : float) (config : dsonar_config_t) : Z :=
  if (frequency <? base_frequency config)%float then 0
  else if (base_frequency config + frequency_range config <? frequency)%float then 255
  else
    let normalized :=
      ((frequency - base_frequency config) / frequency_range config)%float in
    uchar_of_double (normalized * 255.0 + 0.5)%float.

(** *** The value of a double

    The rational number a finite double stands for, to state what the two
    mappings compute against what their formulas mean. *)

Definition SF2Q (x : spec_float) : Q :=
  match x with
  | S754_finite s m e =>
      let v := (inject_Z (Z.pos m) * 2 ^ e)%Q in
      if s then (- v)%Q else v
  | _ => 0%Q
  end.

Definition SFfinite (x : spec_float) : bool :=
  match x with
  | S754_zero _ | S754_finite _ _ _ => true
  | _ => false
  end.

(** Where a number [x] lies between [m * 2^e] and [(m + 1) * 2^e], as a
    [location] records it: on the lower end, below the middle, on the
    middle, or above it. *)
Definition inbetween (m e : Z) (l : location) (x : Q) : Prop :=
  match l with
  | loc_Exact => (x == inject_Z m * 2 ^ e)%Q
  | loc_Inexact Lt =>
      (inject_Z m * 2 ^ e < x)%Q /\ (x < (inject_Z m + (1 # 2)) * 2 ^ e)%Q
  | loc_Inexact Eq => (x == (inject_Z m + (1 # 2)) * 2 ^ e)%Q
  | loc_Inexact Gt =>
      ((inject_Z m + (1 # 2)) * 2 ^ e < x)%Q /\ (x < (inject_Z m + 1) * 2 ^ e)%Q
  end.

(** The value of a finite double (0 for NaN and the infinities). *)
Definition B2Q (x : float) : Q := SF2Q (Prim2SF x).

(** [isfinite(x)] *)
Definition is_finite (x : float) : bool := SFfinite (Prim2SF x).

(** Parameters for which the two mappings are shown to be inverse of each
    other: the range lies between 2^-1000 and 2^960 and the base is at most
    2^44 times the range in magnitude. *)
Definition moderate_parameters (base range : float) : bool :=
  (0x1p-1000 <=? range)%float && (range <=? 0x1p+960)%float
  && (abs base <=? 0x1p+44 * range)%float.

(** The position of [frequency] in the band of [config], scaled to
    [0, 255], in exact arithmetic: the number that [frequency_to_byte]
    rounds. *)
Definition scaled_position (frequency : float) (config : dsonar_config_t) : Q :=
  ((B2Q frequency - B2Q (base_frequency config))
   / B2Q (frequency_range config) * 255)%Q.

(** *** Reverse samples: the singly linked list of mbx_dsonar.h

    A value of this type is what a [reverse_sample_node_t*] designates:
    [NULL], or a node carrying the four data fields and its [next] pointer. *)

Inductive reverse_sample_node_t : Type :=
| NULL
| Node (reconstructed_byte : Z) (source_frequency : float)
       (confidence_score : float) (sample_index : Z)
       (next : reverse_sample_node_t).

Definition create_reverse_sample (frequency : float) (index : Z)
    (config : dsonar_config_t) : reverse_sample_node_t :=
  Node (frequency_to_byte frequency config) frequency 0.5%float index NULL.

(** The assignment [sample->confidence_score = c]. *)
Definition set_confidence_score (c : float) (sample : reverse_sample_node_t)
    : reverse_sample_node_t :=
  match sample with
  | NULL => NULL
  | Node b f _ i next => Node b f c i next
  end.

(** [add_reverse_sample(&head, sample)]; the result is the new value of
    [head].  The walk [while (current->next) current = current->next] ends at
    the node whose [next] is [NULL], which then receives [sample]. *)
Fixpoint add_reverse_sample (head sample : reverse_sample_node_t)
    : reverse_sample_node_t :=
  match sample with
  | NULL => head
  | Node _ _ _ _ _ =>
      match head with
      | NULL => sample
      | Node b f c i next => Node b f c i (add_reverse_sample next sample)
      end
  end.

(** First loop of [samples_to_bytes]: [count++] for every node. *)
Fixpoint count_samples (current : reverse_sample_node_t) (count : Z) : Z :=
  match current with
  | NULL => count
  | Node _ _ _ _ next => count_samples next (count + 1)
  end.

(** Second loop: [for (i = 0; i < count && current; i++) bytes[i] = ...]. *)
Fixpoint fill_bytes (current : reverse_sample_node_t) (i count : Z)
    (bytes : list Z) : list Z :=
  match current with
  | NULL => bytes
  | Node b _ _ _ next =>
      if i <? count
      then fill_bytes next (i + 1) count (<[Z.to_nat i := b]> bytes)
      else bytes
  end.

(** [malloc(n)] of bytes: [n] cells whose content is not specified (the
    model fills them with 0; callers only observe cells they have written). *)
Definition malloc_bytes (n : Z) : list Z := replicate (Z.to_nat n) 0.

(** [samples_to_bytes(head, &length)]: the returned buffer ([None] for a NULL
    result) and the value of [*length] after the call, [length] being its
    value before. *)
Definition samples_to_bytes (head : reverse_sample_node_t) (length : Z)
    : option (list Z) * Z :=
  match head with
  | NULL => (None, length)
  | Node _ _ _ _ _ =>
      let count := count_samples head 0 in
      if count =? 0 then (None, 0)
      else (Some (fill_bytes head 0 count (malloc_bytes count)), count)
  end.

(** The samples of a list, first to last, as plain records. *)
Record sample : Type := {
  reconstructed_byte : Z;
  source_frequency : float;
  confidence_score : float;
  sample_index : Z
}.

Fixpoint samples_of (head : reverse_sample_node_t) : list sample :=
  match head with
  | NULL => []
  | Node b f c i next =>
      {| reconstructed_byte := b; source_frequency := f;
         confidence_score := c; sample_index := i |} :: samples_of next
  end.

(** A freshly created node (its [next] is NULL) carrying the given fields. *)
Definition node_of (s : sample) : reverse_sample_node_t :=
  Node (reconstructed_byte s) (source_frequency s) (confidence_score s)
       (sample_index s) NULL.

(** *** Text streams: fgets, ftell, fseek, strstr, strlen *)

Definition newline : ascii := "010"%char.
Definition tab : ascii := "009"%char.
Definition dquote : ascii := "034"%char.

(** The unread part of a stream whose position is [pos]. *)
Fixpoint string_drop (pos : nat) (content : string) : string :=
  match pos, content with
  | O, _ => content
  | S _, EmptyString => EmptyString
  | S n, String _ rest => string_drop n rest
  end.

(** What one [fgets] stores when [room] characters fit before the
    terminator: it stops after a newline, at end of file, or when the
    buffer is full.  Returns the line and what remains unread. *)
Fixpoint fgets_line (room : nat) (s : string) : string * string :=
  match room, s with
  | O, _ => (EmptyString, s)
  | S _, EmptyString => (EmptyString, EmptyString)
  | S room', String c rest =>
      if Ascii.eqb c newline then (String c EmptyString, rest)
      else let (line, unread) := fgets_line room' rest in (String c line, unread)
  end.

(** [fgets(buf, size, file)] on the unread part [s]; [None] is the NULL
    returned at end of file. *)
Definition fgets (size : nat) (s : string) : option (string * string) :=
  match s with
  | EmptyString => None
  | String _ _ => Some (fgets_line (size - 1) s)
  end.

(** The successive results of [while (fgets(buf, size, file))] from position
    [pos], each with the value of [ftell] after it. *)
Fixpoint stream_lines_fuel (fuel size : nat) (s : string) (pos : nat)
    : list (string * nat) :=
  match fuel with
  | O => []
  | S fuel' =>
      match fgets size s with
      | None => []
      | Some (line, unread) =>
          let pos' := (pos + String.length line)%nat in
          (line, pos') :: stream_lines_fuel fuel' size unread pos'
      end
  end.

Definition stream_lines (size : nat) (content : string) (pos : nat)
    : list (string * nat) :=
  let s := string_drop pos content in
  stream_lines_fuel (String.length s) size s pos.

(** [fseek(file, target, SEEK_SET)]: a negative target is refused and leaves
    the position where it was. *)
Definition fseek_set (target : Z) (current : nat) : nat :=
  if target <? 0 then current else Z.to_nat target.

(** The C string that a buffer holds: its characters before the first
    NUL. *)
Fixpoint c_string (buffer : string) : string :=
  match buffer with
  | EmptyString => EmptyString
  | String c rest =>
      if Ascii.eqb c Ascii.zero then EmptyString else String c (c_string rest)
  end.

(** [strstr(haystack, needle) != NULL], for a needle without NUL. *)
Definition strstr (haystack needle : string) : bool :=
  match String.index 0 needle (c_string haystack) with
  | Some _ => true
  | None => false
  end.

(** [strlen(s)] *)
Definition strlen (s : string) : Z := Z.of_nat (String.length (c_string s)).

(** A key of the metadata document as the decoder looks for it: the name
    between double quotes, followed by a colon. *)
Definition json_tag (name : string) : string :=
  String dquote (name +:+ String dquote ":").

(** *** What the decoders ask of sscanf

    Each decoder calls [sscanf] with one fixed format and tests the number
    of conversions; a line scanner gives [Some] of the converted values
    exactly when that test succeeds. *)

Record csv_row : Type := {
  sample_num : Z;
  byte_hex : string;
  byte_dec : Z;
  frequency : float;
  amplitude : float;
  duration : float
}.

Record report_row : Type := {
  r_byte_val : Z;
  r_frequency : float;
  r_amplitude : float;
  r_duration : float
}.

(** *** A reference scanner

    The four formats of the decoders, for the notation that the generators
    of audio_engine.c write: decimal integers of at most 9 digits, hexadecimal
    integers of at most 8 digits, and decimal fractions without exponent of at
    most 15 digits in all.  On such input the value of [%lf] is the quotient
    of two exactly representable integers, correctly rounded, which is what
    [strtod] returns.  Longer digit strings, a number directly followed by
    one of the letters e, E, x, X (exponents, hexadecimal floats), and the
    words [inf] and [nan] are outside its domain: it answers [None] there,
    whatever libc would convert.  The decoders below do not depend on it. *)

Module Scan.

Definition isspace (c : ascii) : bool :=
  let n := nat_of_ascii c in
  ((n =? 32) || ((9 <=? n) && (n <=? 13)))%nat.

Fixpoint skip_space (s : string) : string :=
  match s with
  | String c rest => if isspace c then skip_space rest else s
  | EmptyString => EmptyString
  end.

(** Ordinary characters of a format must match the input one for one. *)
Fixpoint literal (lit s : string) : option string :=
  match lit with
  | EmptyString => Some s
  | String c lit' =>
      match s with
      | String d rest => if Ascii.eqb c d then literal lit' rest else None
      | EmptyString => None
      end
  end.

Definition digit (c : ascii) : option Z :=
  let n := Z.of_nat (nat_of_ascii c) in
  if (48 <=? n) && (n <=? 57) then Some (n - 48) else None.

Definition xdigit (c : ascii) : option Z :=
  let n := Z.of_nat (nat_of_ascii c) in
  if (48 <=? n) && (n <=? 57) then Some (n - 48)
  else if (65 <=? n) && (n <=? 70) then Some (n - 55)
  else if (97 <=? n) && (n <=? 102) then Some (n - 87)
  else None.

(** The longest run of digits at the head of [s]: its value on top of [acc],
    the number of digits on top of [count], and the rest of the input. *)
Fixpoint digits (value_of : ascii -> option Z) (radix : Z) (s : string)
    (acc : Z) (count : nat) : Z * nat * string :=
  match s with
  | String c rest =>
      match value_of c with
      | Some d => digits value_of radix rest (acc * radix + d) (S count)
      | None => (acc, count, s)
      end
  | EmptyString => (acc, count, s)
  end.

Definition sign (s : string) : bool * string :=
  match s with
  | String "-"%char rest => (true, rest)
  | String "+"%char rest => (false, rest)
  | _ => (false, s)
  end.

(** [%d] *)
Definition conv_d (s : string) : option (Z * string) :=
  let (neg, s1) := sign (skip_space s) in
  let '(v, n, rest) := digits digit 10 s1 0 0%nat in
  if (n =? 0)%nat || (9 <? n)%nat then None
  else Some (if neg then - v else v, rest).

(** [%X], after an optional [0x] prefix. *)
Definition conv_X (s : string) : option (Z * string) :=
  let (neg, s1) := sign (skip_space s) in
  let s2 :=
    match s1 with
    | String "0"%char (String "x"%char rest) => rest
    | String "0"%char (String "X"%char rest) => rest
    | _ => s1
    end in
  let '(v, n, rest) := digits xdigit 16 s2 0 0%nat in
  if (n =? 0)%nat || (8 <? n)%nat then None
  else Some (if neg then (4294967296 - v) mod 4294967296 else v, rest).

Definition starts_exponent (s : string) : bool :=
  match s with
  | String "e"%char _ => true
  | String "E"%char _ => true
  | String "x"%char _ => true
  | String "X"%char _ => true
  | _ => false
  end.

(** [%lf] *)
Definition conv_lf (s : string) : option (float * string) :=
  let (neg, s1) := sign (skip_space s) in
  let '(ip, n1, s2) := digits digit 10 s1 0 0%nat in
  let '(m, n2, s3) :=
    match s2 with
    | String "."%char rest => digits digit 10 rest ip 0%nat
    | _ => (ip, 0%nat, s2)
    end in
  if (n1 + n2 =? 0)%nat || (15 <? n1 + n2)%nat || starts_exponent s3 then None
  else
    let x := (double_of_int m / double_of_int (10 ^ Z.of_nat n2))%float in
    Some (if neg then PrimFloat.opp x else x, s3).

(** [%7[^,]]: one to seven characters other than a comma. *)
Fixpoint scanset_not_comma (width : nat) (s : string) : string * string :=
  match width, s with
  | S w, String c rest =>
      if Ascii.eqb c ","%char then (EmptyString, s)
      else let (tok, rest') := scanset_not_comma w rest in (String c tok, rest')
  | _, _ => (EmptyString, s)
  end.

Definition conv_scanset (s : string) : option (string * string) :=
  match scanset_not_comma 7 s with
  | (EmptyString, _) => None
  | (tok, rest) => Some (tok, rest)
  end.

(** [sscanf(line, "%d,%7[^,],%d,%lf,%lf,%lf", ...) == 6] *)
Definition sscanf_csv (line : string) : option csv_row :=
  '(num, s) ← conv_d line;
  s ← literal "," s;
  '(hex, s) ← conv_scanset s;
  s ← literal "," s;
  '(dec, s) ← conv_d s;
  s ← literal "," s;
  '(freq, s) ← conv_lf s;
  s ← literal "," s;
  '(amp, s) ← conv_lf s;
  s ← literal "," s;
  '(dur, _) ← conv_lf s;
  Some {| sample_num := num; byte_hex := hex; byte_dec := dec;
          frequency := freq; amplitude := amp; duration := dur |}.

(** [sscanf(line, FORMAT, &frequency) == 1], the format being: white space,
    the key [frequency], white space, [%lf], a comma. *)
Definition sscanf_frequency (line : string) : option float :=
  s ← literal (json_tag "frequency") (skip_space line);
  '(freq, _) ← conv_lf (skip_space s);
  Some freq.

(** [sscanf(byte_line, FORMAT, &byte_val) == 1], the format being: white
    space, the key [byte], white space, a double quote, [0x%X], a double
    quote, a comma. *)
Definition sscanf_byte (line : string) : option Z :=
  s ← literal (json_tag "byte") (skip_space line);
  s ← literal (String dquote "0x") (skip_space s);
  '(v, _) ← conv_X s;
  Some v.

(** [sscanf(line, FORMAT, ...) == 4], the format being [0x%X], a tab,
    [%lf], two tabs, [%lf], a tab, [%lf]; a tab in a format stands for any
    amount of white space. *)
Definition sscanf_report (line : string) : option report_row :=
  s ← literal "0x" line;
  '(v, s) ← conv_X s;
  '(freq, s) ← conv_lf s;
  '(amp, s) ← conv_lf s;
  '(dur, _) ← conv_lf s;
  Some {| r_byte_val := v; r_frequency := freq; r_amplitude := amp;
          r_duration := dur |}.

End Scan.

(** *** mbx_dsonar.c: results and statistics *)

Record dsonar_result_t : Type := {
  reconstructed_data : option (list Z);
  data_length : Z;
  average_confidence : float;
  successful_samples : Z;
  total_samples : Z
}.

(** The statistics loop of [reconstruct_from_json] (threshold 0.5) and of
    [reconstruct_from_analysis] (threshold 0.6): the two loops differ in that
    constant only. *)
Fixpoint confidence_statistics (threshold : float)
    (current : reverse_sample_node_t) (total successful : Z)
    (total_confidence : float) : Z * Z * float :=
  match current with
  | NULL => (total, successful, total_confidence)
  | Node _ _ c _ next =>
      confidence_statistics threshold next (total + 1)
        (if (threshold <? c)%float then successful + 1 else successful)
        (total_confidence + c)%float
  end.

(** "Convert samples to result" followed by "Calculate statistics".
    [data_length] is written by [samples_to_bytes] only; before that it holds
    whatever the fresh allocation held (0 in the model). *)
Definition result_of_samples (threshold : float)
    (samples : reverse_sample_node_t) : dsonar_result_t :=
  let '(data, len) := samples_to_bytes samples 0 in
  let '(total, successful, total_confidence) :=
    confidence_statistics threshold samples 0 0 0%float in
  {| reconstructed_data := data;
     data_length := len;
     average_confidence :=
       if 0 <? total then (total_confidence / double_of_int total)%float
       else 0%float;
     successful_samples := successful;
     total_samples := total |}.

(** *** mbx_dsonar.c: the acoustic helpers *)

(** Little-endian reads at a byte offset, as [*(short* )(header + off)] and
    [*(int* )(header + off)] perform on a little-endian host. *)
Definition read_u16 (bytes : list Z) (off : nat) : Z :=
  bytes !!! off + 256 * bytes !!! (off + 1)%nat.

Definition read_short (bytes : list Z) (off : nat) : Z :=
  let u := read_u16 bytes off in
  if u <? 32768 then u else u - 65536.

Definition read_int (bytes : list Z) (off : nat) : Z :=
  int_of_Z (read_u16 bytes off + 65536 * read_u16 bytes (off + 2)%nat).

Definition bytes_of_string (s : string) : list Z :=
  (fun c => Z.of_nat (nat_of_ascii c)) <$> list_ascii_of_string s.

(** [read_wav_header]: [None] is the return value 0; otherwise the sample
    rate, the channel count, the bit depth, and the unread part of the file. *)
Definition read_wav_header (wav_file : list Z) : option (Z * Z * Z * list Z) :=
  let header := take 44 wav_file in
  if negb (length header =? 44)%nat then None
  else if negb (bool_decide (take 4 header = bytes_of_string "RIFF")) then None
  else if negb (bool_decide (take 4 (drop 8 header) = bytes_of_string "WAVE"))
  then None
  else Some (read_int header 24, read_short header 22, read_short header 34,
             drop 44 wav_file).

(** The 16-bit samples that [fread(audio_buffer, sizeof(short), n, f)]
    delivers from a byte stream. *)
Fixpoint shorts_of_bytes (bytes : list Z) : list Z :=
  match bytes with
  | lo :: hi :: rest => read_short [lo; hi] 0 :: shorts_of_bytes rest
  | _ => []
  end.

(** The loop [for (i = 1; i < buffer_size; i++)] of
    [detect_dominant_frequency], [prev] being [audio_buffer[i-1]]. *)
Fixpoint count_zero_crossings (prev : Z) (rest : list Z) (zero_crossings : Z)
    : Z :=
  match rest with
  | [] => zero_crossings
  | cur :: rest' =>
      count_zero_crossings cur rest'
        (if ((0 <=? prev) && (cur <? 0)) || ((prev <? 0) && (0 <=? cur))
         then zero_crossings + 1 else zero_crossings)
  end.

Definition zero_crossings_of (audio_buffer : list Z) (buffer_size : Z) : Z :=
  match take (Z.to_nat buffer_size) audio_buffer with
  | [] => 0
  | first :: rest => count_zero_crossings first rest 0
  end.

Definition detect_dominant_frequency (audio_buffer : list Z)
    (buffer_size sample_rate : Z) : float :=
  if buffer_size <? 10 then 0%float
  else
    let zero_crossings := zero_crossings_of audio_buffer buffer_size in
    if 0 <? zero_crossings then
      let duration :=
        (double_of_int buffer_size / double_of_int sample_rate)%float in
      let frequency := ((double_of_int zero_crossings / 2.0) / duration)%float in
      if (200.0 <=? frequency)%float && (frequency <=? 3000.0)%float
      then frequency else 0%float
    else 0%float.

(** A call either returns or, for one degenerate window size, never does. *)
Inductive outcome (A : Type) : Type :=
| Returns (a : A)
| Diverges.
Arguments Returns {A} a.
Arguments Diverges {A}.

(** The loop [while (fread(audio_buffer, sizeof(short), chunk_size, f) ==
    chunk_size)] over the unread samples [pcm]. *)
Fixpoint wav_loop (fuel : nat) (config : dsonar_config_t)
    (chunk_size sample_rate : Z) (pcm : list Z)
    (samples : reverse_sample_node_t) (sample_index : Z)
    : reverse_sample_node_t * Z :=
  match fuel with
  | O => (samples, sample_index)
  | S fuel' =>
      let audio_buffer := take (Z.to_nat chunk_size) pcm in
      if negb (Z.of_nat (length audio_buffer) =? chunk_size)
      then (samples, sample_index)
      else
        let unread := drop (Z.to_nat chunk_size) pcm in
        let estimated_frequency :=
          detect_dominant_frequency audio_buffer chunk_size sample_rate in
        if (0 <? estimated_frequency)%float then
          let sample :=
            set_confidence_score 0.7%float
              (create_reverse_sample estimated_frequency sample_index config) in
          wav_loop fuel' config chunk_size sample_rate unread
            (add_reverse_sample samples sample) (sample_index + 1)
        else
          wav_loop fuel' config chunk_size sample_rate unread
            samples sample_index
  end.

(** [reconstruct_from_wav]; [wav_file] is [None] when [fopen] fails.  The
    window is [chunk_size = (int)(config->base_frequency * 0.05)] samples.
    A negative [chunk_size] makes the allocation request exceed the address
    space, so the call returns NULL; with [chunk_size = 0] every [fread]
    returns 0, which equals [chunk_size], and the loop never ends. *)
Definition reconstruct_from_wav (wav_file : option (list Z))
    (config : dsonar_config_t) : outcome (option dsonar_result_t) :=
  match wav_file with
  | None => Returns None
  | Some bytes =>
      match read_wav_header bytes with
      | None => Returns None
      | Some (sample_rate, channels, bits_per_sample, unread) =>
          let chunk_size :=
            int_of_double (base_frequency config * 0.05)%float in
          if chunk_size <? 0 then Returns None
          else if chunk_size =? 0 then Diverges
          else
            let pcm := shorts_of_bytes unread in
            let '(samples, sample_index) :=
              wav_loop (length pcm) config chunk_size sample_rate pcm NULL 0 in
            if sample_index =? 0 then Returns None
            else
              let '(data, len) := samples_to_bytes samples 0 in
              Returns (Some {| reconstructed_data := data;
                               data_length := len;
                               average_confidence := 0.7%float;
                               successful_samples := sample_index;
                               total_samples := sample_index |})
      end
  end.

(** *** mbx_dsonar.c: the three text decoders *)

Section TextDecoders.

(** The conversions of libc's [sscanf] for the four formats in use. *)
Variable sscanf_csv : string -> option csv_row.
Variable sscanf_frequency : string -> option float.
Variable sscanf_byte : string -> option Z.
Variable sscanf_report : string -> option report_row.

Variable config : dsonar_config_t.

(** **** The frequency table (CSV) *)

Record csv_state : Type := {
  buffer : list Z;              (* result->reconstructed_data *)
  bytes_read : Z;
  csv_successful : Z;           (* successful_samples *)
  total_confidence : float
}.

(** The body of the reading loop for one line. *)
Definition csv_body (line : string) (st : csv_state) : csv_state :=
  match sscanf_csv line with
  | Some row =>
      let confidence := amplitude row in
      {| buffer := <[Z.to_nat (bytes_read st) := uchar_of_Z (byte_dec row)]>
                     (buffer st);
         bytes_read := bytes_read st + 1;
         csv_successful := csv_successful st + 1;
         total_confidence := (total_confidence st + confidence)%float |}
  | None => st
  end.

(** [while (fgets(line, sizeof(line), csv_file) && bytes_read < sample_count)] *)
Fixpoint csv_loop (lines : list (string * nat)) (sample_count : Z)
    (st : csv_state) : csv_state :=
  match lines with
  | [] => st
  | (line, _) :: rest =>
      if bytes_read st <? sample_count
      then csv_loop rest sample_count (csv_body line st)
      else st
  end.

(** [reconstruct_from_csv]; [csv_file] is [None] when [fopen] fails. *)
Definition reconstruct_from_csv (csv_file : option string)
    : option dsonar_result_t :=
  match csv_file with
  | None => None
  | Some content =>
      match fgets 512 content with
      | None => None
      | Some (header, _) =>
          let pos := String.length header in
          let lines := stream_lines 512 content pos in
          let sample_count := Z.of_nat (length lines) in
          if sample_count =? 0 then None
          else
            let st :=
              csv_loop lines sample_count
                {| buffer := malloc_bytes sample_count; bytes_read := 0;
                   csv_successful := 0; total_confidence := 0%float |} in
            Some {| reconstructed_data := Some (buffer st);
                    data_length := bytes_read st;
                    average_confidence :=
                      if 0 <? csv_successful st
                      then (total_confidence st
                            / double_of_int (csv_successful st))%float
                      else 0%float;
                    successful_samples := csv_successful st;
                    total_samples := sample_count |}
      end
  end.

(** **** The metadata document (JSON) *)

(** The inner loop [while (fgets(byte_line, ...) && ftell(file) <= pos + 100)]
    with its [break]; [Some v] when a conversion stored [v] in [byte_val]. *)
Fixpoint find_byte_tag (pos : nat) (lines : list (string * nat)) : option Z :=
  match lines with
  | [] => None
  | (byte_line, after) :: rest =>
      if (after <=? pos + 100)%nat then
        if strstr byte_line (json_tag "byte") then
          match sscanf_byte byte_line with
          | Some v => Some v
          | None => find_byte_tag pos rest
          end
        else find_byte_tag pos rest
      else None
  end.

(** [fseek(file, pos - 200, SEEK_SET)] followed by the inner loop. *)
Definition search_byte_tag (content : string) (pos : nat) : option Z :=
  let start := fseek_set (Z.of_nat pos - 200) pos in
  find_byte_tag pos (stream_lines 1024 content start).

(** The confidence given to a sample of [parse_json_metadata]. *)
Definition json_confidence (frequency : float) (byte_val : Z) : float :=
  let reconstructed := frequency_to_byte frequency config in
  if (0 <? byte_val) && (reconstructed =? uchar_of_Z byte_val)
  then 1.0%float else 0.8%float.

(** The outer loop [while (fgets(line, sizeof(line), file))]; each line comes
    with the position [pos] that [ftell] reports after it. *)
Fixpoint json_loop (content : string) (lines : list (string * nat))
    (samples : reverse_sample_node_t) (sample_index : Z)
    : reverse_sample_node_t * Z :=
  match lines with
  | [] => (samples, sample_index)
  | (line, pos) :: rest =>
      if strstr line (json_tag "frequency") then
        match sscanf_frequency line with
        | Some frequency =>
            let byte_val := default 0 (search_byte_tag content pos) in
            let sample :=
              set_confidence_score (json_confidence frequency byte_val)
                (create_reverse_sample frequency sample_index config) in
            json_loop content rest (add_reverse_sample samples sample)
              (sample_index + 1)
        | None => json_loop content rest samples sample_index
        end
      else json_loop content rest samples sample_index
  end.

(** [parse_json_metadata(filename, &samples, config)]: the returned flag
    and the list left in [samples]. *)
Definition parse_json_metadata (file : option string)
    (samples : reverse_sample_node_t) : bool * reverse_sample_node_t :=
  match file with
  | None => (false, samples)
  | Some content =>
      let '(samples', sample_index) :=
        json_loop content (stream_lines 1024 content 0) samples 0 in
      (0 <? sample_index, samples')
  end.

Definition reconstruct_from_json (json_file : option string)
    : option dsonar_result_t :=
  match json_file with
  | None => None
  | Some _ =>
      match parse_json_metadata json_file NULL with
      | (false, _) => None
      | (true, samples) => Some (result_of_samples 0.5%float samples)
      end
  end.

(** **** The analysis report *)

(** The loop of [parse_analysis_report].  [skip] counts the lines still to be
    consumed by the two [fgets] calls that follow the section marker. *)
Fixpoint report_loop (lines : list (string * nat)) (skip : nat)
    (in_data_section : bool) (samples : reverse_sample_node_t)
    (sample_index : Z) : reverse_sample_node_t * Z :=
  match lines with
  | [] => (samples, sample_index)
  | (line, _) :: rest =>
      match skip with
      | S skip' => report_loop rest skip' in_data_section samples sample_index
      | O =>
          if strstr line "Detailed Sample Data"
          then report_loop rest 2 true samples sample_index
          else if in_data_section && (10 <? strlen line) then
            match sscanf_report line with
            | Some row =>
                let sample :=
                  set_confidence_score 0.85%float
                    (create_reverse_sample (r_frequency row) sample_index
                       config) in
                report_loop rest 0 in_data_section
                  (add_reverse_sample samples sample) (sample_index + 1)
            | None => report_loop rest 0 in_data_section samples sample_index
            end
          else report_loop rest 0 in_data_section samples sample_index
      end
  end.

Definition parse_analysis_report (file : option string)
    (samples : reverse_sample_node_t) : bool * reverse_sample_node_t :=
  match file with
  | None => (false, samples)
  | Some content =>
      let '(samples', sample_index) :=
        report_loop (stream_lines 512 content 0) 0 false samples 0 in
      (0 <? sample_index, samples')
  end.

Definition reconstruct_from_analysis (analysis_file : option string)
    : option dsonar_result_t :=
  match parse_analysis_report analysis_file NULL with
  | (false, _) => None
  | (true, samples) => Some (result_of_samples 0.6%float samples)
  end.

End TextDecoders.

(** *** mbx_dsonar.c: the accuracy check *)

(** The loop [for (i = 0; i < length; i++)] over the indices still to visit. *)
Fixpoint count_matches (indices : list Z) (original reconstructed : list Z)
    (matches : Z) : Z :=
  match indices with
  | [] => matches
  | i :: rest =>
      count_matches rest original reconstructed
        (if original !!! Z.to_nat i =? reconstructed !!! Z.to_nat i
         then matches + 1 else matches)
  end.

(** [calculate_reconstruction_accuracy]; a NULL pointer is [None]. *)
Definition calculate_reconstruction_accuracy
    (original reconstructed : option (list Z)) (length : Z) : float :=
  match original, reconstructed with
  | Some original, Some reconstructed =>
      if length <=? 0 then 0%float
      else
        let matches := count_matches (seqZ 0 length) original reconstructed 0 in
        (double_of_int matches / double_of_int length)%float
  | _, _ => 0%float
  end.

(** The static helper [min] of mbx_dsonar.c. *)
Definition min (a b : Z) : Z := if a <? b then a else b.

(** The comparison made by [mbx_dsonar] once the result is saved:
    [calculate_reconstruction_accuracy(original_partition,
       result->reconstructed_data,
       min(target->partition_size, result->data_length))]. *)
Definition accuracy_against_original (original_partition : list Z)
    (partition_size : Z) (result : dsonar_result_t) : float :=
  calculate_reconstruction_accuracy (Some original_partition)
    (reconstructed_data result) (min partition_size (data_length result)).

(** *** mbx_dsonar.c: the partition combiner *)

(** The files on disk, and the names a [fopen(name, "wb")] can create. *)
Record filesystem : Type := {
  files : gmap string (list Z);
  can_create : string -> bool
}.

(** [sprintf(partition_filename, "dsonar_reconstructed_partition_%d.bin", i)] *)
Definition partition_filename (i : Z) : string :=
  "dsonar_reconstructed_partition_" +:+ pretty i +:+ ".bin".

(** [sprintf(output_filename, "dsonar_reconstructed_%s", original_filename)] *)
Definition output_filename (original_filename : string) : string :=
  "dsonar_reconstructed_" +:+ original_filename.

(** The copy loop [while ((bytes_read = fread(buffer, 1, 4096, f)) > 0)]:
    [data] is the unread part of the partition file, [output] what has been
    written so far.  [total_bytes += bytes_read] adds in [size_t] and converts
    back to [int]. *)
Fixpoint copy_loop (fuel : nat) (data output : list Z) (total_bytes : Z)
    : list Z * Z :=
  match fuel with
  | O => (output, total_bytes)
  | S fuel' =>
      let chunk := take 4096 data in
      let bytes_read := Z.of_nat (length chunk) in
      if 0 <? bytes_read
      then copy_loop fuel' (drop 4096 data) (output ++ chunk)
             (int_of_Z (total_bytes + bytes_read))
      else (output, total_bytes)
  end.

(** The body of [for (i = 0; i < partition_count; i++)]. *)
Definition combine_step (fs : gmap string (list Z))
    (acc : list Z * Z) (i : Z) : list Z * Z :=
  match fs !! partition_filename i with
  | None => acc
  | Some data => copy_loop (S (length data)) data acc.1 acc.2
  end.

(** [combine_partition_files(partition_count, original_filename)]: the
    returned flag and the file system afterwards.  Opening the output with
    mode "wb" empties it before any partition file is opened.  The model
    covers the calls in which the output name is not the name of one of the
    partition files read: otherwise the code reads back what it has itself
    written, as far as stdio has flushed it, and the theorems below exclude
    that case by a hypothesis. *)
Definition combine_partition_files (fs : filesystem) (partition_count : Z)
    (original_filename : string) : bool * filesystem :=
  let out := output_filename original_filename in
  if negb (can_create fs out) then (false, fs)
  else
    let '(output, total_bytes) :=
      foldl (combine_step (<[out := []]> (files fs))) ([], 0)
        (seqZ 0 partition_count) in
    (0 <? total_bytes,
     {| files := <[out := output]> (files fs); can_create := can_create fs |}).

(** *** Inputs used by the examples *)

(** Parameters for which binary64 cannot tell the 256 tones apart: next to
    1e20 the spacing of doubles is 16384, so adding the range 1.0 changes
    nothing. *)
Definition huge_base_encoder : Sonar.sonar_config_t := {|
  Sonar.sample_rate := 44100;
  Sonar.base_frequency := 1e20%float;
  Sonar.frequency_range := 1.0%float;
  Sonar.sample_duration := 0.05%float;
  Sonar.use_dynamic_lib := true
|}.

Definition huge_base_decoder : dsonar_config_t := {|
  base_frequency := 1e20%float;
  frequency_range := 1.0%float;
  tolerance := 5.0%float;
  strict_mode := false;
  input_format := "auto"
|}.

(** Parameters just outside [moderate_parameters]: the base, 2^53, is less
    than 1.006 * 2^44 times the range. *)
Definition wide_base_encoder : Sonar.sonar_config_t := {|
  Sonar.sample_rate := 44100;
  Sonar.base_frequency := 0x1p+53%float;
  Sonar.frequency_range := 509.0%float;
  Sonar.sample_duration := 0.05%float;
  Sonar.use_dynamic_lib := true
|}.

Definition wide_base_decoder : dsonar_config_t := {|
  base_frequency := 0x1p+53%float;
  frequency_range := 509.0%float;
  tolerance := 5.0%float;
  strict_mode := false;
  input_format := "auto"
|}.

(** A band whose range is negative. *)
Definition negative_range_config : dsonar_config_t := {|
  base_frequency := 220.0%float;
  frequency_range := (-100.0)%float;
  tolerance := 5.0%float;
  strict_mode := false;
  input_format := "auto"
|}.

(** The list obtained from the empty list by appending freshly created
    nodes for the samples of [ss], one [add_reverse_sample] call each. *)
Definition build_samples (ss : list sample) : reverse_sample_node_t :=
  foldl (fun head s => add_reverse_sample head (node_of s)) NULL ss.

(** The number of positions at which two buffers hold the same byte, over
    the positions both have. *)
Definition positionwise_matches (original reconstructed : list Z) : Z :=
  Z.of_nat (length (filter (fun p => p.1 = p.2) (zip original reconstructed))).

(** The first line of a text: up to and including its first newline, or
    the whole text when it has none. *)
Fixpoint first_line (s : string) : string * string :=
  match s with
  | EmptyString => (EmptyString, EmptyString)
  | String c rest =>
      if Ascii.eqb c newline then (String c EmptyString, rest)
      else let (line, unread) := first_line rest in (String c line, unread)
  end.

(** Concatenation of the lines of a text. *)
Definition string_concat (lines : list string) : string :=
  foldr append EmptyString lines.

(** The arithmetic mean as the decoders compute it: the sum accumulated
    from 0.0 in list order, divided by the count. *)
Definition float_mean (xs : list float) : float :=
  (foldl PrimFloat.add 0%float xs / double_of_int (Z.of_nat (length xs)))%float.

(** The number of confidences that exceed a threshold. *)
Definition count_exceeding (threshold : float) (confidences : list float) : Z :=
  Z.of_nat (length (filter (fun c => (threshold <? c)%float = true) confidences)).

Definition text_line (s : string) : string := s +:+ String newline EmptyString.

(** A frequency table as [generate_frequency_data] writes it for the bytes
    0x41, 0x42, 0x43 (default parameters). *)
Definition csv_example : string :=
  text_line "Sample,Byte_Hex,Byte_Dec,Frequency_Hz,Amplitude,Duration_s"
  +:+ text_line "0,0x41,65,729.80,0.329,0.050"
  +:+ text_line "1,0x42,66,737.65,0.333,0.050"
  +:+ text_line "2,0x43,67,745.49,0.336,0.050".

(** The values converted from the lines that a scanner accepts, in order. *)
Definition parsed_rows {A : Type} (scan : string -> option A)
    (lines : list (string * nat)) : list A :=
  omap (fun l => scan l.1) lines.

(** The data lines of a frequency table: what [fgets] delivers after the
    header line. *)
Definition csv_data_lines (content : string) : list (string * nat) :=
  match fgets 512 content with
  | Some (header, _) => stream_lines 512 content (String.length header)
  | None => []
  end.

Definition quoted (s : string) : string :=
  String dquote (s +:+ String dquote EmptyString).

(** A metadata document as [generate_metadata_json] lays it out. *)
Definition json_preamble : string :=
  text_line "{"
  +:+ text_line ("  " +:+ quoted "audio_engine" +:+ ": {")
  +:+ text_line ("    " +:+ quoted "name" +:+ ": " +:+ quoted "SONAR Audio Engine" +:+ ",")
  +:+ text_line ("    " +:+ quoted "version" +:+ ": " +:+ quoted "AudioEngine 1.0.0")
  +:+ text_line "  },"
  +:+ text_line ("  " +:+ quoted "audio_config" +:+ ": {")
  +:+ text_line ("    " +:+ quoted "sample_rate" +:+ ": 44100,")
  +:+ text_line ("    " +:+ quoted "master_volume" +:+ ": 1.00")
  +:+ text_line "  },"
  +:+ text_line ("  " +:+ quoted "samples" +:+ ": [").

Definition json_entry (hex freq amp : string) : string :=
  text_line "    {"
  +:+ text_line ("      " +:+ quoted "byte" +:+ ": " +:+ quoted hex +:+ ",")
  +:+ text_line ("      " +:+ quoted "frequency" +:+ ": " +:+ freq +:+ ",")
  +:+ text_line ("      " +:+ quoted "amplitude" +:+ ": " +:+ amp +:+ ",")
  +:+ text_line ("      " +:+ quoted "duration" +:+ ": 0.050")
  +:+ "    }".

Definition json_closing : string :=
  text_line EmptyString +:+ text_line "  ]" +:+ text_line "}".

(** The document for the bytes 0x41, 0x42, 0x43. *)
Definition json_example : string :=
  json_preamble
  +:+ json_entry "0x41" "729.80" "0.329" +:+ text_line ","
  +:+ json_entry "0x42" "737.65" "0.333" +:+ text_line ","
  +:+ json_entry "0x43" "745.49" "0.336" +:+ json_closing.

(** The document for the single byte 0x00, which maps to 220.00 Hz. *)
Definition json_zero_byte : string :=
  json_preamble +:+ json_entry "0x00" "220.00" "0.100" +:+ json_closing.

Definition tabbed (fields : list string) : string :=
  foldr (fun f rest =>
           match rest with
           | EmptyString => f
           | _ => f +:+ String tab rest
           end) EmptyString fields.

(** An analysis report in the layout of [generate_analysis_report], with one
    damaged line between two sample lines. *)
Definition report_example : string :=
  text_line "SONAR Audio Analysis Report"
  +:+ text_line "==========================="
  +:+ text_line EmptyString
  +:+ text_line "Detailed Sample Data:"
  +:+ text_line (tabbed ["Byte"; "Freq(Hz)"; "Amp"; "Duration(s)"])
  +:+ text_line (tabbed ["----"; "--------"; "---"; "-----------"])
  +:+ text_line (tabbed ["0x41"; "729.80"; EmptyString; "0.329"; "0.050"])
  +:+ text_line "0x4? (unreadable)"
  +:+ text_line (tabbed ["0x43"; "745.49"; EmptyString; "0.336"; "0.050"]).

(** A report in which the section marker stands a second time, inside the
    data section. *)
Definition report_two_markers : string :=
  text_line "Detailed Sample Data:"
  +:+ text_line (tabbed ["Byte"; "Freq(Hz)"; "Amp"; "Duration(s)"])
  +:+ text_line (tabbed ["----"; "--------"; "---"; "-----------"])
  +:+ text_line (tabbed ["0x41"; "729.80"; EmptyString; "0.329"; "0.050"])
  +:+ text_line "Detailed Sample Data:"
  +:+ text_line (tabbed ["0x42"; "737.65"; EmptyString; "0.333"; "0.050"])
  +:+ text_line (tabbed ["0x43"; "745.49"; EmptyString; "0.336"; "0.050"])
  +:+ text_line (tabbed ["0x44"; "753.33"; EmptyString; "0.340"; "0.050"]).

(** A 44-byte header for mono 16-bit PCM at 44100 Hz. *)
Definition wav_header_44100 : list Z :=
  bytes_of_string "RIFF" ++ [0; 0; 0; 0] ++ bytes_of_string "WAVEfmt "
  ++ [16; 0; 0; 0; 1; 0; 1; 0; 68; 172; 0; 0; 136; 88; 1; 0; 2; 0; 16; 0]
  ++ bytes_of_string "data" ++ [0; 0; 0; 0].

(** Sample [i] of a square tone at 1220 Hz (base 220 + half the range 2000)
    sampled at 44100 Hz: it has the sign of sin(2 pi 1220 i / 44100). *)
Definition tone_1220 (i : Z) : Z :=
  if (61 * i mod 2205) * 2 <? 2205 then 16000 else -16000.

Definition le16 (v : Z) : list Z :=
  let u := v mod 65536 in [u mod 256; u / 256].

(** A container holding that tone for 50 ms (2205 samples), the duration of
    one byte. *)
Definition wav_tone_1220 : list Z :=
  wav_header_44100 ++ concat (le16 <$> (tone_1220 <$> seqZ 0 2205)).

(** [s] is the sample that the acoustic decoder makes of one window of
    [chunk_size] samples. *)
Definition window_sample (config : dsonar_config_t) (chunk_size sample_rate : Z)
    (s : sample) : Prop :=
  exists audio_buffer : list Z,
    Z.of_nat (length audio_buffer) = chunk_size
    /\ source_frequency s
       = detect_dominant_frequency audio_buffer chunk_size sample_rate
    /\ (0 <? source_frequency s)%float = true
    /\ reconstructed_byte s = frequency_to_byte (source_frequency s) config
    /\ confidence_score s = 0.7%float.

(** The sample that [parse_analysis_report] makes of a converted line. *)
Definition report_sample (config : dsonar_config_t) (index : Z)
    (row : report_row) : sample :=
  {| reconstructed_byte := frequency_to_byte (r_frequency row) config;
     source_frequency := r_frequency row;
     confidence_score := 0.85%float;
     sample_index := index |}.

(** The lines of the data section that yield a sample: longer than 10
    characters and accepted by the scanner. *)
Definition accepted_report_rows (scan : string -> option report_row)
    (data : list (string * nat)) : list report_row :=
  parsed_rows (fun line => if 10 <? strlen line then scan line else None) data.

(** The report decoder as the specification words it: find the section
    marker, skip two header lines, then convert lines until the first one
    that fails to parse. *)
Fixpoint after_marker (lines : list (string * nat)) : list (string * nat) :=
  match lines with
  | [] => []
  | (line, _) :: rest =>
      if strstr line "Detailed Sample Data" then rest else after_marker rest
  end.

Fixpoint rows_until_malformed (scan : string -> option report_row)
    (lines : list (string * nat)) : list report_row :=
  match lines with
  | [] => []
  | (line, _) :: rest =>
      match scan line with
      | Some row => row :: rows_until_malformed scan rest
      | None => []
      end
  end.

Definition report_rows_as_specified (scan : string -> option report_row)
    (lines : list (string * nat)) : list report_row :=
  rows_until_malformed scan (drop 2 (after_marker lines)).

(** What the report decoder does, said without its loop.  It examines the
    lines of the report in order, except that the two lines after an
    examined line that contains the section marker are passed over
    ([skip] counts the lines still to pass over). *)
Fixpoint examined_lines (skip : nat) (lines : list (string * nat))
    : list (string * nat) :=
  match lines with
  | [] => []
  | line :: rest =>
      match skip with
      | S skip' => examined_lines skip' rest
      | O =>
          line
          :: examined_lines
               (if strstr line.1 "Detailed Sample Data" then 2%nat else 0%nat)
               rest
      end
  end.

(** A sample comes from every examined line after the first marker line that
    does not itself contain the marker, is longer than 10 characters and
    is accepted by the scanner. *)
Definition report_rows_amended (scan : string -> option report_row)
    (lines : list (string * nat)) : list report_row :=
  parsed_rows
    (fun line =>
       if strstr line "Detailed Sample Data" then None
       else if 10 <? strlen line then scan line else None)
    (after_marker (examined_lines 0 lines)).

(** The frequency tags that [parse_json_metadata] acts on: the lines that
    contain the tag and whose conversion succeeds, each with its converted
    frequency and the file position after the line. *)
Definition json_frequency_lines (scan_frequency : string -> option float)
    (lines : list (string * nat)) : list (float * nat) :=
  omap (fun l =>
          if strstr l.1 (json_tag "frequency")
          then (fun f => (f, l.2)) <$> scan_frequency l.1
          else None) lines.

(** The sample recorded for such a tag. *)
Definition json_sample (scan_byte : string -> option Z)
    (config : dsonar_config_t) (content : string) (index : Z)
    (tag : float * nat) : sample :=
  {| reconstructed_byte := frequency_to_byte tag.1 config;
     source_frequency := tag.1;
     confidence_score :=
       json_confidence config tag.1
         (default 0 (search_byte_tag scan_byte content tag.2));
     sample_index := index |}.

(** The estimate of [detect_dominant_frequency] as a function of the number
    of zero crossings counted in a window that is long enough. *)
Definition estimate_of_crossings (zero_crossings buffer_size sample_rate : Z)
    : float :=
  if 0 <? zero_crossings then
    let duration :=
      (double_of_int buffer_size / double_of_int sample_rate)%float in
    let frequency := ((double_of_int zero_crossings / 2.0) / duration)%float in
    if (200.0 <=? frequency)%float && (frequency <=? 3000.0)%float
    then frequency else 0%float
  else 0%float.

(** The contents of the partition files that exist, in partition-index
    order; a missing file contributes nothing. *)
Definition partition_contents (fs : gmap string (list Z))
    (partition_count : Z) : list (list Z) :=
  omap (fun i => fs !! partition_filename i) (seqZ 0 partition_count).

(** Three partitions of which the second has no file: 10 bytes, missing,
    5 bytes. *)
Definition fs_three_partitions : filesystem := {|
  files := {[ partition_filename 0 := replicate 10 7;
              partition_filename 2 := replicate 5 9 ]};
  can_create := fun _ => true
|}.

(** Two partition files of 2^30 bytes each. *)
Definition fs_two_gib : filesystem := {|
  files := {[ partition_filename 0 := replicate (Z.to_nat 1073741824) 0;
              partition_filename 1 := replicate (Z.to_nat 1073741824) 0 ]};
  can_create := fun _ => true
|}.

(** *** mbx_sonar.c: the list of audio samples *)

Module Audio.

(** What an [audio_sample_node_t*] designates. *)
Inductive audio_sample_node_t : Type :=
| NULL
| Node (frequency amplitude duration : float) (source_byte : Z)
       (next : audio_sample_node_t).

Definition create_audio_sample (byte : Z) (config : Sonar.sonar_config_t)
    : audio_sample_node_t :=
  Node (Sonar.map_byte_to_frequency byte config)
       (Sonar.map_byte_to_amplitude byte)
       (Sonar.sample_duration config) byte NULL.

(** [add_sample_to_list(&head, new_sample)]; the result is the new value of
    [head]. *)
Fixpoint add_sample_to_list (head new_sample : audio_sample_node_t)
    : audio_sample_node_t :=
  match new_sample with
  | NULL => head
  | Node _ _ _ _ _ =>
      match head with
      | NULL => new_sample
      | Node f a d b next => Node f a d b (add_sample_to_list next new_sample)
      end
  end.

(** The loop of [mbx_sonar] over the bytes of a partition:
    [for (i = 0; i < partition_size; i++)] create a sample and append it. *)
Definition partition_samples (partition : list Z)
    (config : Sonar.sonar_config_t) : audio_sample_node_t :=
  foldl (fun audio_head byte =>
           add_sample_to_list audio_head (create_audio_sample byte config))
    NULL partition.

(** The nodes of a list, first to last. *)
Record audio_sample : Type := {
  frequency : float;
  amplitude : float;
  duration : float;
  source_byte : Z
}.

Fixpoint samples_of (head : audio_sample_node_t) : list audio_sample :=
  match head with
  | NULL => []
  | Node f a d b next =>
      {| frequency := f; amplitude := a; duration := d; source_byte := b |}
      :: samples_of next
  end.

End Audio.

(** *** mbx_dsonar.c: the second table parser

    [parse_csv_frequency_data] reads the same table as [reconstruct_from_csv]
    but takes the byte from the frequency column.  No caller uses it. *)

Section CsvFrequencyParser.

Variable sscanf_csv : string -> option csv_row.
Variable config : dsonar_config_t.

(** The loop [while (fgets(line, sizeof(line), file))] after the header. *)
Fixpoint csv_frequency_loop (lines : list (string * nat))
    (samples : reverse_sample_node_t) (sample_index : Z)
    : reverse_sample_node_t * Z :=
  match lines with
  | [] => (samples, sample_index)
  | (line, _) :: rest =>
      match sscanf_csv line with
      | Some row =>
          let sample :=
            set_confidence_score 0.95%float
              (create_reverse_sample (frequency row) sample_index config) in
          csv_frequency_loop rest (add_reverse_sample samples sample)
            (sample_index + 1)
      | None => csv_frequency_loop rest samples sample_index
      end
  end.

Definition parse_csv_frequency_data (file : option string)
    (samples : reverse_sample_node_t) : bool * reverse_sample_node_t :=
  match file with
  | None => (false, samples)
  | Some content =>
      match fgets 512 content with
      | Some (header, _) =>
          let '(samples', sample_index) :=
            csv_frequency_loop
              (stream_lines 512 content (String.length header)) samples 0 in
          (0 <? sample_index, samples')
      | None => (false, samples)
      end
  end.

End CsvFrequencyParser.

(** *** mbx_dsonar.c: saving a result and the per-partition driver *)

(** A text file is read as the characters of its bytes. *)
Definition string_of_bytes (bytes : list Z) : string :=
  string_of_list_ascii ((fun b => ascii_of_nat (Z.to_nat b)) <$> bytes).

(** The artifact names formed by [sprintf] in [mbx_dsonar] and in
    [process_wav_files_only], for the number [index] that [%d] prints. *)
Definition wav_filename (index : Z) : string :=
  "sonar_partition_" +:+ pretty index +:+ ".wav".
Definition csv_filename (index : Z) : string :=
  "sonar_partition_" +:+ pretty index +:+ "_frequencies.csv".
Definition json_filename (index : Z) : string :=
  "sonar_partition_" +:+ pretty index +:+ "_metadata.json".
Definition analysis_filename (index : Z) : string :=
  "sonar_partition_" +:+ pretty index +:+ "_analysis.txt".

(** [save_reconstructed_data(output_filename, result)]: the returned flag
    and the file system afterwards.  [fwrite] is asked for [data_length]
    bytes of the buffer; asking for more than the buffer holds is undefined
    in C, and the model then writes what there is and reports the shortfall. *)
Definition save_reconstructed_data (fs : filesystem) (name : string)
    (result : dsonar_result_t) : bool * filesystem :=
  match reconstructed_data result with
  | None => (false, fs)
  | Some data =>
      if negb (can_create fs name) then (false, fs)
      else
        let written := take (Z.to_nat (data_length result)) data in
        (Z.of_nat (length written) =? data_length result,
         {| files := <[name := written]> (files fs);
            can_create := can_create fs |})
  end.

Definition outcome_bind {A B : Type} (x : outcome A) (f : A -> outcome B)
    : outcome B :=
  match x with
  | Returns a => f a
  | Diverges => Diverges
  end.

Section Drivers.

Variable sscanf_csv : string -> option csv_row.
Variable sscanf_frequency : string -> option float.
Variable sscanf_byte : string -> option Z.
Variable sscanf_report : string -> option report_row.

(** The selection made by [mbx_dsonar], for the number [index] that [%d]
    prints in the artifact names: the first artifact that exists, in the
    order table, metadata, container, report, is decoded; [None] when no
    artifact exists, [Some None] when the chosen decoder returns NULL. *)
Definition select_and_reconstruct (fs : filesystem) (index : Z)
    (config : dsonar_config_t) : outcome (option (option dsonar_result_t)) :=
  match files fs !! csv_filename index with
  | Some csv =>
      Returns (Some (reconstruct_from_csv sscanf_csv
                       (Some (string_of_bytes csv))))
  | None =>
      match files fs !! json_filename index with
      | Some json =>
          Returns (Some (reconstruct_from_json sscanf_frequency sscanf_byte
                           config (Some (string_of_bytes json))))
      | None =>
          match files fs !! wav_filename index with
          | Some wav =>
              outcome_bind (reconstruct_from_wav (Some wav) config)
                (fun result => Returns (Some result))
          | None =>
              match files fs !! analysis_filename index with
              | Some report =>
                  Returns (Some (reconstruct_from_analysis sscanf_report config
                                   (Some (string_of_bytes report))))
              | None => Returns None
              end
          end
      end
  end.

(** [mbx_dsonar(target, index, arg)] for a non-NULL target: the returned
    flag and the file system afterwards.  [index] is an [unsigned int] and
    every file name is formed with [%d], which prints [int_of_Z index].  The
    result of [save_reconstructed_data] only decides what is printed. *)
Definition mbx_dsonar (fs : filesystem) (index : Z) (config : dsonar_config_t)
    : outcome (bool * filesystem) :=
  let printed := int_of_Z index in
  outcome_bind (select_and_reconstruct fs printed config)
    (fun selected =>
       match selected with
       | None => Returns (false, fs)
       | Some None => Returns (false, fs)
       | Some (Some result) =>
           Returns (true,
                    (save_reconstructed_data fs (partition_filename printed)
                       result).2)
       end).

(** The loop of [mbx_dsonar_batch_process] over the partition indices still
    to process; a failed partition clears [success] and the loop goes on. *)
Fixpoint batch_loop (indices : list Z) (config : dsonar_config_t)
    (fs : filesystem) (success : bool) : outcome (bool * filesystem) :=
  match indices with
  | [] => Returns (success, fs)
  | i :: rest =>
      outcome_bind (mbx_dsonar fs i config)
        (fun '(ok, fs') =>
           batch_loop rest config fs' (if ok then success else false))
  end.

(** [mbx_dsonar_batch_process(target, arg)] for a non-NULL target with
    [partition_count] partitions, a number below 2^32 that the loop counter,
    an [unsigned int], reaches.  [combine_partition_files] takes the count
    as an [int]. *)
Definition mbx_dsonar_batch_process (fs : filesystem) (partition_count : Z)
    (config : dsonar_config_t) : outcome (bool * filesystem) :=
  outcome_bind (batch_loop (seqZ 0 partition_count) config fs true)
    (fun '(success, fs') =>
       if success then
         let '(combined, fs'') :=
           combine_partition_files fs' (int_of_Z partition_count)
             "original_file.bin" in
         Returns (combined, fs'')
       else Returns (false, fs')).

End Drivers.

(** *** mbx_textview.c: the stand-alone driver *)

Section WavDriver.

Variable sscanf_csv : string -> option csv_row.

(** The configuration that [process_wav_files_only] builds on its stack. *)
Definition wav_driver_config : dsonar_config_t := {|
  base_frequency := 220.0%float;
  frequency_range := 2000.0%float;
  tolerance := 5.0%float;
  strict_mode := false;
  input_format := "wav"
|}.

(** One pass of the loop of [process_wav_files_only] for partition [i]:
    the new value of [success] and the file system afterwards.  The frequency
    table is tried when it exists; the container is decoded when the table
    is absent or its decoder returns NULL. *)
Definition wav_driver_step (fs : filesystem) (i : Z) (success : bool)
    : outcome (bool * filesystem) :=
  match files fs !! wav_filename i with
  | None => Returns (false, fs)
  | Some wav =>
      let from_csv :=
        match files fs !! csv_filename i with
        | Some csv => reconstruct_from_csv sscanf_csv (Some (string_of_bytes csv))
        | None => None
        end in
      outcome_bind
        (match from_csv with
         | Some result => Returns (Some result)
         | None => reconstruct_from_wav (Some wav) wav_driver_config
         end)
        (fun result =>
           match result with
           | None => Returns (false, fs)
           | Some result =>
               let '(saved, fs') :=
                 save_reconstructed_data fs (partition_filename i) result in
               Returns (if saved then success else false, fs')
           end)
  end.

Fixpoint wav_driver_loop (indices : list Z) (fs : filesystem) (success : bool)
    : outcome (bool * filesystem) :=
  match indices with
  | [] => Returns (success, fs)
  | i :: rest =>
      outcome_bind (wav_driver_step fs i success)
        (fun '(success', fs') => wav_driver_loop rest fs' success')
  end.

(** [process_wav_files_only(partition_count)] *)
Definition process_wav_files_only (fs : filesystem) (partition_count : Z)
    : outcome (bool * filesystem) :=
  outcome_bind (wav_driver_loop (seqZ 0 partition_count) fs true)
    (fun '(success, fs') =>
       if success then
         let '(combined, fs'') :=
           combine_partition_files fs' partition_count
             "reconstructed_from_wav.bin" in
         Returns (combined, fs'')
       else Returns (false, fs')).

End WavDriver.

(** *** printf conversions, as the generators of audio_engine.c use them *)

Module Print.

Fixpoint zeros (n : nat) : string :=
  match n with
  | O => EmptyString
  | S n' => String "0" (zeros n')
  end.

(** [%d] of an [int]. *)
Definition conv_d (i : Z) : string := pretty i.

Definition hex_digit (d : Z) : ascii :=
  ascii_of_nat (Z.to_nat (if d <? 10 then 48 + d else 55 + d)).

Fixpoint hex_go (fuel : nat) (v : Z) (acc : string) : string :=
  match fuel with
  | O => acc
  | S fuel' =>
      if v =? 0 then acc
      else hex_go fuel' (v / 16) (String (hex_digit (v mod 16)) acc)
  end.

(** [%02X] of an [unsigned int]: upper-case hexadecimal, padded with zeros
    to two digits. *)
Definition conv_02X (v : Z) : string :=
  let s := hex_go 8 v EmptyString in
  zeros (2 - String.length s) +:+ s.

(** The quotient [num / den] rounded to the nearest integer, ties to even. *)
Definition round_half_even (num den : Z) : Z :=
  let q := num / den in
  let r := num mod den in
  if (den <? 2 * r) || ((2 * r =? den) && Z.odd q) then q + 1 else q.

(** The decimal notation of [n / 10^prec] with [prec] digits after the
    point, [n] being a natural number. *)
Definition fixed_point (prec : nat) (n : Z) : string :=
  let p := 10 ^ Z.of_nat prec in
  let frac := pretty (n mod p) in
  match prec with
  | O => pretty n
  | S _ => pretty (n / p) +:+ "." +:+ zeros (prec - String.length frac) +:+ frac
  end.

(** [%.<prec>f] of a [double]: the exact value of the double, rounded to
    [prec] decimals to nearest with ties to even, the sign kept when the
    result rounds to zero. *)
Definition conv_f (prec : nat) (x : float) : string :=
  match Prim2SF x with
  | S754_zero s => (if s then "-" else EmptyString) +:+ fixed_point prec 0
  | S754_finite s m e =>
      let n :=
        if 0 <=? e then Z.pos m * 2 ^ e * 10 ^ Z.of_nat prec
        else round_half_even (Z.pos m * 10 ^ Z.of_nat prec) (2 ^ (- e)) in
      (if s then "-" else EmptyString) +:+ fixed_point prec n
  | S754_infinity s => if s then "-inf" else "inf"
  | S754_nan => "nan"
  end.

End Print.

(** *** audio_engine.c: the three text generators *)

Module Engine.

(** The library state: [g_sample_rate], [g_master_volume], [g_initialized]. *)
Record state : Type := {
  g_sample_rate : Z;
  g_master_volume : float;
  g_initialized : bool
}.

(** The state when the library is loaded. *)
Definition loaded : state := {|
  g_sample_rate := 44100;
  g_master_volume := 1.0%float;
  g_initialized := false
|}.

Definition g_library_version : string := "AudioEngine 1.0.0".
Definition g_library_name : string := "SONAR Audio Engine".

Definition init_audio (st : state) (sample_rate : Z) : Z * state :=
  if g_initialized st then (0, st)
  else (0, {| g_sample_rate := sample_rate;
              g_master_volume := 1.0%float;
              g_initialized := true |}).

(** [fopen(name, "w")] followed by writing [text] and [fclose]; the return
    value is -1 when the file cannot be created and 0 otherwise. *)
Definition write_text (fs : filesystem) (name text : string) : Z * filesystem :=
  if negb (can_create fs name) then (-1, fs)
  else (0, {| files := <[name := bytes_of_string text]> (files fs);
              can_create := can_create fs |}).

(** **** generate_frequency_data *)

(** The loop [while (current)] with its counter [index]. *)
Fixpoint frequency_rows (current : Audio.audio_sample_node_t) (index : Z)
    : string :=
  match current with
  | Audio.NULL => EmptyString
  | Audio.Node frequency amplitude duration source_byte next =>
      (Print.conv_d index +:+ ",0x" +:+ Print.conv_02X source_byte
       +:+ "," +:+ Print.conv_d source_byte
       +:+ "," +:+ Print.conv_f 2 frequency
       +:+ "," +:+ Print.conv_f 3 amplitude
       +:+ "," +:+ Print.conv_f 3 duration +:+ String newline EmptyString)
      +:+ frequency_rows next (index + 1)
  end.

Definition frequency_data_text (samples : Audio.audio_sample_node_t) : string :=
  text_line "Sample,Byte_Hex,Byte_Dec,Frequency_Hz,Amplitude,Duration_s"
  +:+ frequency_rows samples 0.

(** [generate_frequency_data(samples, filename)]; the name built by
    [snprintf] is taken to fit its 512-byte buffer. *)
Definition generate_frequency_data (fs : filesystem)
    (samples : Audio.audio_sample_node_t) (filename : string)
    : Z * filesystem :=
  match samples with
  | Audio.NULL => (-1, fs)
  | Audio.Node _ _ _ _ _ =>
      write_text fs (filename +:+ "_frequencies.csv")
        (frequency_data_text samples)
  end.

(** **** generate_analysis_report *)

Record statistics : Type := {
  sample_count : Z;
  total_freq : float;
  min_freq : float;
  max_freq : float;
  total_amp : float;
  min_amp : float;
  max_amp : float
}.

(** The values the statistics start from. *)
Definition no_statistics : statistics := {|
  sample_count := 0;
  total_freq := 0.0%float;
  min_freq := 999999.0%float;
  max_freq := 0.0%float;
  total_amp := 0.0%float;
  min_amp := 1.0%float;
  max_amp := 0.0%float
|}.

(** The loop "Analyze samples". *)
Fixpoint analyze (current : Audio.audio_sample_node_t) (st : statistics)
    : statistics :=
  match current with
  | Audio.NULL => st
  | Audio.Node frequency amplitude _ _ next =>
      analyze next
        {| sample_count := sample_count st + 1;
           total_freq := (total_freq st + frequency)%float;
           min_freq :=
             if (frequency <? min_freq st)%float then frequency
             else min_freq st;
           max_freq :=
             if (max_freq st <? frequency)%float then frequency
             else max_freq st;
           total_amp := (total_amp st + amplitude)%float;
           min_amp :=
             if (amplitude <? min_amp st)%float then amplitude
             else min_amp st;
           max_amp :=
             if (max_amp st <? amplitude)%float then amplitude
             else max_amp st |}
  end.

(** The second loop: one line per sample. *)
Fixpoint report_rows (current : Audio.audio_sample_node_t) : string :=
  match current with
  | Audio.NULL => EmptyString
  | Audio.Node frequency amplitude duration source_byte next =>
      ("0x" +:+ Print.conv_02X source_byte
       +:+ String tab (Print.conv_f 2 frequency
       +:+ String tab (String tab (Print.conv_f 3 amplitude
       +:+ String tab (Print.conv_f 3 duration
       +:+ String newline EmptyString)))))
      +:+ report_rows next
  end.

Definition report_heading : string :=
  text_line "SONAR Audio Analysis Report"
  +:+ text_line "==========================="
  +:+ text_line EmptyString
  +:+ text_line ("Generated by: " +:+ g_library_name)
  +:+ text_line ("Version: " +:+ g_library_version)
  +:+ text_line EmptyString.

Definition report_statistics (st : statistics) : string :=
  text_line "Sample Statistics:"
  +:+ text_line ("- Total samples: " +:+ Print.conv_d (sample_count st))
  +:+ text_line ("- Average frequency: "
                 +:+ Print.conv_f 2
                       (total_freq st / double_of_int (sample_count st))%float
                 +:+ " Hz")
  +:+ text_line ("- Frequency range: " +:+ Print.conv_f 2 (min_freq st)
                 +:+ " - " +:+ Print.conv_f 2 (max_freq st) +:+ " Hz")
  +:+ text_line ("- Average amplitude: "
                 +:+ Print.conv_f 3
                       (total_amp st / double_of_int (sample_count st))%float)
  +:+ text_line ("- Amplitude range: " +:+ Print.conv_f 3 (min_amp st)
                 +:+ " - " +:+ Print.conv_f 3 (max_amp st))
  +:+ text_line EmptyString.

Definition report_table_heading : string :=
  text_line "Detailed Sample Data:"
  +:+ text_line (tabbed ["Byte"; "Freq(Hz)"; "Amp"; "Duration(s)"])
  +:+ text_line (tabbed ["----"; "--------"; "---"; "-----------"]).

Definition analysis_report_text (samples : Audio.audio_sample_node_t)
    : string :=
  let st := analyze samples no_statistics in
  report_heading
  +:+ (if 0 <? sample_count st
       then report_statistics st +:+ report_table_heading
            +:+ report_rows samples
       else EmptyString).

Definition generate_analysis_report (fs : filesystem)
    (samples : Audio.audio_sample_node_t) (filename : string)
    : Z * filesystem :=
  match samples with
  | Audio.NULL => (-1, fs)
  | Audio.Node _ _ _ _ _ =>
      write_text fs (filename +:+ "_analysis.txt")
        (analysis_report_text samples)
  end.

(** **** generate_metadata_json *)

Definition metadata_heading (st : state) : string :=
  text_line "{"
  +:+ text_line ("  " +:+ quoted "audio_engine" +:+ ": {")
  +:+ text_line ("    " +:+ quoted "name" +:+ ": "
                 +:+ quoted g_library_name +:+ ",")
  +:+ text_line ("    " +:+ quoted "version" +:+ ": "
                 +:+ quoted g_library_version)
  +:+ text_line "  },"
  +:+ text_line ("  " +:+ quoted "audio_config" +:+ ": {")
  +:+ text_line ("    " +:+ quoted "sample_rate" +:+ ": "
                 +:+ Print.conv_d (g_sample_rate st) +:+ ",")
  +:+ text_line ("    " +:+ quoted "master_volume" +:+ ": "
                 +:+ Print.conv_f 2 (g_master_volume st))
  +:+ text_line "  },"
  +:+ text_line ("  " +:+ quoted "samples" +:+ ": [").

(** The loop [while (current)] with its flag [first]. *)
Fixpoint metadata_entries (current : Audio.audio_sample_node_t) (first : bool)
    : string :=
  match current with
  | Audio.NULL => EmptyString
  | Audio.Node frequency amplitude duration source_byte next =>
      ((if first then EmptyString else text_line ",")
       +:+ text_line "    {"
       +:+ text_line ("      " +:+ quoted "byte" +:+ ": "
                      +:+ quoted ("0x" +:+ Print.conv_02X source_byte) +:+ ",")
       +:+ text_line ("      " +:+ quoted "frequency" +:+ ": "
                      +:+ Print.conv_f 2 frequency +:+ ",")
       +:+ text_line ("      " +:+ quoted "amplitude" +:+ ": "
                      +:+ Print.conv_f 3 amplitude +:+ ",")
       +:+ text_line ("      " +:+ quoted "duration" +:+ ": "
                      +:+ Print.conv_f 3 duration)
       +:+ "    }")
      +:+ metadata_entries next false
  end.

Definition metadata_text (st : state) (samples : Audio.audio_sample_node_t)
    : string :=
  metadata_heading st +:+ metadata_entries samples true
  +:+ text_line EmptyString +:+ text_line "  ]" +:+ text_line "}".

Definition generate_metadata_json (st : state) (fs : filesystem)
    (samples : Audio.audio_sample_node_t) (filename : string)
    : Z * filesystem :=
  match samples with
  | Audio.NULL => (-1, fs)
  | Audio.Node _ _ _ _ _ =>
      write_text fs (filename +:+ "_metadata.json") (metadata_text st samples)
  end.

End Engine.

(** The base name that [mbx_sonar] hands to the generators:
    [sprintf(base_filename, "sonar_partition_%d", index)] for its
    [unsigned int index]. *)
Definition base_filename (index : Z) : string :=
  "sonar_partition_" +:+ pretty (int_of_Z index).

(** *** Notions used to state facts about the generated texts *)

(** A line: characters other than newline, then one newline. *)
Fixpoint is_line (s : string) : bool :=
  match s with
  | EmptyString => false
  | String c rest =>
      if Ascii.eqb c newline
      then match rest with EmptyString => true | String _ _ => false end
      else is_line rest
  end.

Fixpoint occurs (c : ascii) (s : string) : bool :=
  match s with
  | EmptyString => false
  | String d rest => Ascii.eqb c d || occurs c rest
  end.

(** Consecutive lines starting at position [pos], each with the position
    after it. *)
Fixpoint line_positions (pos : nat) (lines : list string)
    : list (string * nat) :=
  match lines with
  | [] => []
  | line :: rest =>
      let pos' := (pos + String.length line)%nat in
      (line, pos') :: line_positions pos' rest
  end.

(** The node contents that [create_audio_sample] gives a byte. *)
Definition sample_of_byte (config : Sonar.sonar_config_t) (byte : Z)
    : Audio.audio_sample :=
  {| Audio.frequency := Sonar.map_byte_to_frequency byte config;
     Audio.amplitude := Sonar.map_byte_to_amplitude byte;
     Audio.duration := Sonar.sample_duration config;
     Audio.source_byte := byte |}.

(** One row of the frequency table after its first field. *)
Definition frequency_row_fields (s : Audio.audio_sample) : string :=
  ",0x" +:+ Print.conv_02X (Audio.source_byte s)
  +:+ "," +:+ Print.conv_d (Audio.source_byte s)
  +:+ "," +:+ Print.conv_f 2 (Audio.frequency s)
  +:+ "," +:+ Print.conv_f 3 (Audio.amplitude s)
  +:+ "," +:+ Print.conv_f 3 (Audio.duration s) +:+ String newline EmptyString.

(** One row of the table of the analysis report. *)
Definition report_row_text (s : Audio.audio_sample) : string :=
  "0x" +:+ Print.conv_02X (Audio.source_byte s)
  +:+ String tab (Print.conv_f 2 (Audio.frequency s)
  +:+ String tab (String tab (Print.conv_f 3 (Audio.amplitude s)
  +:+ String tab (Print.conv_f 3 (Audio.duration s)
  +:+ String newline EmptyString)))).

(** The six lines of one entry of the metadata document; the closing brace
    of every entry but the last is followed by a comma. *)
Definition metadata_entry_lines (last : bool) (s : Audio.audio_sample)
    : list string :=
  [ text_line "    {";
    text_line ("      " +:+ quoted "byte" +:+ ": "
               +:+ quoted ("0x" +:+ Print.conv_02X (Audio.source_byte s))
               +:+ ",");
    text_line ("      " +:+ quoted "frequency" +:+ ": "
               +:+ Print.conv_f 2 (Audio.frequency s) +:+ ",");
    text_line ("      " +:+ quoted "amplitude" +:+ ": "
               +:+ Print.conv_f 3 (Audio.amplitude s) +:+ ",");
    text_line ("      " +:+ quoted "duration" +:+ ": "
               +:+ Print.conv_f 3 (Audio.duration s));
    text_line (if last then "    }" else "    },") ].

Fixpoint metadata_lines (ss : list Audio.audio_sample) : list string :=
  match ss with
  | [] => []
  | [s] => metadata_entry_lines true s
  | s :: rest => metadata_entry_lines false s ++ metadata_lines rest
  end.

(** The lines of an analysis report before its table, and the three lines
    that head the table. *)
Definition report_front (st : Engine.statistics) : list string :=
  [ text_line "SONAR Audio Analysis Report";
    text_line "===========================";
    text_line EmptyString;
    text_line ("Generated by: " +:+ Engine.g_library_name);
    text_line ("Version: " +:+ Engine.g_library_version);
    text_line EmptyString;
    text_line "Sample Statistics:";
    text_line ("- Total samples: " +:+ Print.conv_d (Engine.sample_count st));
    text_line ("- Average frequency: "
               +:+ Print.conv_f 2
                     (Engine.total_freq st
                      / double_of_int (Engine.sample_count st))%float
               +:+ " Hz");
    text_line ("- Frequency range: " +:+ Print.conv_f 2 (Engine.min_freq st)
               +:+ " - " +:+ Print.conv_f 2 (Engine.max_freq st) +:+ " Hz");
    text_line ("- Average amplitude: "
               +:+ Print.conv_f 3
                     (Engine.total_amp st
                      / double_of_int (Engine.sample_count st))%float);
    text_line ("- Amplitude range: " +:+ Print.conv_f 3 (Engine.min_amp st)
               +:+ " - " +:+ Print.conv_f 3 (Engine.max_amp st));
    text_line EmptyString ].

Definition report_table_lines : list string :=
  [ text_line "Detailed Sample Data:";
    text_line (tabbed ["Byte"; "Freq(Hz)"; "Amp"; "Duration(s)"]);
    text_line (tabbed ["----"; "--------"; "---"; "-----------"]) ].

(** The lines of a metadata document before its first entry, when the
    library runs at 44100 Hz with master volume 1.0, and the two lines after
    its last entry. *)
Definition metadata_front : list string :=
  [ text_line "{";
    text_line ("  " +:+ quoted "audio_engine" +:+ ": {");
    text_line ("    " +:+ quoted "name" +:+ ": " +:+ quoted "SONAR Audio Engine" +:+ ",");
    text_line ("    " +:+ quoted "version" +:+ ": " +:+ quoted "AudioEngine 1.0.0");
    text_line "  },";
    text_line ("  " +:+ quoted "audio_config" +:+ ": {");
    text_line ("    " +:+ quoted "sample_rate" +:+ ": 44100,");
    text_line ("    " +:+ quoted "master_volume" +:+ ": 1.00");
    text_line "  },";
    text_line ("  " +:+ quoted "samples" +:+ ": [") ].

Definition metadata_back : list string := [ text_line "  ]"; text_line "}" ].

(** The frequencies that [parse_json_metadata] converts from a list of
    lines. *)
Definition frequencies_of_lines (scan_frequency : string -> option float)
    (lines : list string) : list float :=
  omap (fun line =>
          if strstr line (json_tag "frequency") then scan_frequency line
          else None) lines.

(** *** File systems used by the examples *)

(** Nothing on disk. *)
Definition fs_empty : filesystem := {|
  files := ∅;
  can_create := fun _ => true
|}.

(** The frequency tables that the generator writes for two partitions, the
    bytes "Hi" and the bytes 0x21, 0x00, 0xFF. *)
Definition two_partitions : list (list Z) := [[72; 105]; [33; 0; 255]].

Definition table_of (partition : list Z) : list Z :=
  bytes_of_string
    (Engine.frequency_data_text
       (Audio.partition_samples partition Sonar.default_config)).

Definition fs_two_tables : filesystem := {|
  files := {[ csv_filename 0 := table_of [72; 105];
              csv_filename 1 := table_of [33; 0; 255] ]};
  can_create := fun _ => true
|}.

(** The tables of partitions 0 and 2; partition 1 has no artifact. *)
Definition fs_tables_0_and_2 : filesystem := {|
  files := {[ csv_filename 0 := table_of [72; 105];
              csv_filename 2 := table_of [33; 0; 255] ]};
  can_create := fun _ => true
|}.

(** The same two tables, each next to a container holding the 1220 Hz
    tone. *)
Definition fs_two_tables_and_tones : filesystem := {|
  files := {[ csv_filename 0 := table_of [72; 105];
              csv_filename 1 := table_of [33; 0; 255];
              wav_filename 0 := wav_tone_1220;
              wav_filename 1 := wav_tone_1220 ]};
  can_create := fun _ => true
|}.

(** A table that consists of its header line only, next to a metadata
    document for the byte 0x41. *)
Definition fs_header_only_table : filesystem := {|
  files := {[ csv_filename 0
              := bytes_of_string
                   (text_line
                      "Sample,Byte_Hex,Byte_Dec,Frequency_Hz,Amplitude,Duration_s");
              json_filename 0
              := bytes_of_string
                   (Engine.metadata_text Engine.loaded
                      (Audio.partition_samples [65] Sonar.default_config)) ]};
  can_create := fun _ => true
|}.

(** A metadata document for the byte 0x41 and nothing else. *)
Definition fs_metadata_only : filesystem := {|
  files := {[ json_filename 0
              := bytes_of_string
                   (Engine.metadata_text Engine.loaded
                      (Audio.partition_samples [65] Sonar.default_config)) ]};
  can_create := fun _ => true
|}.

(** No artifact of partition [index] is on disk. *)
Definition no_artifact (fs : filesystem) (index : Z) : Prop :=
  files fs !! csv_filename index = None
  /\ files fs !! json_filename index = None
  /\ files fs !! wav_filename index = None
  /\ files fs !! analysis_filename index = None.

(** ** Part II. Theorems *)

(** *** The codec *)

Lemma uchar_of_Z_byte (b : Z) : 0 <= b <= 255 -> uchar_of_Z b = b.
Proof. intros Hb. unfold uchar_of_Z. apply Z.mod_small. lia. Qed.

Lemma all_bytes (P : Z -> bool) :
  forallb P (seqZ 0 256) = true ->
  forall b : Z, 0 <= b <= 255 -> P b = true.
Proof.
  intros Hall b Hb.
  apply Is_true_true_2, forallb_True in Hall.
  rewrite Forall_forall in Hall.
  apply Is_true_true_1, Hall, elem_of_seqZ. lia.
Qed.

Lemma all_byte_pairs (P : Z -> Z -> bool) :
  forallb (fun a => forallb (P a) (seqZ 0 256)) (seqZ 0 256) = true ->
  forall a b : Z, 0 <= a <= 255 -> 0 <= b <= 255 -> P a b = true.
Proof.
  intros Hall a b Ha Hb.
  apply (all_bytes (P a)); [|exact Hb].
  apply (all_bytes (fun a => forallb (P a) (seqZ 0 256))); assumption.
Qed.

(** *** Binary64 rounding

    The operations on doubles are those of [SpecFloat], to which the
    primitive operations are tied by [FloatAxioms].  What follows bounds the
    error of one operation: the result of [binary_round_aux], hence of an
    addition, subtraction, multiplication or division whose exact result is
    below 2^1023 in magnitude, lies within 2^-52 times that magnitude, plus
    2^-1074, of the exact result. *)

Lemma digits2_pos_bounds (m : positive) :
  2 ^ (Z.pos (digits2_pos m) - 1) <= Z.pos m < 2 ^ Z.pos (digits2_pos m).
Proof.
  induction m as [m IH | m IH |]; cbn [digits2_pos].
  - rewrite Pos2Z.inj_succ.
    replace (Z.succ (Z.pos (digits2_pos m)) - 1) with (Z.succ (Z.pos (digits2_pos m) - 1)) by lia.
    rewrite !Z.pow_succ_r by lia. lia.
  - rewrite Pos2Z.inj_succ.
    replace (Z.succ (Z.pos (digits2_pos m)) - 1) with (Z.succ (Z.pos (digits2_pos m) - 1)) by lia.
    rewrite !Z.pow_succ_r by lia. lia.
  - cbn. lia.
Qed.

Lemma Zdigits2_bounds (m : Z) :
  0 < m -> 2 ^ (Zdigits2 m - 1) <= m < 2 ^ Zdigits2 m.
Proof.
  destruct m as [|p|p]; try lia. intros _. apply digits2_pos_bounds.
Qed.

Lemma Zdigits2_nonneg (m : Z) : 0 <= Zdigits2 m.
Proof. destruct m; cbn; lia. Qed.

Lemma Zdigits2_le (m : Z) (k : Z) :
  0 <= k -> 0 <= m < 2 ^ k -> Zdigits2 m <= k.
Proof.
  intros Hk [H0 Hm].
  destruct (Z.eq_dec m 0) as [->|Hne]; [cbn; lia|].
  destruct (Zdigits2_bounds m ltac:(lia)) as [Hlo _].
  destruct (Z_le_gt_dec (Zdigits2 m) k) as [|Hgt]; [assumption|].
  assert (2 ^ k <= 2 ^ (Zdigits2 m - 1)) by (apply Z.pow_le_mono_r; lia).
  lia.
Qed.

Lemma Zdigits2_ge (m : Z) (k : Z) :
  0 <= k -> 2 ^ k <= m -> k + 1 <= Zdigits2 m.
Proof.
  intros Hk Hm.
  assert (0 < 2 ^ k) by (apply Z.pow_pos_nonneg; lia).
  destruct (Zdigits2_bounds m ltac:(lia)) as [_ Hhi].
  destruct (Z_le_gt_dec (k + 1) (Zdigits2 m)) as [|Hgt]; [assumption|].
  assert (2 ^ Zdigits2 m <= 2 ^ k)
    by (apply Z.pow_le_mono_r; [lia | pose proof (Zdigits2_nonneg m); lia]).
  lia.
Qed.

Lemma shr_1_m (mrs : shr_record) :
  0 <= shr_m mrs -> shr_m (shr_1 mrs) = shr_m mrs / 2.
Proof.
  destruct mrs as [m r s]. cbn [shr_m]. intros Hm.
  destruct m as [|[p|p|]|p]; cbn [shr_1 shr_m]; try lia; try reflexivity.
  - apply (Z.div_unique _ _ _ 1); lia.
  - apply (Z.div_unique _ _ _ 0); lia.
Qed.

Lemma shr_1_nonneg (mrs : shr_record) :
  0 <= shr_m mrs -> 0 <= shr_m (shr_1 mrs).
Proof.
  intros H. rewrite shr_1_m by assumption. apply Z.div_pos; lia.
Qed.

Lemma iter_shr_1_m (p : positive) :
  forall mrs, 0 <= shr_m mrs ->
    shr_m (SpecFloat.iter_pos shr_1 p mrs) = shr_m mrs / 2 ^ Z.pos p.
Proof.
  induction p as [p IH | p IH |]; intros mrs Hm; cbn [SpecFloat.iter_pos].
  - assert (H1 : 0 <= shr_m (shr_1 mrs)) by (apply shr_1_nonneg; assumption).
    assert (H2 : 0 <= shr_m (SpecFloat.iter_pos shr_1 p (shr_1 mrs))).
    { rewrite IH by assumption. apply Z.div_pos; [assumption|].
      apply Z.pow_pos_nonneg; lia. }
    rewrite IH by assumption. rewrite IH by assumption.
    rewrite shr_1_m by assumption.
    assert (0 < 2 ^ Z.pos p) by (apply Z.pow_pos_nonneg; lia).
    rewrite !Z.div_div by lia.
    f_equal.
    assert (Hp : Z.pos p~1 = 1 + Z.pos p + Z.pos p) by lia.
    rewrite Hp, !Z.pow_add_r by lia. lia.
  - assert (H2 : 0 <= shr_m (SpecFloat.iter_pos shr_1 p mrs)).
    { rewrite IH by assumption. apply Z.div_pos; [assumption|].
      apply Z.pow_pos_nonneg; lia. }
    rewrite IH by assumption. rewrite IH by assumption.
    assert (0 < 2 ^ Z.pos p) by (apply Z.pow_pos_nonneg; lia).
    rewrite !Z.div_div by lia.
    f_equal.
    assert (Hp : Z.pos p~0 = Z.pos p + Z.pos p) by lia.
    rewrite Hp, !Z.pow_add_r by lia. lia.
  - rewrite shr_1_m by assumption. reflexivity.
Qed.

Lemma shr_record_of_loc_m (m : Z) (l : location) :
  shr_m (shr_record_of_loc m l) = m.
Proof. destruct l as [|[]]; reflexivity. Qed.

(** [shr_fexp] drops the [n] low bits that do not fit the format. *)
Lemma shr_fexp_spec (m e : Z) (l : location) :
  0 <= m ->
  let n := Z.max 0 (fexp prec emax (Zdigits2 m + e) - e) in
  shr_m (fst (shr_fexp prec emax m e l)) = m / 2 ^ n
  /\ snd (shr_fexp prec emax m e l) = e + n.
Proof.
  intros Hm n. unfold shr_fexp, shr.
  subst n. destruct (fexp prec emax (Zdigits2 m + e) - e) as [|p|p] eqn:Hn;
    cbn [fst snd].
  - rewrite shr_record_of_loc_m. cbn. rewrite Z.div_1_r. lia.
  - rewrite iter_shr_1_m by (rewrite shr_record_of_loc_m; assumption).
    rewrite shr_record_of_loc_m.
    replace (Z.max 0 (Z.pos p)) with (Z.pos p) by lia. split; reflexivity.
  - rewrite shr_record_of_loc_m.
    replace (Z.max 0 (Z.neg p)) with 0 by lia. cbn. rewrite Z.div_1_r. lia.
Qed.

Lemma round_nearest_even_bounds (m : Z) (l : location) :
  m <= round_nearest_even m l <= m + 1.
Proof.
  destruct l as [|[]]; cbn; try lia. destruct (Z.even m); lia.
Qed.

(** The integer core of [binary_round_aux]: the mantissa and exponent it
    returns. *)
Lemma binary_round_aux_core (s : bool) (m e : Z) (l : location) :
  0 <= m ->
  e <= fexp prec emax (Zdigits2 m + e) ->
  Zdigits2 m + e <= 1023 ->
  let e1 := fexp prec emax (Zdigits2 m + e) in
  exists m2 m3 e3,
    m / 2 ^ (e1 - e) <= m2 <= m / 2 ^ (e1 - e) + 1
    /\ m2 = round_nearest_even
              (shr_m (shr_fexp prec emax m e l).1)
              (loc_of_shr_record (shr_fexp prec emax m e l).1)
    /\ (shr_fexp prec emax m e l).2 = e1
    /\ 0 <= m3 /\ m3 * 2 ^ (e3 - e1) = m2 /\ e1 <= e3
    /\ binary_round_aux prec emax s m e l =
       match m3 with
       | Z0 => S754_zero s
       | Z.pos p => S754_finite s p e3
       | Z.neg _ => S754_nan
       end.
Proof.
  intros Hm He Hd e1.
  unfold binary_round_aux.
  destruct (shr_fexp_spec m e l Hm) as [Hm1 He1].
  destruct (shr_fexp prec emax m e l) as [mrs' e'] eqn:Hshr.
  cbn [fst snd] in Hm1, He1.
  replace (Z.max 0 (fexp prec emax (Zdigits2 m + e) - e)) with (e1 - e)
    in Hm1, He1 by (subst e1; lia).
  assert (He' : e' = e1) by lia. clear He1. rewrite He' in *. clear He' e'.
  set (m2 := round_nearest_even (shr_m mrs') (loc_of_shr_record mrs')).
  assert (Hm2 : m / 2 ^ (e1 - e) <= m2 <= m / 2 ^ (e1 - e) + 1).
  { rewrite <- Hm1. apply round_nearest_even_bounds. }
  assert (Hpow : 0 < 2 ^ (e1 - e)) by (apply Z.pow_pos_nonneg; lia).
  assert (Hq0 : 0 <= m / 2 ^ (e1 - e)) by (apply Z.div_pos; lia).
  assert (Hm2' : 0 <= m2) by lia.
  (* the mantissa after the first shift has at most 53 bits *)
  assert (Hq53 : m / 2 ^ (e1 - e) < 2 ^ 53).
  { apply Z.div_lt_upper_bound; [lia|].
    destruct (Z.eq_dec m 0) as [->|Hne]; [lia|].
    destruct (Zdigits2_bounds m ltac:(lia)) as [_ Hhi].
    eapply Z.lt_le_trans; [exact Hhi|].
    rewrite <- Z.pow_add_r by lia.
    apply Z.pow_le_mono_r; [lia|].
    subst e1. unfold fexp, Z.max, prec, emax, emin.
    destruct (Z.compare_spec (Zdigits2 m + e - 53) (3 - 1024 - 53)); lia. }
  assert (He1min : -1074 <= e1).
  { subst e1. unfold fexp, emin, prec, emax. lia. }
  destruct (shr_fexp_spec m2 e1 loc_Exact Hm2') as [Hm3 He3].
  destruct (shr_fexp prec emax m2 e1 loc_Exact) as [mrs'' e''] eqn:Hshr2.
  cbn [fst snd] in Hm3, He3.
  exists m2, (shr_m mrs''), e''.
  assert (Hcases : (m2 < 2 ^ 53 /\ Z.max 0 (fexp prec emax (Zdigits2 m2 + e1) - e1) = 0)
                   \/ (m2 = 2 ^ 53 /\ Z.max 0 (fexp prec emax (Zdigits2 m2 + e1) - e1) = 1)).
  { destruct (Z_lt_le_dec m2 (2 ^ 53)) as [Hlt|Hge].
    - left. split; [assumption|].
      pose proof (Zdigits2_le m2 53 ltac:(lia) (conj Hm2' Hlt)).
      unfold fexp, emin, prec, emax. lia.
    - right. assert (m2 = 2 ^ 53) by lia. split; [assumption|].
      assert (Hd2 : Zdigits2 m2 = 54) by (rewrite H; reflexivity).
      rewrite Hd2. unfold fexp, emin, prec, emax. lia. }
  assert (He3max : e'' <= 971).
  { assert (e1 <= 970); [|lia].
    subst e1. unfold fexp, emin, prec, emax. lia. }
  split; [exact Hm2|]. split; [reflexivity|]. split; [reflexivity|].
  destruct Hcases as [[Hlt Hn]|[Heq Hn]]; rewrite Hn in Hm3, He3.
  - change (2 ^ 0) with 1 in Hm3. rewrite Z.div_1_r in Hm3.
    replace (e'' - e1) with 0 by lia. rewrite Hm3.
    split; [lia|]. split; [cbn; lia|]. split; [lia|].
    destruct m2 as [|p|p]; try reflexivity.
    assert (Hle : (e'' <=? emax - prec) = true) by (apply Z.leb_le; unfold emax, prec; lia).
    rewrite Hle. reflexivity.
  - rewrite Heq in Hm3. change (2 ^ 53 / 2 ^ 1) with (2 ^ 52) in Hm3.
    replace (e'' - e1) with 1 by lia. rewrite Hm3.
    split; [lia|]. split; [rewrite Heq; reflexivity|]. split; [lia|].
    change (2 ^ 52) with (Z.pos 4503599627370496).
    cbv iota beta.
    assert (Hle : (e'' <=? emax - prec) = true) by (apply Z.leb_le; unfold emax, prec; lia).
    rewrite Hle. reflexivity.
Qed.

(** **** Values *)

Lemma Qpow2_pos (e : Z) : (0 < 2 ^ e)%Q.
Proof. apply Qpower_0_lt. reflexivity. Qed.

Lemma Qpow2_add (a b : Z) : (2 ^ (a + b) == 2 ^ a * 2 ^ b)%Q.
Proof. apply Qpower_plus. discriminate. Qed.

Lemma Qpow2_Z (k : Z) : 0 <= k -> (inject_Z (2 ^ k) == 2 ^ k)%Q.
Proof. intros Hk. apply (Zpower_Qpower 2 k Hk). Qed.

Lemma Qpow2_le (a b : Z) : a <= b -> (2 ^ a <= 2 ^ b)%Q.
Proof. intros H. apply Qpower_le_compat_l; [assumption | discriminate]. Qed.

Lemma Qpow2_lt_inv (a b : Z) : (2 ^ a < 2 ^ b)%Q -> a < b.
Proof.
  intros H. destruct (Z_lt_le_dec a b) as [|Hle]; [assumption|].
  apply Qpow2_le in Hle. lra.
Qed.

(** The value [binary_round_aux] returns: the mantissa kept by [shr_fexp],
    rounded, at an exponent whose unit is small against what is rounded. *)
Lemma binary_round_aux_value (s : bool) (m e : Z) (l : location) (x : Q) :
  0 <= m ->
  e <= fexp prec emax (Zdigits2 m + e) ->
  0 < m \/ e <= -1021 ->
  (inject_Z m * 2 ^ e <= x)%Q -> (x < inject_Z (m + 1) * 2 ^ e)%Q ->
  (x < 2 ^ 1023)%Q ->
  let r := binary_round_aux prec emax s m e l in
  let kept := (shr_fexp prec emax m e l).1 in
  let e1 := (shr_fexp prec emax m e l).2 in
  let v := (inject_Z (round_nearest_even (shr_m kept) (loc_of_shr_record kept))
            * 2 ^ e1)%Q in
  SFfinite r = true /\
  (SF2Q r == if s then - v else v)%Q /\ (0 <= v)%Q /\
  (2 ^ e1 <= 2 ^ (-52) * x + 2 ^ (-1074))%Q.
Proof.
  intros Hm He Hm0 Hlo Hhi Hmax r kept e1' v'.
  pose proof (Qpow2_pos e) as HP.
  assert (Hx0 : (0 <= x)%Q).
  { eapply Qle_trans; [|exact Hlo].
    apply Qmult_le_0_compat; [|lra].
    change 0%Q with (inject_Z 0). rewrite <- Zle_Qle. exact Hm. }
  assert (Hd : Zdigits2 m + e <= 1023).
  { destruct (Z.eq_dec m 0) as [->|Hne]; [cbn; lia|].
    destruct (Zdigits2_bounds m ltac:(lia)) as [Hdlo _].
    assert (H1 : (2 ^ (Zdigits2 m - 1) * 2 ^ e <= inject_Z m * 2 ^ e)%Q).
    { apply Qmult_le_compat_r; [|lra].
      rewrite <- Qpow2_Z by (pose proof (Zdigits2_ge m 0 ltac:(lia) ltac:(lia)); lia).
      rewrite <- Zle_Qle. exact Hdlo. }
    rewrite <- Qpow2_add in H1.
    assert (H2 : (2 ^ (Zdigits2 m - 1 + e) < 2 ^ 1023)%Q) by lra.
    apply Qpow2_lt_inv in H2. lia. }
  destruct (binary_round_aux_core s m e l Hm He Hd)
    as (m2 & m3 & e3 & Hm2 & Hm2eq & He1eq & Hm3 & Hm32 & He3 & Hr).
  fold r in Hr.
  subst v'. fold kept in Hm2eq. rewrite <- Hm2eq. clear Hm2eq.
  subst e1'. rewrite He1eq. clear He1eq. clearbody kept.
  set (e1 := fexp prec emax (Zdigits2 m + e)) in *.
  assert (Hpow : 0 < 2 ^ (e1 - e)) by (apply Z.pow_pos_nonneg; lia).
  set (q := m / 2 ^ (e1 - e)) in *.
  assert (Hq : q * 2 ^ (e1 - e) <= m /\ m + 1 <= (q + 1) * 2 ^ (e1 - e)).
  { pose proof (Z.mul_div_le m (2 ^ (e1 - e)) Hpow).
    pose proof (Z.mul_succ_div_gt m (2 ^ (e1 - e)) Hpow).
    fold q in H, H0. lia. }
  destruct Hq as [Hq1 Hq2].
  (* the value of the result *)
  set (v := (inject_Z m2 * 2 ^ e1)%Q).
  assert (Hv : (SF2Q r == if s then - v else v)%Q
               /\ SFfinite r = true).
  { assert (Hval : (inject_Z m3 * 2 ^ e3 == v)%Q).
    { unfold v. rewrite <- Hm32, inject_Z_mult, Qpow2_Z by lia.
      replace e3 with ((e3 - e1) + e1) at 1 by lia.
      rewrite Qpow2_add. ring. }
    rewrite Hr. destruct m3 as [|p|p]; [| |lia].
    - cbn [SF2Q SFfinite]. split; [|reflexivity].
      change (inject_Z 0) with 0%Q in Hval.
      destruct s; rewrite <- Hval; ring.
    - cbn [SF2Q SFfinite]. split; [|reflexivity].
      destruct s; rewrite <- Hval; reflexivity. }
  destruct Hv as [Hv Hfin].
  split; [exact Hfin|]. split; [exact Hv|].
  assert (HU : (0 < 2 ^ e1)%Q) by apply Qpow2_pos.
  assert (HUeq : (2 ^ e1 == inject_Z (2 ^ (e1 - e)) * 2 ^ e)%Q).
  { rewrite Qpow2_Z by lia. rewrite <- Qpow2_add. 
    replace (e1 - e + e) with e1 by lia. reflexivity. }
  assert (Hxlo : (inject_Z q * 2 ^ e1 <= x)%Q).
  { eapply Qle_trans; [|exact Hlo].
    rewrite HUeq, Qmult_assoc. apply Qmult_le_compat_r; [|lra].
    rewrite <- inject_Z_mult, <- Zle_Qle. exact Hq1. }
  assert (Hxhi : (x <= inject_Z (q + 1) * 2 ^ e1)%Q).
  { eapply Qle_trans; [apply Qlt_le_weak; exact Hhi|].
    rewrite HUeq, Qmult_assoc. apply Qmult_le_compat_r; [|lra].
    rewrite <- inject_Z_mult, <- Zle_Qle. exact Hq2. }
  assert (Hvlo : (inject_Z q * 2 ^ e1 <= v)%Q).
  { unfold v. apply Qmult_le_compat_r; [|lra]. rewrite <- Zle_Qle. lia. }
  assert (Hvhi : (v <= inject_Z (q + 1) * 2 ^ e1)%Q).
  { unfold v. apply Qmult_le_compat_r; [|lra]. rewrite <- Zle_Qle. lia. }
  assert (Hq0 : (0 <= inject_Z q)%Q).
  { change 0%Q with (inject_Z 0). rewrite <- Zle_Qle.
    apply Z.div_pos; lia. }
  rewrite inject_Z_plus in Hxhi, Hvhi. change (inject_Z 1) with 1%Q in Hxhi, Hvhi.
  assert (Hulp : (2 ^ e1 <= 2 ^ (-52) * x + 2 ^ (-1074))%Q).
  { pose proof (Qpow2_pos (-52)) as H52. pose proof (Qpow2_pos (-1074)) as Heta.
    destruct (Z.eq_dec e1 (-1074)) as [->|Hne].
    - assert ((0 <= 2 ^ (-52) * x)%Q) by (apply Qmult_le_0_compat; lra). lra.
    - assert (He1 : e1 = Zdigits2 m + e - 53).
      { subst e1. unfold fexp, emin, prec, emax in *. lia. }
      assert (m = 0 \/ 0 < m) as [Hz|Hpos] by lia.
      + exfalso. subst m. destruct Hm0 as [?|Hsmall]; [lia|].
        cbn in He1. subst e1. unfold fexp, emin, prec, emax in *. cbn in *. lia.
      + destruct (Zdigits2_bounds m Hpos) as [Hdlo _].
        assert (H1 : (2 ^ (Zdigits2 m - 1) * 2 ^ e <= inject_Z m * 2 ^ e)%Q).
        { apply Qmult_le_compat_r; [|lra].
          rewrite <- Qpow2_Z by (pose proof (Zdigits2_ge m 0 ltac:(lia) ltac:(lia)); lia).
          rewrite <- Zle_Qle. exact Hdlo. }
        rewrite <- Qpow2_add in H1.
        assert (H2 : (2 ^ e1 == 2 ^ (-52) * 2 ^ (Zdigits2 m - 1 + e))%Q).
        { rewrite <- Qpow2_add. rewrite He1.
          replace (-52 + (Zdigits2 m - 1 + e)) with (Zdigits2 m + e - 53) by lia.
          reflexivity. }
        rewrite H2.
        assert (H3 : (2 ^ (-52) * 2 ^ (Zdigits2 m - 1 + e) <= 2 ^ (-52) * x)%Q).
        { rewrite !(Qmult_comm (2 ^ (-52))). apply Qmult_le_compat_r; lra. }
        lra.
  }
  split; [|exact Hulp].
  eapply Qle_trans; [|exact Hvlo]. apply Qmult_le_0_compat; lra.
Qed.

(** One right shift keeps the location of the number that is rounded. *)
Lemma shr_1_inbetween (mrs : shr_record) (e : Z) (x : Q) :
  0 <= shr_m mrs ->
  inbetween (shr_m mrs) e (loc_of_shr_record mrs) x ->
  inbetween (shr_m (shr_1 mrs)) (e + 1) (loc_of_shr_record (shr_1 mrs)) x.
Proof.
  destruct mrs as [m r s]. cbn [shr_m]. intros Hm.
  pose proof (Qpow2_pos e) as HP.
  assert (HE : (2 ^ (e + 1) == 2 * 2 ^ e)%Q)
    by (rewrite Qpow2_add; change (2 ^ 1)%Q with 2%Q; ring).
  unfold inbetween.
  destruct m as [|[p|p|]|p]; [| | | |lia];
    destruct r, s; cbn [shr_1 shr_m loc_of_shr_record orb];
    rewrite ?HE;
    try (assert (HI : (inject_Z (Z.pos p~1) == 2 * inject_Z (Z.pos p) + 1)%Q)
           by (rewrite Pos2Z.inj_xI, inject_Z_plus, inject_Z_mult; reflexivity);
         rewrite HI);
    try (assert (HO : (inject_Z (Z.pos p~0) == 2 * inject_Z (Z.pos p))%Q)
           by (rewrite Pos2Z.inj_xO, inject_Z_mult; reflexivity);
         rewrite HO);
    change (inject_Z 1) with 1%Q; change (inject_Z 0) with 0%Q;
    intros H; first [ lra | split; lra ].
Qed.

Lemma iter_shr_1_nonneg (p : positive) :
  forall mrs, 0 <= shr_m mrs -> 0 <= shr_m (SpecFloat.iter_pos shr_1 p mrs).
Proof.
  intros mrs Hm. rewrite iter_shr_1_m by assumption.
  apply Z.div_pos; [assumption | apply Z.pow_pos_nonneg; lia].
Qed.

Lemma iter_shr_1_inbetween (p : positive) (x : Q) :
  forall (mrs : shr_record) (e : Z),
    0 <= shr_m mrs ->
    inbetween (shr_m mrs) e (loc_of_shr_record mrs) x ->
    inbetween (shr_m (SpecFloat.iter_pos shr_1 p mrs)) (e + Z.pos p)
      (loc_of_shr_record (SpecFloat.iter_pos shr_1 p mrs)) x.
Proof.
  induction p as [p IH | p IH |]; intros mrs e Hm H;
    cbn [SpecFloat.iter_pos].
  - replace (e + Z.pos p~1) with (e + 1 + Z.pos p + Z.pos p) by lia.
    apply IH; [apply iter_shr_1_nonneg, shr_1_nonneg, Hm|].
    apply IH; [apply shr_1_nonneg, Hm|].
    apply shr_1_inbetween; assumption.
  - replace (e + Z.pos p~0) with (e + Z.pos p + Z.pos p) by lia.
    apply IH; [apply iter_shr_1_nonneg, Hm|].
    apply IH; assumption.
  - apply shr_1_inbetween; assumption.
Qed.

Lemma loc_of_shr_record_of_loc (m : Z) (l : location) :
  loc_of_shr_record (shr_record_of_loc m l) = l.
Proof. destruct l as [|[]]; reflexivity. Qed.

(** [shr_fexp] keeps the location of the number that is rounded. *)
Lemma shr_fexp_inbetween (m e : Z) (l : location) (x : Q) :
  0 <= m -> inbetween m e l x ->
  let kept := (shr_fexp prec emax m e l).1 in
  inbetween (shr_m kept) (shr_fexp prec emax m e l).2
    (loc_of_shr_record kept) x.
Proof.
  intros Hm H. unfold shr_fexp, shr.
  destruct (fexp prec emax (Zdigits2 m + e) - e) as [|p|p]; cbn [fst snd].
  - rewrite shr_record_of_loc_m, loc_of_shr_record_of_loc. exact H.
  - apply iter_shr_1_inbetween.
    + rewrite shr_record_of_loc_m. exact Hm.
    + rewrite shr_record_of_loc_m, loc_of_shr_record_of_loc. exact H.
  - rewrite shr_record_of_loc_m, loc_of_shr_record_of_loc. exact H.
Qed.

(** Rounding to nearest moves by at most half a unit. *)
Lemma round_nearest_even_error (m e : Z) (l : location) (x : Q) :
  inbetween m e l x ->
  (- ((1 # 2) * 2 ^ e) <= inject_Z (round_nearest_even m l) * 2 ^ e - x)%Q
  /\ (inject_Z (round_nearest_even m l) * 2 ^ e - x <= (1 # 2) * 2 ^ e)%Q.
Proof.
  pose proof (Qpow2_pos e) as HP. unfold inbetween.
  destruct l as [|[]]; cbn [round_nearest_even].
  - intros H. split; lra.
  - destruct (Z.even m); intros H;
      rewrite ?inject_Z_plus; change (inject_Z 1) with 1%Q; split; lra.
  - intros [H1 H2]. split; lra.
  - intros [H1 H2]. rewrite inject_Z_plus. change (inject_Z 1) with 1%Q.
    split; lra.
Qed.

Lemma inbetween_bounds (m e : Z) (l : location) (x : Q) :
  inbetween m e l x ->
  (inject_Z m * 2 ^ e <= x)%Q /\ (x < inject_Z (m + 1) * 2 ^ e)%Q.
Proof.
  pose proof (Qpow2_pos e) as HP. unfold inbetween.
  rewrite inject_Z_plus. change (inject_Z 1) with 1%Q.
  destruct l as [|[]]; intros H; split; lra.
Qed.

(** The value [binary_round_aux] returns lies within half a unit in the
    last place of what it rounds. *)
Lemma binary_round_aux_error (s : bool) (m e : Z) (l : location) (x : Q) :
  0 <= m ->
  e <= fexp prec emax (Zdigits2 m + e) ->
  0 < m \/ e <= -1021 ->
  inbetween m e l x ->
  (x < 2 ^ 1023)%Q ->
  let r := binary_round_aux prec emax s m e l in
  SFfinite r = true /\
  exists v : Q,
    (SF2Q r == if s then - v else v)%Q /\ (0 <= v)%Q /\
    (- (2 ^ (-53) * x + 2 ^ (-1075)) <= v - x)%Q /\
    (v - x <= 2 ^ (-53) * x + 2 ^ (-1075))%Q.
Proof.
  intros Hm He Hm0 Hin Hmax r.
  destruct (inbetween_bounds m e l x Hin) as [Hlo Hhi].
  destruct (binary_round_aux_value s m e l x Hm He Hm0 Hlo Hhi Hmax)
    as (Hfin & Hv & Hv0 & Hulp).
  pose proof (shr_fexp_inbetween m e l x Hm Hin) as Hkept.
  cbv zeta in Hv, Hv0, Hulp, Hkept.
  destruct (round_nearest_even_error _ _ _ _ Hkept) as [Hr1 Hr2].
  split; [exact Hfin|]. eexists. split; [exact Hv|]. split; [exact Hv0|].
  assert (H53 : (2 ^ (-53) == (1 # 2) * 2 ^ (-52))%Q) by reflexivity.
  assert (H1075 : (2 ^ (-1075) == (1 # 2) * 2 ^ (-1074))%Q) by reflexivity.
  rewrite H53, H1075. split; lra.
Qed.

Lemma bounded_spec (m : positive) (e : Z) :
  bounded prec emax m e = true ->
  fexp prec emax (Z.pos (digits2_pos m) + e) = e /\ e <= 971.
Proof.
  unfold bounded, canonical_mantissa. intros H.
  apply andb_true_iff in H. destruct H as [H1 H2].
  apply Z.eqb_eq in H1. apply Z.leb_le in H2. unfold emax, prec in H2.
  split; [exact H1 | lia].
Qed.

Lemma SF2Q_finite_pos (m : positive) (e : Z) :
  (0 < inject_Z (Z.pos m) * 2 ^ e)%Q.
Proof.
  apply Qmult_lt_0_compat; [|apply Qpow2_pos].
  change 0%Q with (inject_Z 0). rewrite <- Zlt_Qlt. lia.
Qed.

Lemma Zdigits2_mul (mx my : positive) :
  Z.pos (digits2_pos mx) + Z.pos (digits2_pos my) - 1
  <= Z.pos (digits2_pos (mx * my)).
Proof.
  destruct (digits2_pos_bounds mx) as [Hx _].
  destruct (digits2_pos_bounds my) as [Hy _].
  pose proof (Zdigits2_ge (Z.pos (mx * my))
                (Z.pos (digits2_pos mx) - 1 + (Z.pos (digits2_pos my) - 1))
                ltac:(lia)) as H.
  cbn [Zdigits2] in H.
  rewrite Z.pow_add_r in H by lia.
  rewrite Pos2Z.inj_mul in H.
  assert (0 < 2 ^ (Z.pos (digits2_pos mx) - 1)) by (apply Z.pow_pos_nonneg; lia).
  assert (0 < 2 ^ (Z.pos (digits2_pos my) - 1)) by (apply Z.pow_pos_nonneg; lia).
  specialize (H ltac:(nia)). lia.
Qed.

(** *** Multiplication *)

Lemma SFmul_error (x y : spec_float) (a : Q) :
  valid_binary x = true -> valid_binary y = true ->
  SFfinite x = true -> SFfinite y = true ->
  (- a <= SF2Q x * SF2Q y)%Q -> (SF2Q x * SF2Q y <= a)%Q -> (a < 2 ^ 1023)%Q ->
  SFfinite (SFmul prec emax x y) = true /\
  (- (2 ^ (-53) * a + 2 ^ (-1075)) <= SF2Q (SFmul prec emax x y) - SF2Q x * SF2Q y)%Q /\
  (SF2Q (SFmul prec emax x y) - SF2Q x * SF2Q y <= 2 ^ (-53) * a + 2 ^ (-1075))%Q.
Proof.
  intros Vx Vy Fx Fy Hlo Hhi Hmax.
  pose proof (Qpow2_pos (-52)) as H52. pose proof (Qpow2_pos (-1074)) as Heta.
  assert (Ha : (0 <= a)%Q) by lra.
  assert (Hua : (0 <= 2 ^ (-53) * a)%Q) by (apply Qmult_le_0_compat; lra).
  destruct x as [sx|sx| |sx mx ex]; try discriminate;
    destruct y as [sy|sy| |sy my ey]; try discriminate;
    cbn [SFmul SF2Q SFfinite] in *.
  1-3: split; [reflexivity|]; split; lra.
  apply bounded_spec in Vx, Vy. destruct Vx as [Vx _], Vy as [Vy _].
  set (A := (inject_Z (Z.pos mx) * 2 ^ ex)%Q) in *.
  set (B := (inject_Z (Z.pos my) * 2 ^ ey)%Q) in *.
  pose proof (SF2Q_finite_pos mx ex) as HA. fold A in HA.
  pose proof (SF2Q_finite_pos my ey) as HB. fold B in HB.
  set (X := (inject_Z (Z.pos (mx * my)) * 2 ^ (ex + ey))%Q).
  assert (HX : (X == A * B)%Q).
  { unfold X, A, B. rewrite Pos2Z.inj_mul, inject_Z_mult, Qpow2_add. ring. }
  assert (HAB : (0 < A * B)%Q) by (apply Qmult_lt_0_compat; assumption).
  assert (HXa : (X <= a)%Q).
  { destruct sx, sy; lra. }
  destruct (binary_round_aux_error (xorb sx sy) (Z.pos (mx * my)) (ex + ey)
              loc_Exact X) as [Hfin (v & Hv & Hv0 & Hvlo & Hvhi)].
  - lia.
  - pose proof (Zdigits2_mul mx my) as Hd. cbn [Zdigits2].
    unfold fexp, emin, prec, emax in *. lia.
  - left. lia.
  - unfold inbetween, X. reflexivity.
  - lra.
  - split; [exact Hfin|].
    assert (HuX : (2 ^ (-53) * X <= 2 ^ (-53) * a)%Q).
    { rewrite !(Qmult_comm (2 ^ (-53))). apply Qmult_le_compat_r; lra. }
    rewrite Hv. destruct sx, sy; cbn [xorb]; split; lra.
Qed.

(** *** Division *)

Lemma inbetween_ext (m e : Z) (l : location) (x y : Q) :
  (x == y)%Q -> inbetween m e l x -> inbetween m e l y.
Proof.
  intros Hxy. unfold inbetween. destruct l as [|[]]; rewrite Hxy; exact id.
Qed.

(** The location [new_location] gives to a remainder of a division. *)
Lemma new_location_inbetween (q r : Z) (m2 : positive) (e : Z) :
  0 <= r < Z.pos m2 ->
  inbetween q e (new_location (Z.pos m2) r)
    ((inject_Z q + inject_Z r / inject_Z (Z.pos m2)) * 2 ^ e)%Q.
Proof.
  intros Hr. pose proof (Qpow2_pos e) as HP.
  assert (HM2 : (0 < inject_Z (Z.pos m2))%Q).
  { change 0%Q with (inject_Z 0). rewrite <- Zlt_Qlt. lia. }
  set (rho := (inject_Z r / inject_Z (Z.pos m2))%Q).
  assert (H1 : (rho < 1)%Q).
  { apply Qlt_shift_div_r; [exact HM2|]. rewrite Qmult_1_l.
    rewrite <- Zlt_Qlt. lia. }
  assert (Hlt : 2 * r < Z.pos m2 -> (rho < 1 # 2)%Q).
  { intros H. apply Qlt_shift_div_r; [exact HM2|].
    assert (H' : (inject_Z (2 * r) < inject_Z (Z.pos m2))%Q)
      by (rewrite <- Zlt_Qlt; exact H).
    rewrite inject_Z_mult in H'. change (inject_Z 2) with 2%Q in H'. lra. }
  assert (Hgt : Z.pos m2 < 2 * r -> (1 # 2 < rho)%Q).
  { intros H. apply Qlt_shift_div_l; [exact HM2|].
    assert (H' : (inject_Z (Z.pos m2) < inject_Z (2 * r))%Q)
      by (rewrite <- Zlt_Qlt; exact H).
    rewrite inject_Z_mult in H'. change (inject_Z 2) with 2%Q in H'. lra. }
  assert (Heq : 2 * r = Z.pos m2 -> (rho == 1 # 2)%Q).
  { intros H. unfold rho. rewrite <- H, inject_Z_mult.
    change (inject_Z 2) with 2%Q.
    assert (Hr0 : (0 < inject_Z r)%Q).
    { change 0%Q with (inject_Z 0). rewrite <- Zlt_Qlt. lia. }
    field. lra. }
  assert (H0 : r = 0 -> (rho == 0)%Q).
  { intros ->. unfold rho, Qdiv. change (inject_Z 0) with 0%Q. ring. }
  assert (Hpos : r <> 0 -> (0 < rho)%Q).
  { intros H. apply Qlt_shift_div_l; [exact HM2|]. rewrite Qmult_0_l.
    change 0%Q with (inject_Z 0). rewrite <- Zlt_Qlt. lia. }
  assert (Hscale : forall c : Q, (rho < c -> rho * 2 ^ e < c * 2 ^ e)%Q)
    by (intros c Hc; apply Qmult_lt_compat_r; assumption).
  assert (Hscale' : forall c : Q, (c < rho -> c * 2 ^ e < rho * 2 ^ e)%Q)
    by (intros c Hc; apply Qmult_lt_compat_r; assumption).
  clearbody rho.
  unfold new_location, new_location_even, new_location_odd.
  destruct (Z.even (Z.pos m2)) eqn:Hev;
    destruct (Z.eqb_spec r 0) as [Hr0|Hr0].
  - unfold inbetween. rewrite (H0 Hr0). ring.
  - destruct (Z.compare_spec (2 * r) (Z.pos m2)) as [Hc|Hc|Hc];
      unfold inbetween.
    + rewrite (Heq Hc). reflexivity.
    + specialize (Hscale _ (Hlt Hc)).
      specialize (Hscale' 0%Q (Hpos ltac:(lia))). split; lra.
    + specialize (Hscale' _ (Hgt Hc)). specialize (Hscale _ H1). split; lra.
  - unfold inbetween. rewrite (H0 Hr0). ring.
  - assert (Hodd : 2 * r <> Z.pos m2).
    { intros H. rewrite <- H, Z.even_mul in Hev. discriminate. }
    destruct (Z.compare_spec (2 * r + 1) (Z.pos m2)) as [Hc|Hc|Hc];
      unfold inbetween.
    + specialize (Hscale _ (Hlt ltac:(lia))).
      specialize (Hscale' 0%Q (Hpos ltac:(lia))). split; lra.
    + specialize (Hscale _ (Hlt ltac:(lia))).
      specialize (Hscale' 0%Q (Hpos ltac:(lia))). split; lra.
    + specialize (Hscale' _ (Hgt ltac:(lia))). specialize (Hscale _ H1).
      split; lra.
Qed.

Lemma SFdiv_core_spec (m1 : positive) (e1 : Z) (m2 : positive) (e2 : Z) :
  let '(q, e', l) := SFdiv_core_binary prec emax (Z.pos m1) e1 (Z.pos m2) e2 in
  let X := ((inject_Z (Z.pos m1) * 2 ^ e1) / (inject_Z (Z.pos m2) * 2 ^ e2))%Q in
  0 <= q /\ e' <= fexp prec emax (Zdigits2 q + e') /\ (0 < q \/ e' <= -1021)
  /\ inbetween q e' l X.
Proof.
  unfold SFdiv_core_binary. cbn [Zdigits2].
  set (d1 := Z.pos (digits2_pos m1)). set (d2 := Z.pos (digits2_pos m2)).
  set (e' := Z.min (fexp prec emax (d1 + e1 - (d2 + e2))) (e1 - e2)).
  set (s := e1 - e2 - e').
  assert (Hs : 0 <= s) by (subst s e'; lia).
  set (m' := match s with
             | 0 => Z.pos m1
             | Z.pos _ => Z.shiftl (Z.pos m1) s
             | Z.neg _ => 0
             end).
  assert (Hm' : m' = Z.pos m1 * 2 ^ s).
  { subst m'. destruct s as [|p|p] eqn:Hseq; [cbn; lia | | lia].
    rewrite Z.shiftl_mul_pow2 by lia. reflexivity. }
  clearbody m'.
  pose proof (Z_div_mod m' (Z.pos m2) ltac:(lia)) as Hdiv.
  destruct (Z.div_eucl m' (Z.pos m2)) as [q r]. destruct Hdiv as [Hqr Hr].
  cbv beta iota.
  set (X := ((inject_Z (Z.pos m1) * 2 ^ e1) / (inject_Z (Z.pos m2) * 2 ^ e2))%Q).
  assert (H2s : 0 < 2 ^ s) by (apply Z.pow_pos_nonneg; lia).
  assert (Hq0 : 0 <= q) by nia.
  split; [exact Hq0|].
  assert (Hdig : -1074 < e' -> 2 ^ 52 <= q).
  { intros He'.
    assert (Hs' : 53 - d1 + d2 <= s).
    { subst s e'. unfold fexp, emin, prec, emax in *. lia. }
    destruct (digits2_pos_bounds m1) as [Hlo1 _].
    destruct (digits2_pos_bounds m2) as [_ Hhi2].
    fold d1 in Hlo1. fold d2 in Hhi2.
    assert (Hd1 : 1 <= d1) by (subst d1; lia).
    assert (Hd2 : 1 <= d2) by (subst d2; lia).
    assert (H1 : 2 ^ (52 + d2) <= m').
    { rewrite Hm'.
      assert (2 ^ (52 + d2) <= 2 ^ (d1 - 1 + s))
        by (apply Z.pow_le_mono_r; lia).
      rewrite (Z.pow_add_r 2 (d1 - 1) s) in H by lia.
      assert (2 ^ (d1 - 1) * 2 ^ s <= Z.pos m1 * 2 ^ s)
        by (apply Z.mul_le_mono_nonneg_r; lia).
      lia. }
    rewrite Z.pow_add_r in H1 by lia.
    assert (0 < 2 ^ d2) by (apply Z.pow_pos_nonneg; lia).
    assert (Hp52 : 0 < 2 ^ 52) by (apply Z.pow_pos_nonneg; lia).
    destruct (Z_le_gt_dec (2 ^ 52) q) as [|Hgt]; [assumption|exfalso].
    assert (q + 1 <= 2 ^ 52) by lia.
    assert (m' < Z.pos m2 * (q + 1)) by lia.
    assert (Z.pos m2 * (q + 1) <= Z.pos m2 * 2 ^ 52) by nia.
    assert (Z.pos m2 * 2 ^ 52 < 2 ^ 52 * 2 ^ d2) by nia.
    lia. }
  split; [|split].
  - destruct (Z_le_gt_dec e' (-1074)) as [Hle|Hgt].
    + unfold fexp, emin, prec, emax. lia.
    + specialize (Hdig ltac:(lia)).
      pose proof (Zdigits2_ge q 52 ltac:(lia) Hdig).
      unfold fexp, emin, prec, emax. lia.
  - destruct (Z_le_gt_dec e' (-1074)) as [Hle|Hgt]; [right; lia|].
    specialize (Hdig ltac:(lia)). left.
    assert (0 < 2 ^ 52) by (apply Z.pow_pos_nonneg; lia). lia.
  - pose proof (Qpow2_pos e') as HP'. pose proof (Qpow2_pos e1) as HP1.
    pose proof (Qpow2_pos e2) as HP2.
    assert (HM2 : (0 < inject_Z (Z.pos m2))%Q).
    { change 0%Q with (inject_Z 0). rewrite <- Zlt_Qlt. lia. }
    assert (HX : (X == inject_Z m' / inject_Z (Z.pos m2) * 2 ^ e')%Q).
    { unfold X. rewrite Hm', inject_Z_mult, Qpow2_Z by lia.
      assert (He1 : (2 ^ e1 == 2 ^ s * 2 ^ e' * 2 ^ e2)%Q).
      { rewrite <- !Qpow2_add. replace (s + e' + e2) with e1 by (subst s; lia).
        reflexivity. }
      rewrite He1. field. split; lra. }
    apply (inbetween_ext _ _ _
             ((inject_Z q + inject_Z r / inject_Z (Z.pos m2)) * 2 ^ e')%Q);
      [|apply new_location_inbetween; lia].
    rewrite HX, Hqr, inject_Z_plus, inject_Z_mult. field. lra.
Qed.

Lemma SFdiv_error (x y : spec_float) (a : Q) :
  valid_binary x = true -> valid_binary y = true ->
  SFfinite x = true -> SFfinite y = true -> ~ (SF2Q y == 0)%Q ->
  (- a <= SF2Q x / SF2Q y)%Q -> (SF2Q x / SF2Q y <= a)%Q -> (a < 2 ^ 1023)%Q ->
  SFfinite (SFdiv prec emax x y) = true /\
  (- (2 ^ (-53) * a + 2 ^ (-1075)) <= SF2Q (SFdiv prec emax x y) - SF2Q x / SF2Q y)%Q /\
  (SF2Q (SFdiv prec emax x y) - SF2Q x / SF2Q y <= 2 ^ (-53) * a + 2 ^ (-1075))%Q.
Proof.
  intros Vx Vy Fx Fy Hy Hlo Hhi Hmax.
  pose proof (Qpow2_pos (-52)) as H52. pose proof (Qpow2_pos (-1074)) as Heta.
  assert (Ha : (0 <= a)%Q) by lra.
  assert (Hua : (0 <= 2 ^ (-53) * a)%Q) by (apply Qmult_le_0_compat; lra).
  destruct y as [sy|sy| |sy my ey]; try discriminate;
    [exfalso; apply Hy; reflexivity|].
  destruct x as [sx|sx| |sx mx ex]; try discriminate.
  - cbn [SFdiv SF2Q SFfinite] in *. split; [reflexivity|].
    assert (H0 : (0 / (if sy then - (inject_Z (Z.pos my) * 2 ^ ey)
                       else inject_Z (Z.pos my) * 2 ^ ey) == 0)%Q)
      by (unfold Qdiv; ring).
    rewrite H0. split; lra.
  - cbn [SFdiv].
    pose proof (SFdiv_core_spec mx ex my ey) as Hcore.
    destruct (SFdiv_core_binary prec emax (Z.pos mx) ex (Z.pos my) ey)
      as [[q e'] l].
    cbv zeta in Hcore. destruct Hcore as (Hq0 & He' & Hq & Hin).
    set (A := (inject_Z (Z.pos mx) * 2 ^ ex)%Q) in *.
    set (B := (inject_Z (Z.pos my) * 2 ^ ey)%Q) in *.
    pose proof (SF2Q_finite_pos mx ex) as HA. fold A in HA.
    pose proof (SF2Q_finite_pos my ey) as HB. fold B in HB.
    cbn [SF2Q] in Hlo, Hhi |- *. fold A B in Hlo, Hhi |- *.
    assert (HAB : (0 < A / B)%Q).
    { apply Qlt_shift_div_l; lra. }
    assert (Hquot : ((if sx then - A else A) / (if sy then - B else B)
                     == if xorb sx sy then - (A / B) else A / B)%Q).
    { destruct sx, sy; cbn [xorb]; field; lra. }
    rewrite Hquot in Hlo, Hhi |- *.
    assert (HXa : (A / B <= a)%Q) by (destruct (xorb sx sy); lra).
    destruct (binary_round_aux_error (xorb sx sy) q e' l (A / B)
                Hq0 He' Hq Hin ltac:(lra))
      as [Hfin (v & Hv & Hv0 & Hvlo & Hvhi)].
    split; [exact Hfin|].
    assert (HuX : (2 ^ (-53) * (A / B) <= 2 ^ (-53) * a)%Q).
    { rewrite !(Qmult_comm (2 ^ (-53))). apply Qmult_le_compat_r; lra. }
    rewrite Hv. destruct (xorb sx sy); split; lra.
Qed.

(** *** Addition and subtraction *)

Lemma iter_xO_spec (m d : positive) :
  Z.pos (Pos.iter xO m d) = Z.pos m * 2 ^ Z.pos d.
Proof.
  induction d as [|d IH] using Pos.peano_ind.
  - cbn. lia.
  - rewrite Pos.iter_succ, Pos2Z.inj_succ, Z.pow_succ_r by lia.
    rewrite Pos2Z.inj_xO, IH. lia.
Qed.

(** [shl_align] rewrites [m * 2^e] with an exponent no larger than [e']. *)
Lemma shl_align_spec (m : positive) (e e' : Z) :
  let k := Z.max 0 (e - e') in
  Z.pos (fst (shl_align m e e')) = Z.pos m * 2 ^ k
  /\ snd (shl_align m e e') = e - k.
Proof.
  unfold shl_align. destruct (e' - e) as [|p|p] eqn:Hd; cbn [fst snd].
  - replace (Z.max 0 (e - e')) with 0 by lia. cbn. lia.
  - replace (Z.max 0 (e - e')) with 0 by lia. cbn. lia.
  - replace (Z.max 0 (e - e')) with (Z.pos p) by lia.
    rewrite iter_xO_spec. lia.
Qed.

Lemma Zdigits2_shift (m : positive) (k : Z) :
  0 <= k -> Zdigits2 (Z.pos m * 2 ^ k) = Z.pos (digits2_pos m) + k.
Proof.
  intros Hk.
  destruct (digits2_pos_bounds m) as [Hlo Hhi].
  assert (H2k : 0 < 2 ^ k) by (apply Z.pow_pos_nonneg; lia).
  assert (H1 : Zdigits2 (Z.pos m * 2 ^ k) <= Z.pos (digits2_pos m) + k).
  { apply Zdigits2_le; [lia|]. rewrite Z.pow_add_r by lia. nia. }
  assert (H2 : Z.pos (digits2_pos m) - 1 + k + 1 <= Zdigits2 (Z.pos m * 2 ^ k)).
  { apply Zdigits2_ge; [lia|]. rewrite Z.pow_add_r by lia. nia. }
  lia.
Qed.

Lemma binary_round_error (s : bool) (m : positive) (e : Z) (a : Q) :
  (inject_Z (Z.pos m) * 2 ^ e <= a)%Q -> (a < 2 ^ 1023)%Q ->
  let r := binary_round prec emax s m e in
  let X := (inject_Z (Z.pos m) * 2 ^ e)%Q in
  SFfinite r = true /\
  exists v : Q,
    (SF2Q r == if s then - v else v)%Q /\
    (- (2 ^ (-53) * a + 2 ^ (-1075)) <= v - X)%Q /\
    (v - X <= 2 ^ (-53) * a + 2 ^ (-1075))%Q.
Proof.
  intros Ha Hmax r X. subst r. unfold binary_round.
  pose proof (shl_align_spec m e (fexp prec emax (Z.pos (digits2_pos m) + e)))
    as [Hmz Hez].
  destruct (shl_align m e (fexp prec emax (Z.pos (digits2_pos m) + e)))
    as [mz ez]. cbn [fst snd] in Hmz, Hez.
  set (k := Z.max 0 (e - fexp prec emax (Z.pos (digits2_pos m) + e))) in *.
  assert (Hk : 0 <= k) by (subst k; lia).
  assert (HX : (inject_Z (Z.pos mz) * 2 ^ ez == X)%Q).
  { assert (He : (2 ^ e == 2 ^ k * 2 ^ ez)%Q).
    { rewrite <- Qpow2_add. replace (k + ez) with e by lia. reflexivity. }
    unfold X. rewrite Hmz, inject_Z_mult, Qpow2_Z, He by lia. ring. }
  destruct (binary_round_aux_error s (Z.pos mz) ez loc_Exact X)
    as [Hfin (v & Hv & Hv0 & Hvlo & Hvhi)].
  - lia.
  - rewrite Hmz, Zdigits2_shift by lia.
    replace (Z.pos (digits2_pos m) + k + ez) with (Z.pos (digits2_pos m) + e)
      by lia.
    subst k. lia.
  - left. lia.
  - unfold inbetween. symmetry. exact HX.
  - fold X in Ha. lra.
  - split; [exact Hfin|]. exists v. split; [exact Hv|].
    pose proof (Qpow2_pos (-52)) as H52.
    assert (HuX : (2 ^ (-53) * X <= 2 ^ (-53) * a)%Q).
    { rewrite !(Qmult_comm (2 ^ (-53))). apply Qmult_le_compat_r; [exact Ha|lra]. }
    split; lra.
Qed.

Lemma binary_normalize_error (m e : Z) (a : Q) :
  (- a <= inject_Z m * 2 ^ e)%Q -> (inject_Z m * 2 ^ e <= a)%Q ->
  (a < 2 ^ 1023)%Q ->
  let r := binary_normalize prec emax m e false in
  SFfinite r = true /\
  (- (2 ^ (-53) * a + 2 ^ (-1075)) <= SF2Q r - inject_Z m * 2 ^ e)%Q /\
  (SF2Q r - inject_Z m * 2 ^ e <= 2 ^ (-53) * a + 2 ^ (-1075))%Q.
Proof.
  intros Hlo Hhi Hmax r. subst r.
  pose proof (Qpow2_pos (-52)) as H52. pose proof (Qpow2_pos (-1074)) as Heta.
  assert (Ha : (0 <= a)%Q) by lra.
  assert (Hua : (0 <= 2 ^ (-53) * a)%Q) by (apply Qmult_le_0_compat; lra).
  destruct m as [|p|p]; cbn [binary_normalize].
  - cbn [SF2Q SFfinite]. split; [reflexivity|].
    change (inject_Z 0) with 0%Q. split; lra.
  - destruct (binary_round_error false p e a Hhi Hmax)
      as [Hfin (v & Hv & Hvlo & Hvhi)].
    split; [exact Hfin|]. rewrite Hv. split; lra.
  - assert (Hneg : (inject_Z (Z.neg p) == - inject_Z (Z.pos p))%Q).
    { change (Z.neg p) with (- Z.pos p). rewrite inject_Z_opp. reflexivity. }
    rewrite Hneg in Hlo, Hhi |- *.
    destruct (binary_round_error true p e a ltac:(lra) Hmax)
      as [Hfin (v & Hv & Hvlo & Hvhi)].
    split; [exact Hfin|]. rewrite Hv. split; lra.
Qed.

(** The aligned mantissa of one operand of an addition. *)
Lemma aligned_value (s : bool) (m : positive) (e ez : Z) :
  ez <= e ->
  (inject_Z (cond_Zopp s (Z.pos (fst (shl_align m e ez)))) * 2 ^ ez
   == SF2Q (S754_finite s m e))%Q.
Proof.
  intros Hez.
  destruct (shl_align_spec m e ez) as [Hm _].
  rewrite Hm. replace (Z.max 0 (e - ez)) with (e - ez) by lia.
  cbn [SF2Q].
  assert (H : (inject_Z (Z.pos m * 2 ^ (e - ez)) * 2 ^ ez
               == inject_Z (Z.pos m) * 2 ^ e)%Q).
  { assert (He : (2 ^ e == 2 ^ (e - ez) * 2 ^ ez)%Q).
    { rewrite <- Qpow2_add. replace (e - ez + ez) with e by lia. reflexivity. }
    rewrite inject_Z_mult, Qpow2_Z, He by lia. ring. }
  destruct s; cbn [cond_Zopp].
  - rewrite inject_Z_opp. rewrite <- H. ring.
  - exact H.
Qed.

Lemma SF2Q_opp_sign (s : bool) (m : positive) (e : Z) :
  (SF2Q (S754_finite (negb s) m e) == - SF2Q (S754_finite s m e))%Q.
Proof. destruct s; cbn [SF2Q negb]; ring. Qed.

Lemma SFadd_error (x y : spec_float) (a : Q) :
  SFfinite x = true -> SFfinite y = true ->
  (- a <= SF2Q x + SF2Q y)%Q -> (SF2Q x + SF2Q y <= a)%Q -> (a < 2 ^ 1023)%Q ->
  SFfinite (SFadd prec emax x y) = true /\
  (- (2 ^ (-53) * a + 2 ^ (-1075)) <= SF2Q (SFadd prec emax x y) - (SF2Q x + SF2Q y))%Q /\
  (SF2Q (SFadd prec emax x y) - (SF2Q x + SF2Q y) <= 2 ^ (-53) * a + 2 ^ (-1075))%Q.
Proof.
  intros Fx Fy Hlo Hhi Hmax.
  pose proof (Qpow2_pos (-52)) as H52. pose proof (Qpow2_pos (-1074)) as Heta.
  assert (Ha : (0 <= a)%Q) by lra.
  assert (Hua : (0 <= 2 ^ (-53) * a)%Q) by (apply Qmult_le_0_compat; lra).
  destruct x as [sx|sx| |sx mx ex]; try discriminate;
    destruct y as [sy|sy| |sy my ey]; try discriminate.
  - cbn [SFadd]. destruct sx, sy; cbn [SF2Q SFfinite]; (split; [reflexivity|]); split; lra.
  - cbn [SFadd]. split; [reflexivity|]. cbn [SF2Q]. split; lra.
  - cbn [SFadd]. split; [reflexivity|]. cbn [SF2Q]. split; lra.
  - cbn [SFadd].
    set (ez := Z.min ex ey).
    pose proof (aligned_value sx mx ex ez ltac:(subst ez; lia)) as Hx.
    pose proof (aligned_value sy my ey ez ltac:(subst ez; lia)) as Hy.
    set (mz := cond_Zopp sx (Z.pos (fst (shl_align mx ex ez)))
               + cond_Zopp sy (Z.pos (fst (shl_align my ey ez)))) in *.
    assert (Hsum : (inject_Z mz * 2 ^ ez
                    == SF2Q (S754_finite sx mx ex) + SF2Q (S754_finite sy my ey))%Q).
    { unfold mz. rewrite inject_Z_plus, <- Hx, <- Hy. ring. }
    rewrite <- Hsum in Hlo, Hhi |- *.
    apply binary_normalize_error; assumption.
Qed.

Lemma SFsub_error (x y : spec_float) (a : Q) :
  SFfinite x = true -> SFfinite y = true ->
  (- a <= SF2Q x - SF2Q y)%Q -> (SF2Q x - SF2Q y <= a)%Q -> (a < 2 ^ 1023)%Q ->
  SFfinite (SFsub prec emax x y) = true /\
  (- (2 ^ (-53) * a + 2 ^ (-1075)) <= SF2Q (SFsub prec emax x y) - (SF2Q x - SF2Q y))%Q /\
  (SF2Q (SFsub prec emax x y) - (SF2Q x - SF2Q y) <= 2 ^ (-53) * a + 2 ^ (-1075))%Q.
Proof.
  intros Fx Fy Hlo Hhi Hmax.
  pose proof (Qpow2_pos (-52)) as H52. pose proof (Qpow2_pos (-1074)) as Heta.
  assert (Ha : (0 <= a)%Q) by lra.
  assert (Hua : (0 <= 2 ^ (-53) * a)%Q) by (apply Qmult_le_0_compat; lra).
  destruct x as [sx|sx| |sx mx ex]; try discriminate;
    destruct y as [sy|sy| |sy my ey]; try discriminate.
  - cbn [SFsub]. destruct sx, sy; cbn [SF2Q SFfinite]; (split; [reflexivity|]); split; lra.
  - cbn [SFsub]. split; [reflexivity|].
    rewrite SF2Q_opp_sign. cbn [SF2Q]. split; lra.
  - cbn [SFsub]. split; [reflexivity|]. cbn [SF2Q]. split; lra.
  - cbn [SFsub].
    set (ez := Z.min ex ey).
    pose proof (aligned_value sx mx ex ez ltac:(subst ez; lia)) as Hx.
    pose proof (aligned_value sy my ey ez ltac:(subst ez; lia)) as Hy.
    set (mz := cond_Zopp sx (Z.pos (fst (shl_align mx ex ez)))
               - cond_Zopp sy (Z.pos (fst (shl_align my ey ez)))) in *.
    assert (Hsum : (inject_Z mz * 2 ^ ez
                    == SF2Q (S754_finite sx mx ex) - SF2Q (S754_finite sy my ey))%Q).
    { unfold mz. unfold Z.sub. rewrite inject_Z_plus, inject_Z_opp, <- Hx, <- Hy. ring. }
    rewrite <- Hsum in Hlo, Hhi |- *.
    apply binary_normalize_error; assumption.
Qed.

(** *** Comparison *)

Lemma canonical_lt (m1 : positive) (e1 : Z) (m2 : positive) (e2 : Z) :
  bounded prec emax m1 e1 = true -> bounded prec emax m2 e2 = true ->
  e1 < e2 ->
  (inject_Z (Z.pos m1) * 2 ^ e1 < inject_Z (Z.pos m2) * 2 ^ e2)%Q.
Proof.
  intros V1 V2 He.
  apply bounded_spec in V1, V2. destruct V1 as [V1 _], V2 as [V2 _].
  destruct (digits2_pos_bounds m1) as [_ Hhi1].
  destruct (digits2_pos_bounds m2) as [Hlo2 _].
  assert (Hd1 : Z.pos (digits2_pos m1) <= 53)
    by (unfold fexp, emin, prec, emax in *; lia).
  assert (Hd2 : Z.pos (digits2_pos m2) = 53)
    by (unfold fexp, emin, prec, emax in *; lia).
  rewrite Hd2 in Hlo2. change (2 ^ (53 - 1)) with 4503599627370496 in Hlo2.
  assert (H53 : Z.pos m1 < 2 ^ 53).
  { eapply Z.lt_le_trans; [exact Hhi1|]. apply Z.pow_le_mono_r; lia. }
  change (2 ^ 53) with 9007199254740992 in H53.
  assert (He2 : (2 ^ e2 == 2 ^ (e2 - e1) * 2 ^ e1)%Q).
  { rewrite <- Qpow2_add. replace (e2 - e1 + e1) with e2 by lia. reflexivity. }
  rewrite He2, Qmult_assoc. apply Qmult_lt_compat_r; [apply Qpow2_pos|].
  rewrite <- Qpow2_Z, <- inject_Z_mult, <- Zlt_Qlt by lia.
  assert (2 ^ 1 <= 2 ^ (e2 - e1)) by (apply Z.pow_le_mono_r; lia).
  change (2 ^ 1) with 2 in H. nia.
Qed.

Lemma Qcompare_mult_r (a b c : Q) :
  (0 < c)%Q -> (a * c ?= b * c)%Q = (a ?= b)%Q.
Proof.
  intros Hc.
  destruct (Qcompare_spec a b) as [H|H|H].
  - apply (proj1 (Qeq_alt _ _)). rewrite H. reflexivity.
  - apply (proj1 (Qlt_alt _ _)). apply Qmult_lt_compat_r; assumption.
  - apply (proj1 (Qgt_alt _ _)). apply Qmult_lt_compat_r; assumption.
Qed.

Lemma Qcompare_opp (a b : Q) : (- a ?= - b)%Q = CompOpp (a ?= b)%Q.
Proof.
  destruct (Qcompare_spec a b) as [H|H|H]; cbn [CompOpp].
  - apply (proj1 (Qeq_alt _ _)). rewrite H. reflexivity.
  - apply (proj1 (Qgt_alt _ _)). lra.
  - apply (proj1 (Qlt_alt _ _)). lra.
Qed.

Lemma SFcompare_magnitude (m1 : positive) (e1 : Z) (m2 : positive) (e2 : Z) :
  bounded prec emax m1 e1 = true -> bounded prec emax m2 e2 = true ->
  match e1 ?= e2 with
  | Lt => Lt
  | Gt => Gt
  | Eq => Pos.compare_cont Eq m1 m2
  end = (inject_Z (Z.pos m1) * 2 ^ e1 ?= inject_Z (Z.pos m2) * 2 ^ e2)%Q.
Proof.
  intros V1 V2. symmetry.
  destruct (Z.compare_spec e1 e2) as [->|H|H].
  - rewrite Qcompare_mult_r by apply Qpow2_pos.
    unfold Qcompare, inject_Z. cbn [Qnum Qden]. rewrite !Z.mul_1_r. reflexivity.
  - apply (proj1 (Qlt_alt _ _)). apply canonical_lt; assumption.
  - apply (proj1 (Qgt_alt _ _)). apply canonical_lt; assumption.
Qed.

Lemma SFcompare_spec (x y : spec_float) :
  valid_binary x = true -> valid_binary y = true ->
  SFfinite x = true -> SFfinite y = true ->
  SFcompare x y = Some (SF2Q x ?= SF2Q y)%Q.
Proof.
  intros Vx Vy Fx Fy.
  destruct x as [sx|sx| |sx mx ex]; try discriminate;
    destruct y as [sy|sy| |sy my ey]; try discriminate;
    cbn [SFcompare SF2Q]; [reflexivity| | |]; f_equal; symmetry.
  - pose proof (SF2Q_finite_pos my ey).
    destruct sy; [apply (proj1 (Qgt_alt _ _)) | apply (proj1 (Qlt_alt _ _))]; lra.
  - pose proof (SF2Q_finite_pos mx ex).
    destruct sx; [apply (proj1 (Qlt_alt _ _)) | apply (proj1 (Qgt_alt _ _))]; lra.
  - pose proof (SF2Q_finite_pos mx ex). pose proof (SF2Q_finite_pos my ey).
    cbn [valid_binary] in Vx, Vy.
    destruct sx, sy.
    + rewrite Qcompare_opp, <- SFcompare_magnitude by assumption.
      destruct (ex ?= ey); reflexivity.
    + apply (proj1 (Qlt_alt _ _)). lra.
    + apply (proj1 (Qgt_alt _ _)). lra.
    + rewrite <- SFcompare_magnitude by assumption. reflexivity.
Qed.

(** *** The primitive operations *)

Lemma ltb_B2Q (x y : float) :
  is_finite x = true -> is_finite y = true ->
  (x <? y)%float = true <-> (B2Q x < B2Q y)%Q.
Proof.
  intros Fx Fy. rewrite FloatAxioms.ltb_spec. unfold SFltb, B2Q, is_finite in *.
  rewrite (SFcompare_spec _ _ (Prim2SF_valid x) (Prim2SF_valid y) Fx Fy).
  rewrite Qlt_alt.
  destruct (SF2Q (Prim2SF x) ?= SF2Q (Prim2SF y))%Q; split; congruence.
Qed.

Lemma leb_B2Q (x y : float) :
  is_finite x = true -> is_finite y = true ->
  (x <=? y)%float = true <-> (B2Q x <= B2Q y)%Q.
Proof.
  intros Fx Fy. rewrite FloatAxioms.leb_spec. unfold SFleb, B2Q, is_finite in *.
  rewrite (SFcompare_spec _ _ (Prim2SF_valid x) (Prim2SF_valid y) Fx Fy).
  rewrite Qle_alt.
  destruct (SF2Q (Prim2SF x) ?= SF2Q (Prim2SF y))%Q; split; congruence.
Qed.

Lemma ltb_false_B2Q (x y : float) :
  is_finite x = true -> is_finite y = true ->
  (x <? y)%float = false <-> (B2Q y <= B2Q x)%Q.
Proof.
  intros Fx Fy. pose proof (ltb_B2Q x y Fx Fy) as H.
  destruct (x <? y)%float; split; intros H'.
  - discriminate.
  - destruct H as [H _]. specialize (H eq_refl). lra.
  - destruct (Qlt_le_dec (B2Q x) (B2Q y)) as [Hlt|Hle]; [|exact Hle].
    apply H in Hlt. discriminate.
  - reflexivity.
Qed.

(** A double between two finite doubles is finite. *)
Lemma leb_between_finite (lo x hi : float) :
  is_finite lo = true -> is_finite hi = true ->
  (lo <=? x)%float = true -> (x <=? hi)%float = true ->
  is_finite x = true.
Proof.
  unfold is_finite. rewrite !FloatAxioms.leb_spec. unfold SFleb.
  destruct (Prim2SF x) as [s|s| |s m e]; intros Flo Fhi H1 H2;
    try reflexivity.
  - destruct (Prim2SF lo) as [?|?| |? ? ?]; try discriminate;
      destruct (Prim2SF hi) as [?|?| |? ? ?]; try discriminate;
      destruct s; cbn in H1, H2; discriminate.
  - destruct (Prim2SF lo) as [?|?| |? ? ?]; discriminate.
Qed.

Lemma mul_error (x y : float) (a : Q) :
  is_finite x = true -> is_finite y = true ->
  (- a <= B2Q x * B2Q y)%Q -> (B2Q x * B2Q y <= a)%Q -> (a < 2 ^ 1023)%Q ->
  is_finite (x * y) = true /\
  (- (2 ^ (-53) * a + 2 ^ (-1075)) <= B2Q (x * y) - B2Q x * B2Q y)%Q /\
  (B2Q (x * y) - B2Q x * B2Q y <= 2 ^ (-53) * a + 2 ^ (-1075))%Q.
Proof.
  unfold is_finite, B2Q. rewrite FloatAxioms.mul_spec.
  apply SFmul_error; apply Prim2SF_valid.
Qed.

Lemma div_error (x y : float) (a : Q) :
  is_finite x = true -> is_finite y = true -> ~ (B2Q y == 0)%Q ->
  (- a <= B2Q x / B2Q y)%Q -> (B2Q x / B2Q y <= a)%Q -> (a < 2 ^ 1023)%Q ->
  is_finite (x / y) = true /\
  (- (2 ^ (-53) * a + 2 ^ (-1075)) <= B2Q (x / y) - B2Q x / B2Q y)%Q /\
  (B2Q (x / y) - B2Q x / B2Q y <= 2 ^ (-53) * a + 2 ^ (-1075))%Q.
Proof.
  unfold is_finite, B2Q. rewrite FloatAxioms.div_spec.
  apply SFdiv_error; apply Prim2SF_valid.
Qed.

Lemma add_error (x y : float) (a : Q) :
  is_finite x = true -> is_finite y = true ->
  (- a <= B2Q x + B2Q y)%Q -> (B2Q x + B2Q y <= a)%Q -> (a < 2 ^ 1023)%Q ->
  is_finite (x + y) = true /\
  (- (2 ^ (-53) * a + 2 ^ (-1075)) <= B2Q (x + y) - (B2Q x + B2Q y))%Q /\
  (B2Q (x + y) - (B2Q x + B2Q y) <= 2 ^ (-53) * a + 2 ^ (-1075))%Q.
Proof.
  unfold is_finite, B2Q. rewrite FloatAxioms.add_spec. apply SFadd_error.
Qed.

Lemma sub_error (x y : float) (a : Q) :
  is_finite x = true -> is_finite y = true ->
  (- a <= B2Q x - B2Q y)%Q -> (B2Q x - B2Q y <= a)%Q -> (a < 2 ^ 1023)%Q ->
  is_finite (x - y) = true /\
  (- (2 ^ (-53) * a + 2 ^ (-1075)) <= B2Q (x - y) - (B2Q x - B2Q y))%Q /\
  (B2Q (x - y) - (B2Q x - B2Q y) <= 2 ^ (-53) * a + 2 ^ (-1075))%Q.
Proof.
  unfold is_finite, B2Q. rewrite FloatAxioms.sub_spec. apply SFsub_error.
Qed.

Lemma abs_B2Q (x : float) :
  is_finite (abs x) = is_finite x /\ (B2Q (abs x) == Qabs (B2Q x))%Q.
Proof.
  unfold is_finite, B2Q. rewrite FloatAxioms.abs_spec.
  destruct (Prim2SF x) as [s|s| |s m e]; cbn [SFabs SFfinite SF2Q];
    split; try reflexivity.
  pose proof (SF2Q_finite_pos m e) as H.
  destruct s.
  - rewrite Qabs_opp, Qabs_pos by lra. reflexivity.
  - rewrite Qabs_pos by lra. reflexivity.
Qed.

(** *** Truncation *)

Lemma Qfloor_unique (x : Q) (b : Z) :
  (inject_Z b <= x)%Q -> (x < inject_Z b + 1)%Q -> Qfloor x = b.
Proof.
  intros Hlo Hhi.
  pose proof (Qfloor_le x) as H1. pose proof (Qlt_floor x) as H2.
  rewrite inject_Z_plus in H2. change (inject_Z 1) with 1%Q in H2.
  assert (H3 : (inject_Z (Qfloor x) < inject_Z (b + 1))%Q)
    by (rewrite inject_Z_plus; change (inject_Z 1) with 1%Q; lra).
  assert (H4 : (inject_Z b < inject_Z (Qfloor x + 1))%Q)
    by (rewrite inject_Z_plus; change (inject_Z 1) with 1%Q; lra).
  rewrite <- Zlt_Qlt in H3, H4. lia.
Qed.

Lemma shiftl_Qfloor (m : positive) (e : Z) :
  Z.shiftl (Z.pos m) e = Qfloor (inject_Z (Z.pos m) * 2 ^ e).
Proof.
  destruct (Z_le_gt_dec 0 e) as [He|He].
  - rewrite Z.shiftl_mul_pow2 by lia.
    rewrite <- Qpow2_Z, <- inject_Z_mult by lia. symmetry. apply Qfloor_Z.
  - rewrite Z.shiftl_div_pow2 by lia. rewrite Zdiv_Qdiv.
    apply Qfloor_comp. unfold Qdiv.
    rewrite Qpow2_Z by lia. rewrite <- Qpower_opp.
    replace (- - e) with e by lia. reflexivity.
Qed.

(** *** Error bounds with numerals *)

Lemma unit_roundoff : (2 ^ (-53) == 1 # 9007199254740992)%Q.
Proof. reflexivity. Qed.

Lemma eta_small : (2 ^ (-1075) <= 1 # 1152921504606846976)%Q.
Proof. apply Qle_bool_imp_le. vm_compute. reflexivity. Qed.

Lemma eta_relative (r : Q) :
  (2 ^ (-1000) <= r)%Q -> (2 ^ (-1075) <= (1 # 1152921504606846976) * r)%Q.
Proof.
  intros Hr.
  assert (H : (2 ^ (-1075) <= (1 # 1152921504606846976) * 2 ^ (-1000))%Q)
    by (apply Qle_bool_imp_le; vm_compute; reflexivity).
  eapply Qle_trans; [exact H|].
  rewrite !(Qmult_comm (1 # 1152921504606846976)).
  apply Qmult_le_compat_r; [exact Hr | discriminate].
Qed.

Lemma no_overflow_abs (a : Q) : (a <= 1024)%Q -> (a < 2 ^ 1023)%Q.
Proof.
  intros H. eapply Qle_lt_trans; [exact H|].
  apply Qlt_alt. vm_compute. reflexivity.
Qed.

Lemma no_overflow_rel (c r : Q) :
  (0 <= c)%Q -> (c <= 2 ^ 50)%Q -> (0 <= r)%Q -> (r <= 2 ^ 960)%Q ->
  (c * r < 2 ^ 1023)%Q.
Proof.
  intros Hc0 Hc Hr0 Hr.
  assert (H1 : (c * r <= 2 ^ 50 * r)%Q) by (apply Qmult_le_compat_r; assumption).
  assert (H2 : (2 ^ 50 * r <= 2 ^ 50 * 2 ^ 960)%Q).
  { rewrite !(Qmult_comm (2 ^ 50)). apply Qmult_le_compat_r; [exact Hr|].
    apply Qlt_le_weak, Qpow2_pos. }
  assert (H3 : (2 ^ 50 * 2 ^ 960 < 2 ^ 1023)%Q)
    by (apply Qlt_alt; vm_compute; reflexivity).
  eapply Qle_lt_trans; [exact H1|]. eapply Qle_lt_trans; [exact H2|exact H3].
Qed.

(** An error bound of one rounding, for a result of magnitude at most [a]. *)
Lemma rounding_abs (v t a : Q) :
  (0 <= a)%Q ->
  (- (2 ^ (-53) * a + 2 ^ (-1075)) <= v - t)%Q ->
  (v - t <= 2 ^ (-53) * a + 2 ^ (-1075))%Q ->
  (- ((1 # 9007199254740992) * a + (1 # 1152921504606846976)) <= v - t)%Q /\
  (v - t <= (1 # 9007199254740992) * a + (1 # 1152921504606846976))%Q.
Proof.
  intros Ha Hlo Hhi. rewrite unit_roundoff in Hlo, Hhi.
  pose proof eta_small as He. revert Hlo Hhi He.
  generalize (2 ^ (-1075))%Q. intros eta Hlo Hhi He. split; lra.
Qed.

(** The same for a result of magnitude at most [c * r], relative to [r]. *)
Lemma rounding_rel (v t c r : Q) :
  (2 ^ (-1000) <= r)%Q ->
  (- (2 ^ (-53) * (c * r) + 2 ^ (-1075)) <= v - t)%Q ->
  (v - t <= 2 ^ (-53) * (c * r) + 2 ^ (-1075))%Q ->
  (- (((1 # 9007199254740992) * c + (1 # 1152921504606846976)) * r) <= v - t)%Q /\
  (v - t <= ((1 # 9007199254740992) * c + (1 # 1152921504606846976)) * r)%Q.
Proof.
  intros Hr Hlo Hhi. rewrite unit_roundoff in Hlo, Hhi.
  pose proof (eta_relative r Hr) as He. revert Hlo Hhi He.
  generalize (2 ^ (-1075))%Q. intros eta Hlo Hhi He. split; lra.
Qed.

Lemma scale_bounds (x lo hi r : Q) :
  (0 <= r)%Q -> (lo <= x)%Q -> (x <= hi)%Q ->
  (lo * r <= x * r)%Q /\ (x * r <= hi * r)%Q.
Proof.
  intros Hr Hlo Hhi. split; apply Qmult_le_compat_r; assumption.
Qed.

Lemma div_bounds (x lo hi r : Q) :
  (0 < r)%Q -> (lo * r <= x)%Q -> (x <= hi * r)%Q ->
  (lo <= x / r)%Q /\ (x / r <= hi)%Q.
Proof.
  intros Hr Hlo Hhi. split.
  - apply Qle_shift_div_l; assumption.
  - apply Qle_shift_div_r; assumption.
Qed.

(** *** Conversions *)

Lemma double_of_int_check :
  forallb (fun b => is_finite (double_of_int b)
                    && Qeq_bool (B2Q (double_of_int b)) (inject_Z b))
    (seqZ 0 256) = true.
Proof. vm_compute. reflexivity. Qed.

Lemma double_of_int_byte (b : Z) :
  0 <= b <= 255 ->
  is_finite (double_of_int b) = true
  /\ (B2Q (double_of_int b) == inject_Z b)%Q.
Proof.
  intros Hb. pose proof (all_bytes _ double_of_int_check b Hb) as H.
  cbv beta in H. apply andb_true_iff in H.
  destruct H as [H1 H2]. split; [exact H1|]. apply Qeq_bool_eq, H2.
Qed.

Lemma uchar_of_double_spec (y : float) (b : Z) :
  is_finite y = true -> 0 <= b <= 255 ->
  (inject_Z b <= B2Q y)%Q -> (B2Q y < inject_Z b + 1)%Q ->
  uchar_of_double y = b.
Proof.
  unfold is_finite, B2Q, uchar_of_double, trunc_double.
  intros Hfin Hb Hlo Hhi.
  destruct (Prim2SF y) as [s|s| |s m e]; try discriminate; cbn [SF2Q] in *.
  - assert (Hb0 : b = 0).
    { assert (H1 : (inject_Z b <= inject_Z 0)%Q) by exact Hlo.
      rewrite <- Zle_Qle in H1. lia. }
    subst b. reflexivity.
  - pose proof (SF2Q_finite_pos m e) as Hpos.
    assert (Hb0 : (0 <= inject_Z b)%Q).
    { change 0%Q with (inject_Z 0). rewrite <- Zle_Qle. lia. }
    destruct s; [lra|].
    rewrite shiftl_Qfloor, (Qfloor_unique _ b Hlo Hhi).
    unfold uchar_of_Z. apply Z.mod_small. lia.
Qed.

(** *** What the parameter test gives *)

Lemma abs_leb_finite (x k : float) :
  is_finite k = true -> (abs x <=? k)%float = true -> is_finite x = true.
Proof.
  unfold is_finite. rewrite FloatAxioms.leb_spec, FloatAxioms.abs_spec.
  unfold SFleb.
  destruct (Prim2SF x) as [s|s| |s m e]; intros Fk H; try reflexivity.
  - destruct (Prim2SF k) as [?|?| |? ? ?]; discriminate.
  - discriminate.
Qed.

Lemma moderate_parameters_spec (base range : float) :
  moderate_parameters base range = true ->
  is_finite base = true /\ is_finite range = true
  /\ (2 ^ (-1000) <= B2Q range)%Q /\ (B2Q range <= 2 ^ 960)%Q
  /\ (- (17592186044417 * B2Q range) <= B2Q base)%Q
  /\ (B2Q base <= 17592186044417 * B2Q range)%Q.
Proof.
  unfold moderate_parameters. intros H.
  apply andb_true_iff in H. destruct H as [H HB].
  apply andb_true_iff in H. destruct H as [Hlo Hhi].
  assert (Flo : is_finite 0x1p-1000 = true) by reflexivity.
  assert (Fhi : is_finite 0x1p+960 = true) by reflexivity.
  assert (FR : is_finite range = true)
    by (apply (leb_between_finite _ _ _ Flo Fhi Hlo Hhi)).
  apply (leb_B2Q _ _ Flo FR) in Hlo. apply (leb_B2Q _ _ FR Fhi) in Hhi.
  assert (Elo : (B2Q 0x1p-1000 == 2 ^ (-1000))%Q)
    by (apply Qeq_bool_eq; vm_compute; reflexivity).
  assert (Ehi : (B2Q 0x1p+960 == 2 ^ 960)%Q)
    by (apply Qeq_bool_eq; vm_compute; reflexivity).
  rewrite Elo in Hlo. rewrite Ehi in Hhi.
  assert (Hr0 : (0 < B2Q range)%Q).
  { eapply Qlt_le_trans; [apply (Qpow2_pos (-1000))|exact Hlo]. }
  assert (F44 : is_finite 0x1p+44 = true) by reflexivity.
  assert (E44 : (B2Q 0x1p+44 == 17592186044416)%Q)
    by (apply Qeq_bool_eq; vm_compute; reflexivity).
  destruct (mul_error 0x1p+44 range (17592186044416 * B2Q range) F44 FR)
    as (FK & HKlo & HKhi).
  { rewrite E44. lra. }
  { rewrite E44. lra. }
  { apply no_overflow_rel; lra. }
  rewrite E44 in HKlo, HKhi.
  destruct (rounding_rel _ _ _ _ Hlo HKlo HKhi) as [_ HK'].
  pose proof (abs_leb_finite base _ FK HB) as FB.
  destruct (abs_B2Q base) as [Fabs Eabs].
  rewrite <- Fabs in FB.
  apply (leb_B2Q _ _ FB FK) in HB. rewrite Eabs in HB.
  rewrite Fabs in FB.
  apply Qabs_Qle_condition in HB. destruct HB as [HB1 HB2].
  repeat split; try assumption; lra.
Qed.

(** *** The two mappings in binary64 *)

Lemma Qdiv_255 (x : Q) : (x / 255 == (1 # 255) * x)%Q.
Proof. unfold Qdiv. change (/ 255)%Q with (1 # 255)%Q. ring. Qed.

Lemma B2Q_255 : is_finite 255.0 = true /\ (B2Q 255.0 == 255)%Q.
Proof. split; [reflexivity|]. apply Qeq_bool_eq. vm_compute. reflexivity. Qed.

Lemma B2Q_half : is_finite 0.5 = true /\ (B2Q 0.5 == 1 # 2)%Q.
Proof. split; [reflexivity|]. apply Qeq_bool_eq. vm_compute. reflexivity. Qed.

(** The frequency [map_byte_to_frequency] computes for byte [b] differs from
    the exact [base + b / 255 * range] by less than [range / 511]. *)
Lemma encode_bounds (b : Z) (base range : float) :
  0 <= b <= 255 -> moderate_parameters base range = true ->
  let f := (base + double_of_int b / 255.0 * range)%float in
  is_finite f = true /\
  (- ((1 # 511) * B2Q range)
   <= B2Q f - (B2Q base + (1 # 255) * inject_Z b * B2Q range))%Q /\
  (B2Q f - (B2Q base + (1 # 255) * inject_Z b * B2Q range)
   <= (1 # 511) * B2Q range)%Q.
Proof.
  intros Hb Hmod f.
  destruct (moderate_parameters_spec _ _ Hmod)
    as (FB & FR & Hrlo & Hrhi & HBlo & HBhi).
  destruct (double_of_int_byte b Hb) as [Fi Ei].
  destruct B2Q_255 as [F255 E255].
  assert (Hr0 : (0 < B2Q range)%Q).
  { eapply Qlt_le_trans; [apply (Qpow2_pos (-1000))|exact Hrlo]. }
  assert (Hb0 : (0 <= inject_Z b)%Q).
  { change 0%Q with (inject_Z 0). rewrite <- Zle_Qle. lia. }
  assert (Hb255 : (inject_Z b <= 255)%Q).
  { change 255%Q with (inject_Z 255). rewrite <- Zle_Qle. lia. }
  (* normalized := (double)byte / 255.0 *)
  set (n := (double_of_int b / 255.0)%float) in *.
  destruct (div_error (double_of_int b) 255.0 1 Fi F255) as (Fn & Hn1 & Hn2).
  { rewrite E255. discriminate. }
  { rewrite Ei, E255, Qdiv_255. lra. }
  { rewrite Ei, E255, Qdiv_255. lra. }
  { apply no_overflow_abs. lra. }
  fold n in Fn, Hn1, Hn2. rewrite Ei, E255, Qdiv_255 in Hn1, Hn2.
  destruct (rounding_abs _ _ 1 ltac:(lra) Hn1 Hn2) as [Hn1' Hn2'].
  clear Hn1 Hn2.
  (* normalized * frequency_range *)
  set (p := (n * range)%float) in *.
  destruct (scale_bounds (B2Q n) (-2) 2 (B2Q range)) as [Hs1 Hs2]; try lra.
  destruct (mul_error n range (2 * B2Q range) Fn FR) as (Fp & Hp1 & Hp2);
    [lra|lra|lra|].
  fold p in Fp, Hp1, Hp2.
  destruct (rounding_rel _ _ _ _ Hrlo Hp1 Hp2) as [Hp1' Hp2'].
  clear Hp1 Hp2.
  destruct (scale_bounds (B2Q n - (1 # 255) * inject_Z b)
              (- ((1 # 9007199254740992) * 1 + (1 # 1152921504606846976)))
              ((1 # 9007199254740992) * 1 + (1 # 1152921504606846976))
              (B2Q range)) as [Hs3 Hs4]; try lra.
  destruct (scale_bounds (inject_Z b) 0 255 (B2Q range)) as [Hs5 Hs6];
    try lra.
  (* base_frequency + ... *)
  destruct (add_error base p (17592186044420 * B2Q range) FB Fp)
    as (Ff & Hf1 & Hf2); [lra|lra|lra|].
  fold f in Ff, Hf1, Hf2.
  destruct (rounding_rel _ _ _ _ Hrlo Hf1 Hf2) as [Hf1' Hf2'].
  clear Hf1 Hf2.
  split; [exact Ff|]. split; lra.
Qed.

(** The value the inverse mapping truncates differs from the exact
    [scaled position + 1/2] by less than 2^-40. *)
Lemma decode_bounds (f base range : float) :
  moderate_parameters base range = true ->
  is_finite f = true ->
  (B2Q base <= B2Q f)%Q ->
  (B2Q f <= B2Q base + (512 # 511) * B2Q range)%Q ->
  let y := ((f - base) / range * 255.0 + 0.5)%float in
  let x := ((B2Q f - B2Q base) / B2Q range * 255)%Q in
  is_finite y = true /\
  (- (1 # 1099511627776) <= B2Q y - (x + (1 # 2)))%Q /\
  (B2Q y - (x + (1 # 2)) <= 1 # 1099511627776)%Q.
Proof.
  intros Hmod Ff Hflo Hfhi y x.
  destruct (moderate_parameters_spec _ _ Hmod)
    as (FB & FR & Hrlo & Hrhi & HBlo & HBhi).
  destruct B2Q_255 as [F255 E255]. destruct B2Q_half as [Fh Eh].
  assert (Hr0 : (0 < B2Q range)%Q).
  { eapply Qlt_le_trans; [apply (Qpow2_pos (-1000))|exact Hrlo]. }
  (* frequency - base_frequency *)
  set (d := (f - base)%float) in *.
  destruct (sub_error f base (2 * B2Q range) Ff FB) as (Fd & Hd1 & Hd2);
    [lra|lra|lra|].
  fold d in Fd, Hd1, Hd2.
  destruct (rounding_rel _ _ _ _ Hrlo Hd1 Hd2) as [Hd1' Hd2'].
  clear Hd1 Hd2.
  (* the exact normalized position *)
  set (t := ((B2Q f - B2Q base) / B2Q range)%Q) in *.
  destruct (div_bounds (B2Q f - B2Q base) 0 (512 # 511) (B2Q range) Hr0)
    as [Ht1 Ht2]; try lra.
  fold t in Ht1, Ht2.
  assert (Hdt : (B2Q d / B2Q range - t
                 == (B2Q d - (B2Q f - B2Q base)) / B2Q range)%Q).
  { unfold t. field. lra. }
  destruct (div_bounds (B2Q d - (B2Q f - B2Q base))
              (- ((1 # 9007199254740992) * 2 + (1 # 1152921504606846976)))
              ((1 # 9007199254740992) * 2 + (1 # 1152921504606846976))
              (B2Q range) Hr0) as [Hd3 Hd4]; try lra.
  rewrite <- Hdt in Hd3, Hd4.
  (* ... / frequency_range *)
  set (q := (d / range)%float) in *.
  destruct (div_error d range 2 Fd FR) as (Fq & Hq1 & Hq2);
    [lra|lra|lra|lra|].
  fold q in Fq, Hq1, Hq2.
  destruct (rounding_abs _ _ 2 ltac:(lra) Hq1 Hq2) as [Hq1' Hq2'].
  clear Hq1 Hq2.
  (* normalized * 255.0 *)
  set (z := (q * 255.0)%float) in *.
  destruct (mul_error q 255.0 512 Fq F255) as (Fz & Hz1 & Hz2);
    [rewrite E255; lra|rewrite E255; lra|lra|].
  fold z in Fz, Hz1, Hz2. rewrite E255 in Hz1, Hz2.
  destruct (rounding_abs _ _ 512 ltac:(lra) Hz1 Hz2) as [Hz1' Hz2'].
  clear Hz1 Hz2.
  (* ... + 0.5 *)
  destruct (add_error z 0.5 512 Fz Fh) as (Fy & Hy1 & Hy2);
    [rewrite Eh; lra|rewrite Eh; lra|lra|].
  fold y in Fy, Hy1, Hy2. rewrite Eh in Hy1, Hy2.
  destruct (rounding_abs _ _ 512 ltac:(lra) Hy1 Hy2) as [Hy1' Hy2'].
  clear Hy1 Hy2.
  split; [exact Fy|]. unfold x. fold t. split; lra.
Qed.

(** The upper end of the band, [base + range] as the code computes it. *)
Lemma band_top_bounds (base range : float) :
  moderate_parameters base range = true ->
  is_finite (base + range) = true /\
  (B2Q base + (510 # 511) * B2Q range <= B2Q (base + range))%Q /\
  (B2Q (base + range) <= B2Q base + (512 # 511) * B2Q range)%Q.
Proof.
  intros Hmod.
  destruct (moderate_parameters_spec _ _ Hmod)
    as (FB & FR & Hrlo & Hrhi & HBlo & HBhi).
  assert (Hr0 : (0 < B2Q range)%Q).
  { eapply Qlt_le_trans; [apply (Qpow2_pos (-1000))|exact Hrlo]. }
  destruct (add_error base range (17592186044420 * B2Q range) FB FR)
    as (Fg & Hg1 & Hg2); [lra|lra|lra|].
  destruct (rounding_rel _ _ _ _ Hrlo Hg1 Hg2) as [Hg1' Hg2'].
  split; [exact Fg|]. split; lra.
Qed.

Lemma round_trip (b : Z) (base range : float) :
  0 <= b <= 255 -> moderate_parameters base range = true ->
  forall enc dec,
    Sonar.base_frequency enc = base -> Sonar.frequency_range enc = range ->
    base_frequency dec = base -> frequency_range dec = range ->
    frequency_to_byte (Sonar.map_byte_to_frequency b enc) dec = b.
Proof.
  intros Hb Hmod enc dec E1 E2 D1 D2.
  unfold frequency_to_byte, Sonar.map_byte_to_frequency.
  rewrite E1, E2, D1, D2.
  destruct (moderate_parameters_spec _ _ Hmod)
    as (FB & FR & Hrlo & Hrhi & HBlo & HBhi).
  assert (Hr0 : (0 < B2Q range)%Q).
  { eapply Qlt_le_trans; [apply (Qpow2_pos (-1000))|exact Hrlo]. }
  destruct (encode_bounds b base range Hb Hmod) as (Ff & Hf1 & Hf2).
  destruct (band_top_bounds base range Hmod) as (Fg & Hg1 & Hg2).
  set (f := (base + double_of_int b / 255.0 * range)%float) in *.
  assert (Hb0 : (0 <= inject_Z b)%Q).
  { change 0%Q with (inject_Z 0). rewrite <- Zle_Qle. lia. }
  assert (Hb255 : (inject_Z b <= 255)%Q).
  { change 255%Q with (inject_Z 255). rewrite <- Zle_Qle. lia. }
  destruct (scale_bounds (inject_Z b) 0 255 (B2Q range)) as [Hs1 Hs2];
    [lra|lra|lra|].
  destruct (f <? base)%float eqn:Hlow.
  - (* below the band: only byte 0 can land there *)
    apply (ltb_B2Q _ _ Ff FB) in Hlow.
    destruct (Z.eq_dec b 0) as [->|Hne]; [reflexivity|exfalso].
    assert (H1 : (1 <= inject_Z b)%Q).
    { change 1%Q with (inject_Z 1). rewrite <- Zle_Qle. lia. }
    destruct (scale_bounds (inject_Z b) 1 255 (B2Q range)) as [Hs3 _];
      [lra|lra|lra|].
    lra.
  - apply (ltb_false_B2Q _ _ Ff FB) in Hlow.
    destruct (base + range <? f)%float eqn:Hhigh.
    + (* above the band: only byte 255 can land there *)
      apply (ltb_B2Q _ _ Fg Ff) in Hhigh.
      destruct (Z.eq_dec b 255) as [->|Hne]; [reflexivity|exfalso].
      assert (H1 : (inject_Z b <= 254)%Q).
      { change 254%Q with (inject_Z 254). rewrite <- Zle_Qle. lia. }
      destruct (scale_bounds (inject_Z b) 0 254 (B2Q range)) as [_ Hs3];
        [lra|lra|lra|].
      lra.
    + destruct (decode_bounds f base range Hmod Ff Hlow) as (Fy & Hy1 & Hy2);
        [lra|].
      set (t := ((B2Q f - B2Q base) / B2Q range)%Q) in *.
      destruct (div_bounds (B2Q f - B2Q base)
                  ((1 # 255) * inject_Z b - (1 # 511))
                  ((1 # 255) * inject_Z b + (1 # 511))
                  (B2Q range) Hr0) as [Ht1 Ht2]; [lra|lra|].
      fold t in Ht1, Ht2.
      apply uchar_of_double_spec; [exact Fy | exact Hb | lra | lra].
Qed.

(** In the band the byte returned is within 1/2 + 2^-40 of the exact scaled
    position. *)
Lemma decode_nearest (f : float) (config : dsonar_config_t) :
  moderate_parameters (base_frequency config) (frequency_range config) = true ->
  (base_frequency config <=? f)%float = true ->
  (f <=? base_frequency config + frequency_range config)%float = true ->
  let r := frequency_to_byte f config in
  let x := scaled_position f config in
  0 <= r <= 255 /\
  (x - (1 # 2) - (1 # 1099511627776) < inject_Z r)%Q /\
  (inject_Z r <= x + (1 # 2) + (1 # 1099511627776))%Q.
Proof.
  intros Hmod Hlo Hhi r x.
  destruct (moderate_parameters_spec _ _ Hmod)
    as (FB & FR & Hrlo & Hrhi & HBlo & HBhi).
  assert (Hr0 : (0 < B2Q (frequency_range config))%Q).
  { eapply Qlt_le_trans; [apply (Qpow2_pos (-1000))|exact Hrlo]. }
  destruct (band_top_bounds _ _ Hmod) as (Fg & Hg1 & Hg2).
  assert (Ff : is_finite f = true)
    by (apply (leb_between_finite _ _ _ FB Fg Hlo Hhi)).
  apply (leb_B2Q _ _ FB Ff) in Hlo. apply (leb_B2Q _ _ Ff Fg) in Hhi.
  destruct (decode_bounds f _ _ Hmod Ff Hlo) as (Fy & Hy1 & Hy2); [lra|].
  fold (scaled_position f config) in Hy1, Hy2. fold x in Hy1, Hy2.
  assert (Hx : (0 <= x)%Q /\ (x <= 255 * (512 # 511))%Q).
  { unfold x, scaled_position.
    destruct (div_bounds (B2Q f - B2Q (base_frequency config)) 0 (512 # 511)
                (B2Q (frequency_range config)) Hr0) as [Ht1 Ht2]; [lra|lra|].
    split; lra. }
  destruct Hx as [Hx0 Hx1].
  assert (Hr : r = uchar_of_double
                     ((f - base_frequency config) / frequency_range config
                      * 255.0 + 0.5)%float).
  { unfold r, frequency_to_byte.
    assert (H1 : (f <? base_frequency config)%float = false)
      by (apply (ltb_false_B2Q _ _ Ff FB); exact Hlo).
    assert (H2 : (base_frequency config + frequency_range config <? f)%float
                 = false)
      by (apply (ltb_false_B2Q _ _ Fg Ff); exact Hhi).
    rewrite H1, H2. reflexivity. }
  set (y := ((f - base_frequency config) / frequency_range config
             * 255.0 + 0.5)%float) in *.
  pose proof (Qfloor_le (B2Q y)) as Hk1. pose proof (Qlt_floor (B2Q y)) as Hk2.
  rewrite inject_Z_plus in Hk2. change (inject_Z 1) with 1%Q in Hk2.
  set (k := Qfloor (B2Q y)) in *.
  assert (Hk : 0 <= k <= 255).
  { assert (H1 : (inject_Z (-1) < inject_Z k)%Q)
      by (change (inject_Z (-1)) with (-1 # 1)%Q; lra).
    assert (H2 : (inject_Z k < inject_Z 256)%Q)
      by (change (inject_Z 256) with 256%Q; lra).
    rewrite <- Zlt_Qlt in H1, H2. lia. }
  assert (Hrk : r = k).
  { rewrite Hr. apply uchar_of_double_spec; [exact Fy | exact Hk | lra | lra]. }
  rewrite Hrk. split; [exact Hk|]. split; lra.
Qed.

(** Above the band the test on the base cannot succeed. *)
Lemma above_band (f : float) (config : dsonar_config_t) :
  moderate_parameters (base_frequency config) (frequency_range config) = true ->
  (base_frequency config + frequency_range config <? f)%float = true ->
  frequency_to_byte f config = 255.
Proof.
  intros Hmod Hhigh.
  destruct (moderate_parameters_spec _ _ Hmod)
    as (FB & FR & Hrlo & Hrhi & HBlo & HBhi).
  assert (Hr0 : (0 < B2Q (frequency_range config))%Q).
  { eapply Qlt_le_trans; [apply (Qpow2_pos (-1000))|exact Hrlo]. }
  destruct (band_top_bounds _ _ Hmod) as (Fg & Hg1 & Hg2).
  unfold frequency_to_byte. rewrite Hhigh.
  assert (Hlow : (f <? base_frequency config)%float = false); [|rewrite Hlow; reflexivity].
  destruct (is_finite f) eqn:Ff.
  - apply (ltb_false_B2Q _ _ Ff FB).
    apply (ltb_B2Q _ _ Fg Ff) in Hhigh. lra.
  - revert Hhigh Ff FB Fg. unfold is_finite.
    rewrite !FloatAxioms.ltb_spec. unfold SFltb.
    destruct (Prim2SF f) as [s|s| |s m e]; try discriminate.
    + destruct (Prim2SF (base_frequency config + frequency_range config))
        as [?|?| |? ? ?]; try discriminate;
        destruct (Prim2SF (base_frequency config)) as [?|?| |? ? ?];
        try discriminate; destruct s; cbn; congruence.
    + destruct (Prim2SF (base_frequency config + frequency_range config))
        as [?|?| |? ? ?]; discriminate.
Qed.


(** *** C1 and C9 *)

(** C1, as stated, fails on the code: for the matching parameter pair
    (base 1e20, range 1.0 > 0) byte 255 is encoded to the frequency 1e20 and
    decoded to 0. *)
Lemma C1_counterexample :
  ~ (forall (b : Z) (enc : Sonar.sonar_config_t) (dec : dsonar_config_t),
        0 <= b <= 255 ->
        Sonar.base_frequency enc = base_frequency dec ->
        Sonar.frequency_range enc = frequency_range dec ->
        (0 <? frequency_range dec)%float = true ->
        frequency_to_byte (Sonar.map_byte_to_frequency b enc) dec = b).
Proof.
  intros H.
  specialize (H 255 huge_base_encoder huge_base_decoder).
  assert (Hfalse : frequency_to_byte
            (Sonar.map_byte_to_frequency 255 huge_base_encoder)
            huge_base_decoder = 0) by (vm_compute; reflexivity).
  rewrite H in Hfalse; [discriminate | lia | reflexivity | reflexivity |].
  vm_compute. reflexivity.
Qed.

(** The bound on the base cannot be raised by 0.6 percent: with the base
    2^53 and the range 509, where 2^53 < 1.006 * 2^44 * 509, byte 255 comes
    back as 254. *)
Lemma round_trip_fails_at_wide_base :
  moderate_parameters (base_frequency wide_base_decoder)
    (frequency_range wide_base_decoder) = false
  /\ (B2Q (base_frequency wide_base_decoder)
      < (1006 # 1000) * 2 ^ 44 * B2Q (frequency_range wide_base_decoder))%Q
  /\ frequency_to_byte (Sonar.map_byte_to_frequency 255 wide_base_encoder)
       wide_base_decoder = 254.
Proof.
  split; [vm_compute; reflexivity|].
  split; [|vm_compute; reflexivity].
  apply (proj1 (Qlt_alt _ _)). vm_compute. reflexivity.
Qed.

(** C1, amended: in the code's binary64 arithmetic, decoding the frequency
    produced by encoding [b] returns [b] for every byte [b] in 0..255 and
    every matching parameter pair whose range lies between 2^-1000 and 2^960
    and whose base is at most 2^44 times the range in magnitude. *)
Theorem C1_round_trip :
  forall (b : Z) (enc : Sonar.sonar_config_t) (dec : dsonar_config_t),
    0 <= b <= 255 ->
    Sonar.base_frequency enc = base_frequency dec ->
    Sonar.frequency_range enc = frequency_range dec ->
    moderate_parameters (base_frequency dec) (frequency_range dec) = true ->
    frequency_to_byte (Sonar.map_byte_to_frequency b enc) dec = b.
Proof.
  intros b enc dec Hb Hbase Hrange Hmod.
  apply (round_trip b _ _ Hb Hmod); auto.
Qed.

Lemma C1_round_trip_witness :
  frequency_to_byte (Sonar.map_byte_to_frequency 65 Sonar.default_config)
    default_dsonar_config = 65.
Proof.
  apply C1_round_trip;
    [lia | reflexivity | reflexivity | vm_compute; reflexivity].
Defined.

(** C9, as stated, fails on the code: with the default parameters the
    frequency 310.19607843137254 lies in the band at the exact scaled
    position 11.5 - 7/7036874417766400, whose nearest integer is 11, and
    [frequency_to_byte] returns 12. *)
Lemma C9_counterexample :
  ~ (forall (f : float) (config : dsonar_config_t),
        (f <? base_frequency config)%float = false ->
        (base_frequency config + frequency_range config <? f)%float = false ->
        let x := scaled_position f config in
        (x - (1 # 2) <= inject_Z (frequency_to_byte f config))%Q
        /\ (inject_Z (frequency_to_byte f config) <= x + (1 # 2))%Q).
Proof.
  intros H.
  destruct (H 310.19607843137254%float default_dsonar_config) as [_ Hhi];
    [vm_compute; reflexivity | vm_compute; reflexivity |].
  apply Qle_bool_iff in Hhi. vm_compute in Hhi. discriminate.
Qed.

(** The two tests are made in order: with a negative range a frequency can
    be below the base and above base + range, and the result is then 0. *)
Lemma clamp_order_example :
  (150.0 <? base_frequency negative_range_config)%float = true
  /\ (base_frequency negative_range_config
      + frequency_range negative_range_config <? 150.0)%float = true
  /\ frequency_to_byte 150.0 negative_range_config = 0.
Proof. vm_compute. repeat split; reflexivity. Qed.

(** C9, amended: [frequency_to_byte] returns 0 when f < base; otherwise it
    returns 255 when f > base + range, the sum being the one binary64
    computes; for parameters whose range lies between 2^-1000 and 2^960 and
    whose base is at most 2^44 times the range in magnitude the second test
    alone decides, and for every f with base <= f <= base + range the result
    is a byte within 1/2 + 2^-40 of the exact scaled position
    (f - base) / range * 255: the integer nearest to it, or, where the
    position is within 2^-40 of the middle between two integers, one of
    these two. *)
Theorem C9_decode_clamps :
  (forall (f : float) (config : dsonar_config_t),
      (f <? base_frequency config)%float = true ->
      frequency_to_byte f config = 0)
  /\
  (forall (f : float) (config : dsonar_config_t),
      (f <? base_frequency config)%float = false ->
      (base_frequency config + frequency_range config <? f)%float = true ->
      frequency_to_byte f config = 255)
  /\
  (forall (f : float) (config : dsonar_config_t),
      moderate_parameters (base_frequency config) (frequency_range config)
      = true ->
      (base_frequency config + frequency_range config <? f)%float = true ->
      frequency_to_byte f config = 255)
  /\
  (forall (f : float) (config : dsonar_config_t),
      moderate_parameters (base_frequency config) (frequency_range config)
      = true ->
      (base_frequency config <=? f)%float = true ->
      (f <=? base_frequency config + frequency_range config)%float = true ->
      let r := frequency_to_byte f config in
      let x := scaled_position f config in
      0 <= r <= 255 /\
      (x - (1 # 2) - (1 # 1099511627776) < inject_Z r)%Q /\
      (inject_Z r <= x + (1 # 2) + (1 # 1099511627776))%Q).
Proof.
  split; [|split; [|split]].
  - intros f config H. unfold frequency_to_byte. rewrite H. reflexivity.
  - intros f config H1 H2. unfold frequency_to_byte. rewrite H1, H2. reflexivity.
  - intros f config. apply above_band.
  - intros f config. apply decode_nearest.
Qed.

Lemma C9_decode_clamps_witness :
  frequency_to_byte 100.0%float default_dsonar_config = 0
  /\ frequency_to_byte 5000.0%float default_dsonar_config = 255
  /\ (let r := frequency_to_byte 1220.0%float default_dsonar_config in
      let x := scaled_position 1220.0%float default_dsonar_config in
      0 <= r <= 255 /\
      (x - (1 # 2) - (1 # 1099511627776) < inject_Z r)%Q /\
      (inject_Z r <= x + (1 # 2) + (1 # 1099511627776))%Q).
Proof.
  destruct C9_decode_clamps as (Hlow & _ & Hhigh & Hmid).
  split; [apply Hlow; vm_compute; reflexivity|].
  split; [apply Hhigh; vm_compute; reflexivity|].
  apply Hmid; vm_compute; reflexivity.
Defined.

(** *** The sample list *)

Lemma samples_of_add (head s : reverse_sample_node_t) :
  samples_of (add_reverse_sample head s) = samples_of head ++ samples_of s.
Proof.
  induction head as [|b f c i next IH]; destruct s; simpl;
    rewrite ?app_nil_r; try reflexivity.
  f_equal. apply IH.
Qed.

Lemma samples_of_node_of (s : sample) : samples_of (node_of s) = [s].
Proof. destruct s; reflexivity. Qed.

Lemma samples_of_build (ss : list sample) : samples_of (build_samples ss) = ss.
Proof.
  unfold build_samples.
  induction ss as [|s ss IH] using rev_ind; [reflexivity|].
  rewrite foldl_app. simpl.
  rewrite samples_of_add, IH, samples_of_node_of. reflexivity.
Qed.

Lemma count_samples_length (head : reverse_sample_node_t) (count : Z) :
  count_samples head count = count + Z.of_nat (length (samples_of head)).
Proof.
  revert count. induction head as [|b f c i next IH]; intros count; simpl.
  - lia.
  - rewrite IH. lia.
Qed.

Lemma fill_bytes_spec (head : reverse_sample_node_t) (count : Z)
    (done todo : list Z) :
  length todo = length (samples_of head) ->
  count = Z.of_nat (length done + length todo) ->
  fill_bytes head (Z.of_nat (length done)) count (done ++ todo)
  = done ++ (reconstructed_byte <$> samples_of head).
Proof.
  revert done todo.
  induction head as [|b f c i next IH]; intros done todo Hlen Hcount; simpl in *.
  - destruct todo; [reflexivity | discriminate].
  - destruct todo as [|t todo]; [discriminate|]. simpl in *.
    destruct (Z.ltb_spec (Z.of_nat (length done)) count) as [_|Hge]; [|lia].
    rewrite Nat2Z.id.
    replace (<[length done := b]> (done ++ t :: todo))
      with ((done ++ [b]) ++ todo).
    + replace (Z.of_nat (length done) + 1)
        with (Z.of_nat (length (done ++ [b])))
        by (rewrite length_app; simpl; lia).
      rewrite IH.
      * rewrite <- app_assoc. reflexivity.
      * lia.
      * rewrite length_app. simpl. lia.
    + rewrite <- app_assoc. simpl.
      rewrite insert_app_r_alt by lia.
      rewrite Nat.sub_diag. reflexivity.
Qed.

Lemma samples_to_bytes_spec (head : reverse_sample_node_t) (len0 : Z) :
  samples_to_bytes head len0 =
  match samples_of head with
  | [] => (None, len0)
  | _ :: _ =>
      (Some (reconstructed_byte <$> samples_of head),
       Z.of_nat (length (samples_of head)))
  end.
Proof.
  destruct head as [|b f c i next]; [reflexivity|].
  unfold samples_to_bytes.
  rewrite count_samples_length.
  pose proof (fill_bytes_spec (Node b f c i next)
                (0 + Z.of_nat (length (samples_of (Node b f c i next)))) []
                (malloc_bytes
                   (0 + Z.of_nat (length (samples_of (Node b f c i next))))))
    as Hfill.
  change (Z.of_nat (length (@nil Z))) with 0 in Hfill.
  rewrite !app_nil_l in Hfill.
  rewrite Hfill.
  - destruct (Z.eqb_spec
                (0 + Z.of_nat (length (samples_of (Node b f c i next)))) 0)
      as [H0|_]; [simpl in H0; lia|].
    simpl. f_equal; lia.
  - unfold malloc_bytes. rewrite length_replicate. lia.
  - unfold malloc_bytes. rewrite length_replicate. simpl. lia.
Qed.

(** C10: appending with [add_reverse_sample] keeps insertion order, each new
    sample going to the tail, and [samples_to_bytes] returns one byte per
    sample, in that order; it returns NULL only for the empty list. *)
Theorem C10_insertion_order (ss : list sample) :
  (forall (head : reverse_sample_node_t) (s : sample),
      samples_of (add_reverse_sample head (node_of s)) = samples_of head ++ [s])
  /\ samples_of (build_samples ss) = ss
  /\ (forall len0 : Z,
        samples_to_bytes (build_samples ss) len0 =
        match ss with
        | [] => (None, len0)
        | _ => (Some (reconstructed_byte <$> ss), Z.of_nat (length ss))
        end)
  /\ (forall len0 : Z,
        (samples_to_bytes (build_samples ss) len0).1 = None <-> ss = []).
Proof.
  split; [|split; [|split]].
  - intros head s. rewrite samples_of_add, samples_of_node_of. reflexivity.
  - apply samples_of_build.
  - intros len0. rewrite samples_to_bytes_spec, samples_of_build. reflexivity.
  - intros len0. rewrite samples_to_bytes_spec, samples_of_build.
    destruct ss; simpl; split; intros H; congruence.
Qed.

Lemma C10_insertion_order_witness :
  let a := {| reconstructed_byte := 72; source_frequency := 784.71%float;
              confidence_score := 0.85%float; sample_index := 0 |} in
  let b := {| reconstructed_byte := 105; source_frequency := 1043.53%float;
              confidence_score := 0.85%float; sample_index := 1 |} in
  samples_of (build_samples [a; b]) = [a; b]
  /\ samples_to_bytes (build_samples [a; b]) 0 = (Some [72; 105], 2).
Proof.
  intros a b.
  destruct (C10_insertion_order [a; b]) as (_ & Horder & Hbytes & _).
  split; [exact Horder | exact (Hbytes 0)].
Defined.

(** *** The accuracy check *)

Lemma positionwise_matches_cons (x y : Z) (xs ys : list Z) :
  positionwise_matches (x :: xs) (y :: ys) =
  (if x =? y then 1 else 0) + positionwise_matches xs ys.
Proof.
  unfold positionwise_matches. simpl zip. rewrite filter_cons. simpl.
  destruct (decide (x = y)) as [->|Hne].
  - rewrite Z.eqb_refl. simpl length. lia.
  - destruct (Z.eqb_spec x y); [contradiction|]. lia.
Qed.

Lemma count_matches_spec (original reconstructed : list Z) (n k : nat)
    (matches : Z) :
  (k + n <= length original)%nat -> (k + n <= length reconstructed)%nat ->
  count_matches (seqZ (Z.of_nat k) (Z.of_nat n)) original reconstructed matches
  = matches
    + positionwise_matches (take n (drop k original))
        (take n (drop k reconstructed)).
Proof.
  revert k matches.
  induction n as [|n IH]; intros k matches Ho Hr.
  - simpl. unfold positionwise_matches. simpl. lia.
  - rewrite seqZ_cons by lia.
    replace (Z.succ (Z.of_nat k)) with (Z.of_nat (S k)) by lia.
    replace (Z.pred (Z.of_nat (S n))) with (Z.of_nat n) by lia.
    simpl count_matches. rewrite Nat2Z.id.
    destruct (lookup_lt_is_Some_2 original k) as [x Hx]; [lia|].
    destruct (lookup_lt_is_Some_2 reconstructed k) as [y Hy]; [lia|].
    rewrite (list_lookup_total_correct _ _ _ Hx).
    rewrite (list_lookup_total_correct _ _ _ Hy).
    rewrite (drop_S _ _ _ Hx), (drop_S _ _ _ Hy).
    rewrite !firstn_cons, positionwise_matches_cons.
    rewrite IH by lia.
    destruct (x =? y); lia.
Qed.

Lemma positionwise_matches_take (original reconstructed : list Z) :
  let n := Nat.min (length original) (length reconstructed) in
  positionwise_matches (take n original) (take n reconstructed)
  = positionwise_matches original reconstructed.
Proof.
  revert reconstructed.
  induction original as [|x xs IH]; intros [|y ys]; simpl; try reflexivity.
  rewrite !positionwise_matches_cons. rewrite IH. reflexivity.
Qed.

Lemma min_is_Zmin (a b : Z) : min a b = Z.min a b.
Proof. unfold min. destruct (Z.ltb_spec a b); lia. Qed.

(** The standalone function: over a compared length that both buffers
    cover, the result is the match count divided by that length. *)
Lemma accuracy_is_ratio (original reconstructed : list Z) (n : nat) :
  (0 < n)%nat -> (n <= length original)%nat -> (n <= length reconstructed)%nat ->
  calculate_reconstruction_accuracy (Some original) (Some reconstructed)
    (Z.of_nat n)
  = (double_of_int
       (positionwise_matches (take n original) (take n reconstructed))
     / double_of_int (Z.of_nat n))%float.
Proof.
  intros Hn Ho Hr. unfold calculate_reconstruction_accuracy.
  destruct (Z.leb_spec (Z.of_nat n) 0) as [Hle|_]; [lia|].
  pose proof (count_matches_spec original reconstructed n 0 0) as H.
  change (Z.of_nat 0) with 0 in H. rewrite !drop_0 in H.
  rewrite H by lia. rewrite Z.add_0_l. reflexivity.
Qed.

(** C2: the accuracy check returns the number of positionwise equal bytes
    divided by the compared length, the compared length being the minimum of
    the original and reconstructed lengths; [1,2,3,4] against [1,2,9,4]
    gives exactly 0.75. *)
Theorem C2_accuracy_ratio :
  (forall (original : list Z) (result : dsonar_result_t) (data : list Z),
      reconstructed_data result = Some data ->
      0 <= data_length result <= Z.of_nat (length data) ->
      0 < Z.min (Z.of_nat (length original)) (data_length result) ->
      accuracy_against_original original (Z.of_nat (length original)) result
      = (double_of_int
           (positionwise_matches original
              (take (Z.to_nat (data_length result)) data))
         / double_of_int
             (Z.min (Z.of_nat (length original)) (data_length result)))%float)
  /\
  calculate_reconstruction_accuracy (Some [1; 2; 3; 4]) (Some [1; 2; 9; 4]) 4
  = 0.75%float.
Proof.
  split; [|vm_compute; reflexivity].
  intros original result data Hdata Hlen Hpos.
  unfold accuracy_against_original.
  rewrite Hdata, min_is_Zmin.
  set (dl := Z.to_nat (data_length result)).
  set (n := Nat.min (length original) dl).
  replace (Z.min (Z.of_nat (length original)) (data_length result))
    with (Z.of_nat n) in * by (subst n dl; lia).
  rewrite accuracy_is_ratio by (subst n dl; lia).
  f_equal. f_equal.
  rewrite <- (positionwise_matches_take original (take dl data)).
  rewrite length_take.
  replace (Nat.min (length original) (Nat.min dl (length data))) with n
    by (subst n dl; lia).
  rewrite take_take. f_equal. f_equal. subst n. lia.
Qed.

Lemma C2_accuracy_ratio_witness :
  accuracy_against_original [1; 2; 3; 4] 4
    {| reconstructed_data := Some [1; 2; 9; 4]; data_length := 4;
       average_confidence := 0.8%float; successful_samples := 4;
       total_samples := 4 |}
  = (double_of_int 3 / double_of_int 4)%float.
Proof.
  destruct C2_accuracy_ratio as [Hgen _].
  refine (Hgen [1; 2; 3; 4]
            {| reconstructed_data := Some [1; 2; 9; 4]; data_length := 4;
               average_confidence := 0.8%float; successful_samples := 4;
               total_samples := 4 |}
            [1; 2; 9; 4] eq_refl _ _); simpl; lia.
Defined.

(** *** Text streams *)

Lemma fgets_line_app (room : nat) (s : string) :
  (fgets_line room s).1 +:+ (fgets_line room s).2 = s.
Proof.
  revert s. induction room as [|room IH]; intros s; [reflexivity|].
  destruct s as [|c rest]; [reflexivity|]. simpl.
  destruct (Ascii.eqb c newline); [reflexivity|].
  specialize (IH rest). destruct (fgets_line room rest) as [line unread].
  simpl in *. rewrite <- IH. reflexivity.
Qed.

Lemma fgets_line_progress (room : nat) (c : ascii) (rest : string) :
  (0 < room)%nat ->
  (0 < String.length (fgets_line room (String c rest)).1)%nat.
Proof.
  intros Hroom. destruct room as [|room]; [lia|]. simpl.
  destruct (Ascii.eqb c newline); [simpl; lia|].
  destruct (fgets_line room rest). simpl. lia.
Qed.

Lemma string_length_app (a b : string) :
  String.length (a +:+ b) = (String.length a + String.length b)%nat.
Proof.
  induction a as [|c a IH]; [reflexivity|].
  change (S (String.length (a +:+ b)) = S (String.length a + String.length b)).
  rewrite IH. reflexivity.
Qed.

(** With a buffer of at least two bytes each [fgets] consumes input, so the
    loop ends, and fuel equal to the length of the unread text is enough:
    the lines returned make up exactly that text. *)
Lemma stream_lines_fuel_complete (size : nat) :
  (2 <= size)%nat ->
  forall (fuel : nat) (s : string) (pos : nat),
    (String.length s <= fuel)%nat ->
    string_concat (stream_lines_fuel fuel size s pos).*1 = s.
Proof.
  intros Hsize. induction fuel as [|fuel IH]; intros s pos Hfuel.
  - destruct s; [reflexivity | simpl in Hfuel; lia].
  - destruct s as [|c rest]; [reflexivity|].
    cbn [stream_lines_fuel fgets].
    pose proof (fgets_line_app (size - 1) (String c rest)) as Happ.
    pose proof (fgets_line_progress (size - 1) c rest) as Hprog.
    destruct (fgets_line (size - 1) (String c rest)) as [line unread].
    cbn [fst snd] in *. cbn [fmap list_fmap string_concat foldr fst].
    fold (string_concat (stream_lines_fuel fuel size unread
                           (pos + String.length line)).*1).
    rewrite IH; [exact Happ|].
    assert (Hlen : String.length (line +:+ unread)
                   = String.length (String c rest)) by (rewrite Happ; reflexivity).
    rewrite string_length_app in Hlen. simpl in Hlen, Hfuel.
    specialize (Hprog ltac:(lia)). lia.
Qed.

(** A line that fits the buffer is read whole: [fgets] then returns the
    text up to and including the newline. *)
Lemma fgets_whole_line (s : string) :
  forall room : nat,
    (String.length (first_line s).1 <= room)%nat ->
    fgets_line room s = first_line s.
Proof.
  induction s as [|c rest IH]; intros room Hroom.
  - destruct room; reflexivity.
  - cbn [first_line] in *.
    destruct (Ascii.eqb c newline) eqn:Hc.
    + destruct room as [|room]; [simpl in Hroom; lia|].
      cbn [fgets_line]. rewrite Hc. reflexivity.
    + specialize (IH (pred room)).
      destruct (first_line rest) as [line unread].
      cbn [fst String.length] in *.
      destruct room as [|room]; [lia|].
      cbn [fgets_line pred] in *. rewrite Hc.
      rewrite IH by lia. reflexivity.
Qed.

Lemma string_drop_0 (content : string) : string_drop 0 content = content.
Proof. destruct content; reflexivity. Qed.

Lemma stream_lines_complete (size : nat) (content : string) (pos : nat) :
  (2 <= size)%nat ->
  string_concat (stream_lines size content pos).*1 = string_drop pos content.
Proof.
  intros Hsize. unfold stream_lines.
  apply stream_lines_fuel_complete; [exact Hsize | lia].
Qed.

(** *** The frequency table decoder *)

Section CsvFacts.

Variable sscanf_csv : string -> option csv_row.

Lemma csv_loop_spec (lines : list (string * nat)) (sample_count : Z) :
  forall (st : csv_state) (done todo : list Z),
    buffer st = done ++ todo ->
    bytes_read st = Z.of_nat (length done) ->
    bytes_read st + Z.of_nat (length lines) <= sample_count ->
    (length lines <= length todo)%nat ->
    let rows := parsed_rows sscanf_csv lines in
    let st' := csv_loop sscanf_csv lines sample_count st in
    buffer st' = done ++ ((fun row => uchar_of_Z (byte_dec row)) <$> rows)
                      ++ drop (length rows) todo
    /\ bytes_read st' = bytes_read st + Z.of_nat (length rows)
    /\ csv_successful st' = csv_successful st + Z.of_nat (length rows)
    /\ total_confidence st'
       = foldl PrimFloat.add (total_confidence st) (amplitude <$> rows).
Proof.
  induction lines as [|[line after] lines IH];
    intros st done todo Hbuf Hread Hcount Htodo; cbn zeta.
  - simpl. rewrite drop_0. repeat split; [exact Hbuf | lia | lia].
  - simpl in Hcount, Htodo. cbn [csv_loop].
    destruct (Z.ltb_spec (bytes_read st) sample_count) as [_|Hge]; [|lia].
    unfold parsed_rows. cbn [omap list_omap fst]. unfold csv_body.
    destruct (sscanf_csv line) as [row|] eqn:Hscan.
    + destruct todo as [|t todo]; [simpl in Htodo; lia|].
      match goal with |- context [csv_loop _ _ _ ?s] => set (st1 := s) end.
      specialize (IH st1 (done ++ [uchar_of_Z (byte_dec row)]) todo).
      cbn zeta in IH. unfold parsed_rows in IH.
      destruct IH as (Hb & Hr & Hs & Hc).
      * subst st1. cbn [buffer]. rewrite Hbuf, Hread, Nat2Z.id.
        rewrite insert_app_r_alt by lia. rewrite Nat.sub_diag.
        rewrite <- app_assoc. reflexivity.
      * subst st1. cbn [bytes_read]. rewrite length_app. simpl. lia.
      * subst st1. cbn [bytes_read]. lia.
      * simpl in Htodo. lia.
      * rewrite Hb, Hr, Hs, Hc. subst st1.
        cbn [bytes_read csv_successful total_confidence].
        rewrite <- app_assoc. simpl. repeat split; lia.
    + specialize (IH st done todo Hbuf Hread ltac:(lia) ltac:(lia)).
      cbn zeta in IH. unfold parsed_rows in IH. exact IH.
Qed.

(** What [reconstruct_from_csv] returns for a readable file with at least
    one line after the header. *)
Lemma reconstruct_from_csv_spec (content header unread : string) :
  fgets 512 content = Some (header, unread) ->
  let lines := stream_lines 512 content (String.length header) in
  let rows := parsed_rows sscanf_csv lines in
  lines <> [] ->
  exists r : dsonar_result_t,
    reconstruct_from_csv sscanf_csv (Some content) = Some r
    /\ reconstructed_data r
       = Some (((fun row => uchar_of_Z (byte_dec row)) <$> rows)
               ++ replicate (length lines - length rows) 0)
    /\ data_length r = Z.of_nat (length rows)
    /\ successful_samples r = Z.of_nat (length rows)
    /\ total_samples r = Z.of_nat (length lines)
    /\ average_confidence r
       = (if 0 <? Z.of_nat (length rows)
          then float_mean (amplitude <$> rows) else 0%float).
Proof.
  intros Hhdr lines rows Hne.
  unfold reconstruct_from_csv. rewrite Hhdr. fold lines.
  destruct (Z.eqb_spec (Z.of_nat (length lines)) 0) as [H0|_].
  { destruct lines; [contradiction | simpl in H0; lia]. }
  match goal with |- context [csv_loop _ _ _ ?s] => set (st0 := s) end.
  destruct (csv_loop_spec lines (Z.of_nat (length lines)) st0 []
              (malloc_bytes (Z.of_nat (length lines))))
    as (Hb & Hr & Hs & Hc).
  - reflexivity.
  - reflexivity.
  - subst st0. simpl. lia.
  - unfold malloc_bytes. rewrite length_replicate. lia.
  - fold rows in Hb, Hr, Hs, Hc.
    eexists. split; [reflexivity|]. cbn [reconstructed_data data_length
      successful_samples total_samples average_confidence].
    rewrite Hb, Hr, Hs, Hc. subst st0.
    cbn [bytes_read csv_successful total_confidence].
    unfold malloc_bytes. rewrite Nat2Z.id, drop_replicate.
    rewrite !Z.add_0_l. repeat split.
    unfold float_mean. rewrite length_fmap. reflexivity.
Qed.

End CsvFacts.

Lemma parsed_rows_all {A : Type} (scan : string -> option A)
    (lines : list (string * nat)) (rows : list A) :
  Forall2 (fun line row => scan line = Some row) lines.*1 rows ->
  parsed_rows scan lines = rows /\ length lines = length rows.
Proof.
  revert rows. induction lines as [|[line after] lines IH]; intros rows H.
  - inversion H. split; reflexivity.
  - inversion H as [|? row ? rows' Hscan Hrest]; subst.
    destruct (IH rows' Hrest) as [IHrows IHlen].
    unfold parsed_rows in *.
    change (omap (fun l => scan l.1) ((line, after) :: lines))
      with (match scan line with
            | Some y => y :: omap (fun l => scan l.1) lines
            | None => omap (fun l => scan l.1) lines
            end).
    rewrite Hscan, IHrows. simpl. rewrite IHlen. split; reflexivity.
Qed.

(** C3: when every data row of a frequency table parses, the decoder emits
    the decimal byte field of each row (converted to [unsigned char]) in row
    order, reports [total_samples] equal to the number of data rows and
    [average_confidence] equal to the mean of the amplitude fields; the table
    for bytes 0x41, 0x42, 0x43 gives the buffer [0x41, 0x42, 0x43] with
    [total_samples = 3]. *)
Theorem C3_csv_table :
  (forall (sscanf_csv : string -> option csv_row)
          (content header unread : string) (rows : list csv_row),
      fgets 512 content = Some (header, unread) ->
      rows <> [] ->
      Forall2 (fun line row => sscanf_csv line = Some row)
        (stream_lines 512 content (String.length header)).*1 rows ->
      exists r : dsonar_result_t,
        reconstruct_from_csv sscanf_csv (Some content) = Some r
        /\ reconstructed_data r
           = Some ((fun row => uchar_of_Z (byte_dec row)) <$> rows)
        /\ (Forall (fun row => 0 <= byte_dec row <= 255) rows ->
            reconstructed_data r = Some (byte_dec <$> rows))
        /\ data_length r = Z.of_nat (length rows)
        /\ total_samples r = Z.of_nat (length rows)
        /\ average_confidence r = float_mean (amplitude <$> rows))
  /\
  reconstruct_from_csv Scan.sscanf_csv (Some csv_example)
  = Some {| reconstructed_data := Some [65; 66; 67];
            data_length := 3;
            average_confidence :=
              float_mean [0.329%float; 0.333%float; 0.336%float];
            successful_samples := 3;
            total_samples := 3 |}.
Proof.
  split; [|vm_compute; reflexivity].
  intros sscanf_csv content header unread rows Hhdr Hne Hall.
  destruct (parsed_rows_all _ _ _ Hall) as [Hrows Hlen].
  destruct (reconstruct_from_csv_spec sscanf_csv content header unread Hhdr)
    as (r & Hr & Hdata & Hdl & Hsucc & Htot & Havg).
  { intros Hnil. rewrite Hnil in Hlen. destruct rows; [contradiction|discriminate]. }
  rewrite Hrows in Hdata, Hdl, Hsucc, Havg. rewrite Hlen in Hdata, Htot.
  rewrite Nat.sub_diag, app_nil_r in Hdata.
  exists r. split; [exact Hr|]. split; [exact Hdata|].
  split; [|split; [exact Hdl|split; [exact Htot|]]].
  - intros Hbytes. rewrite Hdata. f_equal.
    apply list_fmap_ext. intros i row Hi.
    apply uchar_of_Z_byte.
    rewrite Forall_forall in Hbytes. apply Hbytes.
    eapply list_elem_of_lookup_2. exact Hi.
  - rewrite Havg.
    destruct (Z.ltb_spec 0 (Z.of_nat (length rows))) as [_|H0]; [reflexivity|].
    destruct rows; [contradiction | simpl in H0; lia].
Qed.

Lemma C3_csv_table_witness :
  exists r : dsonar_result_t,
    reconstruct_from_csv Scan.sscanf_csv (Some csv_example) = Some r
    /\ reconstructed_data r = Some [65; 66; 67]
    /\ total_samples r = 3.
Proof.
  destruct C3_csv_table as [Hgen _].
  destruct (Hgen Scan.sscanf_csv csv_example
              (text_line "Sample,Byte_Hex,Byte_Dec,Frequency_Hz,Amplitude,Duration_s")
              (string_drop 59 csv_example)
              [ {| sample_num := 0; byte_hex := "0x41"; byte_dec := 65;
                   frequency := 729.80%float; amplitude := 0.329%float;
                   duration := 0.050%float |};
                {| sample_num := 1; byte_hex := "0x42"; byte_dec := 66;
                   frequency := 737.65%float; amplitude := 0.333%float;
                   duration := 0.050%float |};
                {| sample_num := 2; byte_hex := "0x43"; byte_dec := 67;
                   frequency := 745.49%float; amplitude := 0.336%float;
                   duration := 0.050%float |} ])
    as (r & Hr & Hdata & _ & _ & Htot & _).
  - vm_compute. reflexivity.
  - discriminate.
  - apply Forall2_fmap_l.
    apply (Forall2_same_length_lookup_2 _ _ _); [vm_compute; reflexivity|].
    intros i [line pos] row Hl Hrow.
    destruct i as [|[|[|i]]]; vm_compute in Hl, Hrow;
      try discriminate;
      injection Hl as <- <-; injection Hrow as <-;
      vm_compute; reflexivity.
  - exists r. split; [exact Hr|]. split; [exact Hdata | exact Htot].
Defined.

(** *** Statistics of a decoded list *)

Lemma count_exceeding_cons (threshold c : float) (cs : list float) :
  count_exceeding threshold (c :: cs)
  = (if (threshold <? c)%float then 1 else 0) + count_exceeding threshold cs.
Proof.
  unfold count_exceeding. rewrite filter_cons.
  destruct (threshold <? c)%float.
  - rewrite decide_True by reflexivity. cbn [length]. lia.
  - rewrite decide_False by discriminate. lia.
Qed.

Lemma confidence_statistics_spec (threshold : float)
    (head : reverse_sample_node_t) (total successful : Z) (conf : float) :
  confidence_statistics threshold head total successful conf =
  (total + Z.of_nat (length (samples_of head)),
   successful + count_exceeding threshold (confidence_score <$> samples_of head),
   foldl PrimFloat.add conf (confidence_score <$> samples_of head)).
Proof.
  revert total successful conf.
  induction head as [|b f c i next IH]; intros total successful conf.
  - simpl. unfold count_exceeding. simpl. rewrite !Z.add_0_r. reflexivity.
  - cbn [confidence_statistics]. rewrite IH.
    cbn [samples_of fmap list_fmap confidence_score foldl length].
    rewrite count_exceeding_cons.
    match goal with
    | |- (?x1, ?x2, _) = (?y1, ?y2, _) =>
        replace x1 with y1 by lia;
        replace x2 with y2 by (destruct (threshold <? c)%float; lia)
    end.
    reflexivity.
Qed.

Lemma result_of_samples_counts (threshold : float)
    (samples : reverse_sample_node_t) :
  let r := result_of_samples threshold samples in
  let confidences := confidence_score <$> samples_of samples in
  total_samples r = Z.of_nat (length confidences)
  /\ successful_samples r = count_exceeding threshold confidences.
Proof.
  unfold result_of_samples.
  destruct (samples_to_bytes samples 0) as [data len].
  rewrite confidence_statistics_spec. cbn zeta.
  cbn [total_samples successful_samples]. rewrite length_fmap.
  split; lia.
Qed.

(** *** The acoustic decoder *)

Lemma wav_loop_spec (config : dsonar_config_t) (chunk_size sample_rate : Z)
    (fuel : nat) :
  forall (pcm : list Z) (samples : reverse_sample_node_t) (sample_index : Z),
  exists new : list sample,
    samples_of (wav_loop fuel config chunk_size sample_rate pcm samples
                  sample_index).1
    = samples_of samples ++ new
    /\ (wav_loop fuel config chunk_size sample_rate pcm samples sample_index).2
       = sample_index + Z.of_nat (length new)
    /\ Forall (window_sample config chunk_size sample_rate) new.
Proof.
  induction fuel as [|fuel IH]; intros pcm samples sample_index.
  - exists []. simpl. rewrite app_nil_r. split; [reflexivity|]. split; [lia|].
    constructor.
  - cbn [wav_loop].
    destruct (Z.eqb_spec (Z.of_nat (length (take (Z.to_nat chunk_size) pcm)))
                chunk_size) as [Hfull|Hshort]; cbn [negb].
    2:{ exists []. simpl. rewrite app_nil_r. split; [reflexivity|].
        split; [lia|constructor]. }
    set (audio_buffer := take (Z.to_nat chunk_size) pcm) in *.
    set (f := detect_dominant_frequency audio_buffer chunk_size sample_rate).
    destruct (0 <? f)%float eqn:Hpos.
    + match goal with
      | |- context [wav_loop fuel _ _ _ ?p ?s ?i] =>
          destruct (IH p s i) as (new & Hs & Hi & Hall)
      end.
      eexists (_ :: new). rewrite Hs, Hi, samples_of_add.
      cbn [samples_of set_confidence_score create_reverse_sample].
      rewrite <- app_assoc.
      split; [reflexivity|]. split; [simpl; lia|].
      constructor; [|exact Hall].
      exists audio_buffer. cbn [source_frequency reconstructed_byte
        confidence_score]. fold f. repeat split; assumption.
    + apply IH.
Qed.

(** With a window of at least one sample every full read consumes input, so
    the loop ends and fuel equal to the number of unread samples is enough:
    more fuel changes nothing. *)
Lemma wav_loop_fuel_enough (config : dsonar_config_t)
    (chunk_size sample_rate : Z) (fuel : nat) :
  0 < chunk_size ->
  forall (pcm : list Z) (samples : reverse_sample_node_t) (sample_index : Z),
    (length pcm <= fuel)%nat ->
    wav_loop (S fuel) config chunk_size sample_rate pcm samples sample_index
    = wav_loop fuel config chunk_size sample_rate pcm samples sample_index.
Proof.
  intros Hchunk. induction fuel as [|fuel IH];
    intros pcm samples sample_index Hfuel.
  - destruct pcm; [|simpl in Hfuel; lia].
    cbn [wav_loop]. rewrite take_nil. cbn [length].
    destruct (Z.eqb_spec (Z.of_nat 0) chunk_size); [lia | reflexivity].
  - cbn [wav_loop].
    destruct (Z.eqb_spec (Z.of_nat (length (take (Z.to_nat chunk_size) pcm)))
                chunk_size) as [Hfull|Hshort]; cbn [negb]; [|reflexivity].
    assert (Hrest : (length (drop (Z.to_nat chunk_size) pcm) <= fuel)%nat).
    { rewrite length_drop. rewrite length_take in Hfull. lia. }
    destruct (0 <? _)%float.
    + rewrite <- (IH _ _ _ Hrest). reflexivity.
    + rewrite <- (IH _ _ _ Hrest). reflexivity.
Qed.

(** What a successful call of [reconstruct_from_wav] returns. *)
Lemma reconstruct_from_wav_spec (bytes : list Z) (config : dsonar_config_t)
    (r : dsonar_result_t) :
  reconstruct_from_wav (Some bytes) config = Returns (Some r) ->
  exists (sample_rate channels bits : Z) (unread : list Z) (ss : list sample),
    read_wav_header bytes = Some (sample_rate, channels, bits, unread)
    /\ ss <> []
    /\ Forall (window_sample config
                 (int_of_double (base_frequency config * 0.05)%float)
                 sample_rate) ss
    /\ reconstructed_data r = Some (reconstructed_byte <$> ss)
    /\ data_length r = Z.of_nat (length ss)
    /\ total_samples r = Z.of_nat (length ss)
    /\ successful_samples r = Z.of_nat (length ss)
    /\ average_confidence r = 0.7%float.
Proof.
  unfold reconstruct_from_wav.
  destruct (read_wav_header bytes) as [[[[sample_rate channels] bits] unread]|];
    [|discriminate].
  set (chunk_size := int_of_double (base_frequency config * 0.05)%float).
  destruct (chunk_size <? 0); [discriminate|].
  destruct (chunk_size =? 0); [discriminate|].
  destruct (wav_loop_spec config chunk_size sample_rate
              (length (shorts_of_bytes unread)) (shorts_of_bytes unread) NULL 0)
    as (ss & Hs & Hi & Hall).
  destruct (wav_loop _ _ _ _ _ _ _) as [samples sample_index].
  cbn [fst snd] in Hs, Hi. simpl in Hs.
  destruct (Z.eqb_spec sample_index 0) as [|Hne]; [discriminate|].
  rewrite samples_to_bytes_spec, Hs.
  destruct ss as [|s ss']; [simpl in Hi; lia|].
  intros H. injection H as <-.
  exists sample_rate, channels, bits, unread, (s :: ss').
  cbn [reconstructed_data data_length total_samples successful_samples
       average_confidence].
  repeat split; try assumption; try discriminate; try lia.
Qed.

(** *** Which samples count as successful *)

(** C4, as stated, fails for the frequency table: the three rows of
    [csv_example] have amplitudes 0.329, 0.333 and 0.336, none above 0.5, and
    all three are counted. *)
Lemma C4_counterexample :
  ~ (forall (content : string) (r : dsonar_result_t),
        reconstruct_from_csv Scan.sscanf_csv (Some content) = Some r ->
        successful_samples r
        = count_exceeding 0.5%float
            (amplitude <$> parsed_rows Scan.sscanf_csv (csv_data_lines content))).
Proof.
  intros H.
  pose proof (H csv_example _ eq_refl) as Hcount.
  vm_compute in Hcount. discriminate.
Qed.

(** C4, amended: [successful_samples] is the number of samples whose
    confidence exceeds 0.5 for the metadata (JSON) decoder and 0.6 for the
    analysis-report decoder; the table (CSV) decoder counts every row that
    parses, whatever its amplitude, and the acoustic (WAV) decoder counts
    every sample it produces. *)
Theorem C4_successful_samples :
  (forall (sscanf_csv : string -> option csv_row) (content : string)
          (r : dsonar_result_t),
      reconstruct_from_csv sscanf_csv (Some content) = Some r ->
      successful_samples r
      = Z.of_nat (length (parsed_rows sscanf_csv (csv_data_lines content))))
  /\
  (forall (sscanf_frequency : string -> option float)
          (sscanf_byte : string -> option Z) (config : dsonar_config_t)
          (file : option string) (r : dsonar_result_t),
      reconstruct_from_json sscanf_frequency sscanf_byte config file = Some r ->
      successful_samples r
      = count_exceeding 0.5%float
          (confidence_score <$>
             samples_of
               (parse_json_metadata sscanf_frequency sscanf_byte config file
                  NULL).2))
  /\
  (forall (sscanf_report : string -> option report_row)
          (config : dsonar_config_t) (file : option string)
          (r : dsonar_result_t),
      reconstruct_from_analysis sscanf_report config file = Some r ->
      successful_samples r
      = count_exceeding 0.6%float
          (confidence_score <$>
             samples_of (parse_analysis_report sscanf_report config file NULL).2))
  /\
  (forall (bytes : list Z) (config : dsonar_config_t) (r : dsonar_result_t)
          (data : list Z),
      reconstruct_from_wav (Some bytes) config = Returns (Some r) ->
      reconstructed_data r = Some data ->
      successful_samples r = Z.of_nat (length data)).
Proof.
  split; [|split; [|split]].
  - intros sscanf_csv content r Hr.
    unfold csv_data_lines.
    destruct (fgets 512 content) as [[header unread]|] eqn:Hhdr.
    + destruct (stream_lines 512 content (String.length header)) eqn:Hlines.
      * unfold reconstruct_from_csv in Hr. rewrite Hhdr, Hlines in Hr.
        discriminate.
      * destruct (reconstruct_from_csv_spec sscanf_csv content header unread Hhdr)
          as (r' & Hr' & _ & _ & Hsucc & _).
        { rewrite Hlines. discriminate. }
        rewrite Hr in Hr'. injection Hr' as <-.
        rewrite Hsucc, Hlines. reflexivity.
    + unfold reconstruct_from_csv in Hr. rewrite Hhdr in Hr. discriminate.
  - intros sscanf_frequency sscanf_byte config file r Hr.
    unfold reconstruct_from_json in Hr.
    destruct file as [content|]; [|discriminate].
    destruct (parse_json_metadata _ _ _ _ _) as [[|] samples];
      [|discriminate].
    injection Hr as <-. apply result_of_samples_counts.
  - intros sscanf_report config file r Hr.
    unfold reconstruct_from_analysis in Hr.
    destruct (parse_analysis_report _ _ _ _) as [[|] samples];
      [|discriminate].
    injection Hr as <-. apply result_of_samples_counts.
  - intros bytes config r data Hr Hdata.
    destruct (reconstruct_from_wav_spec _ _ _ Hr)
      as (sr & ch & bits & unread & ss & _ & _ & _ & Hd & _ & _ & Hsucc & _).
    rewrite Hd in Hdata. injection Hdata as <-.
    rewrite Hsucc, length_fmap. reflexivity.
Qed.

Lemma C4_successful_samples_witness :
  (successful_samples <$> reconstruct_from_csv Scan.sscanf_csv (Some csv_example))
  = Some 3
  /\ (successful_samples <$>
        reconstruct_from_json Scan.sscanf_frequency Scan.sscanf_byte
          default_dsonar_config (Some json_example)) = Some 3
  /\ (successful_samples <$>
        reconstruct_from_analysis Scan.sscanf_report default_dsonar_config
          (Some report_example)) = Some 2
  /\ match reconstruct_from_wav (Some wav_tone_1220) default_dsonar_config with
     | Returns (Some r) => successful_samples r = 112
     | _ => False
     end.
Proof.
  destruct C4_successful_samples as (Hcsv & Hjson & Hreport & Hwav).
  split; [|split; [|split]].
  - destruct (reconstruct_from_csv Scan.sscanf_csv (Some csv_example))
      as [r|] eqn:Hr; [|vm_compute in Hr; discriminate].
    simpl. rewrite (Hcsv _ _ _ Hr). vm_compute. reflexivity.
  - destruct (reconstruct_from_json Scan.sscanf_frequency Scan.sscanf_byte
                default_dsonar_config (Some json_example))
      as [r|] eqn:Hr; [|vm_compute in Hr; discriminate].
    simpl. rewrite (Hjson _ _ _ _ _ Hr). vm_compute. reflexivity.
  - destruct (reconstruct_from_analysis Scan.sscanf_report default_dsonar_config
                (Some report_example))
      as [r|] eqn:Hr; [|vm_compute in Hr; discriminate].
    simpl. rewrite (Hreport _ _ _ _ Hr). vm_compute. reflexivity.
  - destruct (reconstruct_from_wav (Some wav_tone_1220) default_dsonar_config)
      as [[r|]|] eqn:Hr; try (vm_compute in Hr; discriminate).
    destruct (reconstructed_data r) as [data|] eqn:Hdata.
    + rewrite (Hwav _ _ _ _ Hr Hdata).
      vm_compute in Hr. injection Hr as <-.
      vm_compute in Hdata. injection Hdata as <-. reflexivity.
    + vm_compute in Hr. injection Hr as <-. discriminate.
Defined.

(** *** The analysis-report decoder *)

Section ReportFacts.

Variable sscanf_report : string -> option report_row.
Variable config : dsonar_config_t.

Lemma report_loop_before_marker (pre rest : list (string * nat))
    (samples : reverse_sample_node_t) (sample_index : Z) :
  Forall (fun l => strstr l.1 "Detailed Sample Data" = false) pre ->
  report_loop sscanf_report config (pre ++ rest) 0 false samples sample_index
  = report_loop sscanf_report config rest 0 false samples sample_index.
Proof.
  induction 1 as [|[line after] pre Hline _ IH]; [reflexivity|].
  simpl in Hline. simpl. rewrite Hline. simpl. exact IH.
Qed.

Lemma report_loop_data (data : list (string * nat)) :
  Forall (fun l => strstr l.1 "Detailed Sample Data" = false) data ->
  forall (samples : reverse_sample_node_t) (sample_index : Z),
    let rows := accepted_report_rows sscanf_report data in
    let out :=
      report_loop sscanf_report config data 0 true samples sample_index in
    samples_of out.1
    = samples_of samples
      ++ imap (fun i row => report_sample config (sample_index + Z.of_nat i) row)
           rows
    /\ out.2 = sample_index + Z.of_nat (length rows).
Proof.
  induction 1 as [|[line after] data Hline _ IH]; intros samples sample_index.
  - simpl. rewrite app_nil_r. split; [reflexivity | lia].
  - simpl in Hline. cbn zeta. cbn [report_loop]. rewrite Hline. cbn [andb].
    unfold accepted_report_rows, parsed_rows.
    change (omap ?f ((line, after) :: data))
      with (match f (line, after) with
            | Some y => y :: omap f data
            | None => omap f data
            end).
    cbn [fst].
    destruct (10 <? strlen line).
    + destruct (sscanf_report line) as [row|].
      * match goal with
        | |- context [report_loop _ _ _ _ _ ?s ?i] =>
            destruct (IH s i) as [Hs Hi]
        end.
        unfold accepted_report_rows, parsed_rows in Hs, Hi.
        rewrite Hs, Hi, samples_of_add.
        cbn [samples_of set_confidence_score create_reverse_sample imap length].
        rewrite <- app_assoc. cbn [app].
        split; [|lia].
        f_equal. f_equal.
        -- unfold report_sample. rewrite Z.add_0_r. reflexivity.
        -- apply imap_ext. intros i row' _. simpl. f_equal. lia.
      * apply IH.
    + apply IH.
Qed.

(** What [parse_analysis_report] leaves in the list for a report whose
    marker line is followed by two header lines and then the data lines. *)
Lemma parse_analysis_report_spec (content : string)
    (pre data : list (string * nat)) (marker_line h1 h2 : string * nat) :
  stream_lines 512 content 0 = pre ++ marker_line :: h1 :: h2 :: data ->
  Forall (fun l => strstr l.1 "Detailed Sample Data" = false) pre ->
  strstr marker_line.1 "Detailed Sample Data" = true ->
  Forall (fun l => strstr l.1 "Detailed Sample Data" = false) data ->
  let rows := accepted_report_rows sscanf_report data in
  let out := parse_analysis_report sscanf_report config (Some content) NULL in
  samples_of out.2
  = imap (fun i row => report_sample config (Z.of_nat i) row) rows
  /\ out.1 = bool_decide (rows <> []).
Proof.
  intros Hlines Hpre Hmarker Hdata rows out.
  subst out. unfold parse_analysis_report. rewrite Hlines.
  rewrite report_loop_before_marker by exact Hpre.
  destruct marker_line as [mline mpos], h1 as [l1 p1], h2 as [l2 p2].
  simpl in Hmarker. cbn [report_loop]. rewrite Hmarker.
  destruct (report_loop_data data Hdata NULL 0) as [Hs Hi].
  fold rows in Hs, Hi.
  destruct (report_loop sscanf_report config data 0 true NULL 0)
    as [samples sample_index].
  cbn [fst snd] in *. split.
  - rewrite Hs. simpl. apply imap_ext. intros. f_equal.
  - rewrite Hi. destruct rows as [|row rows'].
    + reflexivity.
    + rewrite bool_decide_true by discriminate.
      apply Z.ltb_lt. cbn [length]. lia.
Qed.

(** The loop of [parse_analysis_report] from any state: the lines still to
    pass over, the section flag, the list built so far and the next index. *)
Lemma report_loop_general (lines : list (string * nat)) :
  forall (skip : nat) (in_data_section : bool)
         (samples : reverse_sample_node_t) (sample_index : Z),
    let examined := examined_lines skip lines in
    let rows :=
      parsed_rows
        (fun line =>
           if strstr line "Detailed Sample Data" then None
           else if 10 <? strlen line then sscanf_report line else None)
        (if in_data_section then examined else after_marker examined) in
    let out :=
      report_loop sscanf_report config lines skip in_data_section samples
        sample_index in
    samples_of out.1
    = samples_of samples
      ++ imap (fun i row => report_sample config (sample_index + Z.of_nat i) row)
           rows
    /\ out.2 = sample_index + Z.of_nat (length rows).
Proof.
  induction lines as [|[line after] lines IH];
    intros skip in_data_section samples sample_index.
  - cbn. destruct in_data_section; cbn; rewrite app_nil_r; split;
      [reflexivity | lia | reflexivity | lia].
  - cbn zeta. cbn [report_loop examined_lines].
    destruct skip as [|skip]; [|apply IH].
    cbn [fst].
    destruct (strstr line "Detailed Sample Data") eqn:Hmarker.
    + specialize (IH 2%nat true samples sample_index). cbn zeta in IH.
      destruct in_data_section.
      * unfold parsed_rows.
        change (omap ?f ((line, after) :: ?l))
          with (match f (line, after) with
                | Some y => y :: omap f l
                | None => omap f l
                end).
        cbn [fst]. rewrite Hmarker. exact IH.
      * cbn [after_marker]. rewrite Hmarker. exact IH.
    + destruct in_data_section; cbn [andb].
      * unfold parsed_rows.
        change (omap ?f ((line, after) :: ?l))
          with (match f (line, after) with
                | Some y => y :: omap f l
                | None => omap f l
                end).
        cbn [fst]. rewrite Hmarker.
        destruct (10 <? strlen line); [|apply (IH 0%nat true)].
        destruct (sscanf_report line) as [row|]; [|apply (IH 0%nat true)].
        match goal with
        | |- context [report_loop _ _ _ _ _ ?s ?i] =>
            destruct (IH 0%nat true s i) as [Hs Hi]
        end.
        unfold parsed_rows in Hs, Hi.
        rewrite Hs, Hi, samples_of_add.
        cbn [samples_of set_confidence_score create_reverse_sample imap length].
        rewrite <- app_assoc. cbn [app].
        split; [|lia].
        f_equal. f_equal.
        -- unfold report_sample. rewrite Z.add_0_r. reflexivity.
        -- apply imap_ext. intros i row' _. simpl. f_equal. lia.
      * cbn [after_marker]. rewrite Hmarker. apply (IH 0%nat false).
Qed.

(** What [parse_analysis_report] leaves in the list, for any report. *)
Lemma parse_analysis_report_general (content : string) :
  let rows := report_rows_amended sscanf_report (stream_lines 512 content 0) in
  let out := parse_analysis_report sscanf_report config (Some content) NULL in
  samples_of out.2
  = imap (fun i row => report_sample config (Z.of_nat i) row) rows
  /\ out.1 = bool_decide (rows <> []).
Proof.
  intros rows out. subst out. unfold parse_analysis_report.
  destruct (report_loop_general (stream_lines 512 content 0) 0 false NULL 0)
    as [Hs Hi].
  cbv zeta in Hs, Hi. fold (report_rows_amended sscanf_report
                              (stream_lines 512 content 0)) in Hs, Hi.
  fold rows in Hs, Hi.
  destruct (report_loop sscanf_report config (stream_lines 512 content 0) 0
              false NULL 0) as [samples sample_index].
  cbn [fst snd] in *. split.
  - rewrite Hs. simpl. apply imap_ext. intros. f_equal.
  - rewrite Hi. destruct rows as [|row rows'].
    + reflexivity.
    + rewrite bool_decide_true by discriminate.
      apply Z.ltb_lt. cbn [length]. lia.
Qed.

End ReportFacts.

(** C6, as stated, fails on the code: in [report_example] a damaged line
    stands between two sample lines, and the line after it still yields a
    sample, whereas stopping at the first malformed line would yield one
    sample only. *)
Lemma C6_counterexample :
  ~ (forall content : string,
        source_frequency <$>
          samples_of
            (parse_analysis_report Scan.sscanf_report default_dsonar_config
               (Some content) NULL).2
        = r_frequency <$>
            report_rows_as_specified Scan.sscanf_report
              (stream_lines 512 content 0)).
Proof.
  intros H. specialize (H report_example).
  vm_compute in H. discriminate.
Qed.

(** A marker line met again inside the data section is passed over together
    with the two lines after it: of the six sample lines of
    [report_two_markers] the second and the third are lost. *)
Lemma repeated_marker_example :
  reconstructed_byte <$>
    samples_of
      (parse_analysis_report Scan.sscanf_report default_dsonar_config
         (Some report_two_markers) NULL).2 = [65; 68].
Proof. vm_compute. reflexivity. Qed.

(** C6, amended: the analysis-report decoder reads the report line by line
    to the end of input.  A line that contains the section marker opens the
    data section and makes the decoder pass over the two lines that follow
    it, wherever the marker is met.  Every other line met after the first
    marker line that is longer than 10 characters and parses yields a sample
    whose byte is the inverse-mapped frequency, whose confidence is exactly
    0.85 and whose index counts the samples; a line that is too short or
    fails to parse is skipped and decoding goes on with the next line.  The
    call succeeds if and only if it has made a sample; a report that cannot
    be opened fails and leaves the list as it was. *)
Theorem C6_report_lines :
  forall (sscanf_report : string -> option report_row)
         (config : dsonar_config_t),
    (forall content : string,
        let rows :=
          report_rows_amended sscanf_report (stream_lines 512 content 0) in
        let out :=
          parse_analysis_report sscanf_report config (Some content) NULL in
        samples_of out.2
        = imap (fun i row =>
                  {| reconstructed_byte :=
                       frequency_to_byte (r_frequency row) config;
                     source_frequency := r_frequency row;
                     confidence_score := 0.85%float;
                     sample_index := Z.of_nat i |}) rows
        /\ out.1 = bool_decide (rows <> []))
    /\ (forall samples : reverse_sample_node_t,
           parse_analysis_report sscanf_report config None samples
           = (false, samples)).
Proof.
  intros sscanf_report config. split.
  - intros content. apply parse_analysis_report_general.
  - reflexivity.
Qed.

Lemma C6_report_lines_witness :
  reconstructed_byte <$>
    samples_of
      (parse_analysis_report Scan.sscanf_report default_dsonar_config
         (Some report_example) NULL).2 = [65; 67]
  /\ confidence_score <$>
       samples_of
         (parse_analysis_report Scan.sscanf_report default_dsonar_config
            (Some report_example) NULL).2 = [0.85%float; 0.85%float]
  /\ (parse_analysis_report Scan.sscanf_report default_dsonar_config
        (Some report_example) NULL).1 = true.
Proof.
  destruct (C6_report_lines Scan.sscanf_report default_dsonar_config)
    as [Hsome _].
  destruct (Hsome report_example) as [Hs Hflag].
  rewrite Hs, Hflag. vm_compute. repeat split; reflexivity.
Defined.

(** *** The metadata decoder *)

Section JsonFacts.

Variable sscanf_frequency : string -> option float.
Variable sscanf_byte : string -> option Z.
Variable config : dsonar_config_t.

(** The confidence rule of [parse_json_metadata]: 1.0 needs a stored byte
    value that is positive and whose low eight bits equal the inverse-mapped
    byte; every other case, a stored 0 included, gets 0.8. *)
Lemma json_confidence_rule (f : float) (byte_val : Z) :
  (0 < byte_val /\ frequency_to_byte f config = uchar_of_Z byte_val ->
   json_confidence config f byte_val = 1.0%float)
  /\ (byte_val <= 0 \/ frequency_to_byte f config <> uchar_of_Z byte_val ->
      json_confidence config f byte_val = 0.8%float).
Proof.
  unfold json_confidence. split.
  - intros [Hpos Heq]. apply Z.ltb_lt in Hpos. apply Z.eqb_eq in Heq.
    rewrite Hpos, Heq. reflexivity.
  - intros [Hle|Hne].
    + destruct (Z.ltb_spec 0 byte_val); [lia|reflexivity].
    + apply Z.eqb_neq in Hne. rewrite Hne, andb_false_r. reflexivity.
Qed.

Lemma json_loop_spec (content : string) (lines : list (string * nat)) :
  forall (samples : reverse_sample_node_t) (sample_index : Z),
    let tags := json_frequency_lines sscanf_frequency lines in
    let out :=
      json_loop sscanf_frequency sscanf_byte config content lines samples
        sample_index in
    samples_of out.1
    = samples_of samples
      ++ imap (fun i tag =>
                 json_sample sscanf_byte config content
                   (sample_index + Z.of_nat i) tag) tags
    /\ out.2 = sample_index + Z.of_nat (length tags).
Proof.
  induction lines as [|[line pos] lines IH]; intros samples sample_index.
  - simpl. rewrite app_nil_r. split; [reflexivity | lia].
  - cbn zeta. cbn [json_loop]. unfold json_frequency_lines.
    change (omap ?f ((line, pos) :: lines))
      with (match f (line, pos) with
            | Some y => y :: omap f lines
            | None => omap f lines
            end).
    cbn [fst snd].
    destruct (strstr line (json_tag "frequency")).
    + destruct (sscanf_frequency line) as [frequency|]; cbn [fmap option_fmap option_map].
      * match goal with
        | |- context [json_loop _ _ _ _ _ ?s ?i] =>
            destruct (IH s i) as [Hs Hi]
        end.
        unfold json_frequency_lines in Hs, Hi.
        rewrite Hs, Hi, samples_of_add.
        cbn [samples_of set_confidence_score create_reverse_sample imap length].
        rewrite <- app_assoc. cbn [app].
        split; [|lia].
        f_equal. f_equal.
        -- unfold json_sample. cbn [fst snd]. rewrite Z.add_0_r. reflexivity.
        -- apply imap_ext. intros i tag _. simpl. f_equal. lia.
      * apply IH.
    + apply IH.
Qed.

(** Every frequency tag acted on yields one sample, in order, carrying the
    inverse-mapped byte; the call fails exactly when there is none. *)
Lemma parse_json_metadata_spec (content : string) :
  let tags :=
    json_frequency_lines sscanf_frequency (stream_lines 1024 content 0) in
  let out :=
    parse_json_metadata sscanf_frequency sscanf_byte config (Some content)
      NULL in
  samples_of out.2
  = imap (fun i tag => json_sample sscanf_byte config content (Z.of_nat i) tag)
      tags
  /\ out.1 = bool_decide (tags <> []).
Proof.
  intros tags out. subst out. unfold parse_json_metadata.
  destruct (json_loop_spec content (stream_lines 1024 content 0) NULL 0)
    as [Hs Hi].
  fold tags in Hs, Hi.
  destruct (json_loop _ _ _ _ _ _ _) as [samples sample_index].
  cbn [fst snd] in *. split.
  - rewrite Hs. simpl. apply imap_ext. intros. f_equal.
  - rewrite Hi. destruct tags as [|tag tags'].
    + reflexivity.
    + rewrite bool_decide_true by discriminate.
      apply Z.ltb_lt. cbn [length]. lia.
Qed.

End JsonFacts.

(** C5 at the byte 0x00: in the document that the generator writes for the
    single byte 0x00, the frequency tag 220.00 is found, the search of its
    neighbourhood finds the byte tag and stores 0, the inverse-mapped byte
    is 0 as well, and the recorded confidence is 0.8, not 1.0. *)
Theorem C5_zero_byte_confidence :
  json_frequency_lines Scan.sscanf_frequency
    (stream_lines 1024 json_zero_byte 0) = [(220.0%float, 243%nat)]
  /\ search_byte_tag Scan.sscanf_byte json_zero_byte 243 = Some 0
  /\ frequency_to_byte 220.0%float default_dsonar_config = 0
  /\ samples_of
       (parse_json_metadata Scan.sscanf_frequency Scan.sscanf_byte
          default_dsonar_config (Some json_zero_byte) NULL).2
     = [ {| reconstructed_byte := 0; source_frequency := 220.0%float;
            confidence_score := 0.8%float; sample_index := 0 |} ].
Proof. vm_compute. repeat split; reflexivity. Qed.

(** *** The acoustic decoder and its window *)

(** A window yields a sample only through an estimate equal to half the
    crossing count divided by the window duration and lying in 200..3000 Hz. *)
Lemma detect_dominant_frequency_spec (audio_buffer : list Z)
    (buffer_size sample_rate : Z) :
  let f := detect_dominant_frequency audio_buffer buffer_size sample_rate in
  (0 <? f)%float = true ->
  10 <= buffer_size
  /\ 0 < zero_crossings_of audio_buffer buffer_size
  /\ f = (double_of_int (zero_crossings_of audio_buffer buffer_size) / 2.0
          / (double_of_int buffer_size / double_of_int sample_rate))%float
  /\ (200.0 <=? f)%float = true /\ (f <=? 3000.0)%float = true.
Proof.
  unfold detect_dominant_frequency.
  destruct (Z.ltb_spec buffer_size 10) as [|Hsize]; [discriminate|].
  destruct (Z.ltb_spec 0 (zero_crossings_of audio_buffer buffer_size))
    as [Hzc|]; [|discriminate].
  cbn zeta.
  destruct (200.0 <=? _)%float eqn:Hlow; [|discriminate].
  destruct (_ <=? 3000.0)%float eqn:Hhigh; [|discriminate].
  cbn [andb]. intros _. repeat split; assumption.
Qed.

Lemma detect_is_estimate (audio_buffer : list Z) (buffer_size sample_rate : Z) :
  10 <= buffer_size ->
  detect_dominant_frequency audio_buffer buffer_size sample_rate
  = estimate_of_crossings (zero_crossings_of audio_buffer buffer_size)
      buffer_size sample_rate.
Proof.
  intros Hsize. unfold detect_dominant_frequency, estimate_of_crossings.
  destruct (Z.ltb_spec buffer_size 10); [lia | reflexivity].
Qed.

Lemma count_zero_crossings_bounds (rest : list Z) :
  forall prev zc : Z,
    zc <= count_zero_crossings prev rest zc <= zc + Z.of_nat (length rest).
Proof.
  induction rest as [|cur rest IH]; intros prev zc; simpl.
  - lia.
  - match goal with
    | |- context [count_zero_crossings cur rest ?z] =>
        pose proof (IH cur z) as H
    end.
    destruct (_ || _); lia.
Qed.

Lemma zero_crossings_of_bounds (audio_buffer : list Z) (buffer_size : Z) :
  0 <= zero_crossings_of audio_buffer buffer_size
  <= Z.max 0 (Z.of_nat (length audio_buffer) - 1).
Proof.
  unfold zero_crossings_of.
  assert (Hlen : (length (take (Z.to_nat buffer_size) audio_buffer)
                  <= length audio_buffer)%nat)
    by (rewrite length_take; lia).
  destruct (take (Z.to_nat buffer_size) audio_buffer) as [|first rest].
  - lia.
  - pose proof (count_zero_crossings_bounds rest first 0). simpl in Hlen. lia.
Qed.

(** With the shipped base frequency the window is 11 samples long. *)
Lemma default_chunk_size :
  int_of_double (base_frequency default_dsonar_config * 0.05)%float = 11.
Proof. vm_compute. reflexivity. Qed.

(** At 44100 Hz an 11-sample window has one usable crossing count, and the
    estimate it gives decodes to byte 228. *)
Lemma eleven_sample_estimates :
  forallb
    (fun zc =>
       let f := estimate_of_crossings zc 11 44100 in
       negb (0 <? f)%float
       || (frequency_to_byte f default_dsonar_config =? 228))
    (seqZ 0 11) = true.
Proof. vm_compute. reflexivity. Qed.

Lemma eleven_sample_window_byte (audio_buffer : list Z) :
  length audio_buffer = 11%nat ->
  let f := detect_dominant_frequency audio_buffer 11 44100 in
  (0 <? f)%float = true ->
  frequency_to_byte f default_dsonar_config = 228.
Proof.
  intros Hlen f Hpos. subst f.
  rewrite detect_is_estimate in * by lia.
  pose proof (zero_crossings_of_bounds audio_buffer 11) as Hzc.
  rewrite Hlen in Hzc.
  pose proof eleven_sample_estimates as Hall.
  apply Is_true_true_2, forallb_True in Hall.
  rewrite Forall_forall in Hall.
  specialize (Hall (zero_crossings_of audio_buffer 11)).
  cbn zeta in Hall. rewrite Hpos in Hall. cbn [negb orb] in Hall.
  apply Is_true_true_1, Z.eqb_eq in Hall; [exact Hall|].
  apply elem_of_seqZ. lia.
Qed.

(** Whatever a 44100 Hz container holds, the acoustic decoder with the
    shipped parameters can only produce the byte 228. *)
Lemma default_wav_bytes (bytes : list Z) (r : dsonar_result_t)
    (channels bits : Z) (unread data : list Z) :
  read_wav_header bytes = Some (44100, channels, bits, unread) ->
  reconstruct_from_wav (Some bytes) default_dsonar_config = Returns (Some r) ->
  reconstructed_data r = Some data ->
  Forall (fun b => b = 228) data.
Proof.
  intros Hhdr Hr Hdata.
  destruct (reconstruct_from_wav_spec _ _ _ Hr)
    as (sr & ch & bt & un & ss & Hhdr' & _ & Hall & Hd & _).
  rewrite Hhdr in Hhdr'. injection Hhdr' as <- <- <- <-.
  rewrite Hd in Hdata. injection Hdata as <-.
  rewrite default_chunk_size in Hall.
  rewrite Forall_fmap. eapply Forall_impl; [exact Hall|].
  intros s (audio_buffer & Hlen & Hf & Hpos & Hb & _). simpl.
  rewrite Hb, Hf. apply eleven_sample_window_byte; [lia|].
  rewrite <- Hf. exact Hpos.
Qed.

(** C7 at the tone of the claim: a container holding the 1220 Hz tone
    (base 220 + 0.5 * range 2000) for the 50 ms of one byte is cut into
    windows of 11 samples; 112 of them hold a crossing, each is estimated at
    0.5 / (11 / 44100) = 2004.5 Hz and decoded to 228 with confidence 0.7.
    No window decodes to 127, 128 or 129. *)
Theorem C7_tone_1220_decodes_to_228 :
  int_of_double (base_frequency default_dsonar_config * 0.05)%float = 11
  /\ reconstruct_from_wav (Some wav_tone_1220) default_dsonar_config
     = Returns (Some {| reconstructed_data := Some (replicate 112 228);
                        data_length := 112;
                        average_confidence := 0.7%float;
                        successful_samples := 112;
                        total_samples := 112 |})
  /\ reconstruct_from_wav
       (Some (wav_header_44100 ++ concat (le16 <$> (tone_1220 <$> seqZ 0 11))))
       default_dsonar_config = Returns None.
Proof. vm_compute. repeat split; reflexivity. Qed.

(** *** The partition combiner *)

Lemma int_of_Z_small (z : Z) :
  -2147483648 <= z < 2147483648 -> int_of_Z z = z.
Proof. intros Hz. unfold int_of_Z. rewrite Z.mod_small; lia. Qed.

Lemma int_of_Z_add_l (a b : Z) : int_of_Z (int_of_Z a + b) = int_of_Z (a + b).
Proof.
  unfold int_of_Z. f_equal.
  replace ((a + 2147483648) mod 4294967296 - 2147483648 + b + 2147483648)
    with ((a + 2147483648) mod 4294967296 + b) by lia.
  rewrite Zplus_mod_idemp_l. f_equal. lia.
Qed.

Lemma int_of_Z_idem (z : Z) : int_of_Z (int_of_Z z) = int_of_Z z.
Proof.
  apply int_of_Z_small. unfold int_of_Z.
  pose proof (Z.mod_pos_bound (z + 2147483648) 4294967296). lia.
Qed.

(** The copy loop appends the whole file and adds its size to the counter,
    modulo 2^32. *)
Lemma copy_loop_spec (fuel : nat) :
  forall (data output : list Z) (total_bytes : Z),
    (length data < fuel)%nat ->
    int_of_Z total_bytes = total_bytes ->
    copy_loop fuel data output total_bytes
    = (output ++ data, int_of_Z (total_bytes + Z.of_nat (length data))).
Proof.
  induction fuel as [|fuel IH]; intros data output total_bytes Hfuel Hint;
    [lia|].
  cbn [copy_loop].
  destruct (Z.ltb_spec 0 (Z.of_nat (length (take 4096 data)))) as [Hpos|Hzero].
  - rewrite IH.
    + rewrite <- app_assoc, take_drop, int_of_Z_add_l. f_equal. f_equal.
      rewrite <- (take_drop 4096 data) at 3. rewrite length_app. lia.
    + rewrite length_drop. rewrite length_take in Hpos. lia.
    + apply int_of_Z_idem.
  - destruct data as [|x data]; [|simpl in Hzero; lia].
    simpl. rewrite app_nil_r, Z.add_0_r, Hint. reflexivity.
Qed.

Lemma combine_fold_spec (fs : gmap string (list Z)) (indices : list Z) :
  forall (output : list Z) (total_bytes : Z),
    int_of_Z total_bytes = total_bytes ->
    foldl (combine_step fs) (output, total_bytes) indices
    = (output ++ concat (omap (fun i => fs !! partition_filename i) indices),
       int_of_Z
         (total_bytes
          + Z.of_nat
              (length
                 (concat (omap (fun i => fs !! partition_filename i) indices))))).
Proof.
  induction indices as [|i indices IH]; intros output total_bytes Hint.
  - simpl. rewrite app_nil_r, Z.add_0_r, Hint. reflexivity.
  - cbn [foldl].
    change (omap ?f (i :: indices))
      with (match f i with
            | Some y => y :: omap f indices
            | None => omap f indices
            end).
    unfold combine_step at 2. cbn [fst snd].
    destruct (fs !! partition_filename i) as [data|].
    + rewrite copy_loop_spec by (try lia; exact Hint).
      rewrite IH.
      * cbn [concat]. rewrite <- app_assoc, int_of_Z_add_l, length_app.
        f_equal. f_equal. lia.
      * apply int_of_Z_idem.
    + apply IH. exact Hint.
Qed.

Lemma partition_contents_insert_ne (fs : gmap string (list Z)) (out : string)
    (v : list Z) (partition_count : Z) :
  (forall i, 0 <= i < partition_count -> partition_filename i <> out) ->
  partition_contents (<[out := v]> fs) partition_count
  = partition_contents fs partition_count.
Proof.
  intros Hne. unfold partition_contents.
  apply list_omap_ext, Forall_Forall2_diag, Forall_forall.
  intros i Hi. apply elem_of_seqZ in Hi.
  apply lookup_insert_ne. intros Heq. apply (Hne i); [lia | congruence].
Qed.

(** The combiner on a file system in which the output name is not the name
    of a partition file: the output receives the partition files end to end
    and the flag tests the size counter, an [int]. *)
Lemma combine_partition_files_spec (fs : filesystem) (partition_count : Z)
    (original_filename : string) :
  let out := output_filename original_filename in
  let combined := concat (partition_contents (files fs) partition_count) in
  (forall i, 0 <= i < partition_count -> partition_filename i <> out) ->
  can_create fs out = true ->
  combine_partition_files fs partition_count original_filename
  = (0 <? int_of_Z (Z.of_nat (length combined)),
     {| files := <[out := combined]> (files fs); can_create := can_create fs |}).
Proof.
  intros out combined Hne Hcreate.
  unfold combine_partition_files. fold out. rewrite Hcreate. cbn [negb].
  rewrite combine_fold_spec by reflexivity.
  fold (partition_contents (<[out := []]> (files fs)) partition_count).
  rewrite partition_contents_insert_ne by exact Hne.
  fold combined. rewrite app_nil_l, Z.add_0_l. reflexivity.
Qed.

(** The output of the batch run, "dsonar_reconstructed_original_file.bin",
    is not the name of any partition file. *)
Lemma batch_output_not_partition (i : Z) :
  partition_filename i <> output_filename "original_file.bin".
Proof.
  unfold partition_filename, output_filename.
  cbv [append]. fold append. intros H.
  repeat (injection H as _ H). discriminate.
Qed.

(** Two partition files of 2^30 bytes each: all 2^31 bytes are written,
    the [int] counter wraps to -2^31, and the call reports failure. *)
Lemma combine_two_gib :
  exists data : list Z,
    combine_partition_files fs_two_gib 2 "original_file.bin"
    = (false,
       {| files := <[output_filename "original_file.bin" := data]>
                     (files fs_two_gib);
          can_create := can_create fs_two_gib |})
    /\ Z.of_nat (length data) = 2147483648.
Proof.
  rewrite combine_partition_files_spec
    by (try reflexivity; intros i _; apply batch_output_not_partition).
  unfold fs_two_gib at 1 2. cbn [files].
  assert (Hlen : Z.of_nat (length (replicate (Z.to_nat 1073741824) 0))
                 = 1073741824)
    by (rewrite length_replicate; apply Z2Nat.id; lia).
  revert Hlen. generalize (replicate (Z.to_nat 1073741824) 0).
  intros big Hlen.
  assert (Hnames : partition_filename 0 <> partition_filename 1)
    by (apply (bool_decide_eq_false_1
                 (partition_filename 0 = partition_filename 1));
        vm_compute; reflexivity).
  assert (Hcontents :
            partition_contents
              {[ partition_filename 0 := big; partition_filename 1 := big ]} 2
            = [big; big]).
  { unfold partition_contents. change (seqZ 0 2) with [0; 1].
    change (omap ?f [0; 1])
      with (match f 0 with
            | Some y => y :: match f 1 with Some z => [z] | None => [] end
            | None => match f 1 with Some z => [z] | None => [] end
            end).
    cbv beta. rewrite lookup_insert_eq.
    rewrite lookup_insert_ne by exact Hnames.
    rewrite lookup_singleton_eq. reflexivity. }
  rewrite Hcontents. cbn [concat]. rewrite app_nil_r.
  assert (Htotal : Z.of_nat (length (big ++ big)) = 2147483648)
    by (rewrite length_app, Nat2Z.inj_add, Hlen; reflexivity).
  exists (big ++ big). split; [|exact Htotal].
  rewrite Htotal. reflexivity.
Qed.

(** C8: the combiner writes the contents of the partition files that exist
    end to end in partition-index order, skipping a missing file without
    failing, whenever the output file can be created and bears the name of
    no partition file; when it cannot be created the call fails and writes
    nothing.  The flag returned is the test "the [int] counter of the bytes
    written is positive".  For fewer than 2^31 bytes that is the claim: the
    call fails if and only if zero bytes were written, and partitions of 10,
    0 (missing) and 5 bytes give a 15-byte output and success.  For two
    partitions of 2^30 bytes the counter wraps: all 2^31 bytes are written
    and the call reports failure. *)
Theorem C8_combiner :
  (forall (fs : filesystem) (partition_count : Z) (original_filename : string),
      let out := output_filename original_filename in
      let combined := concat (partition_contents (files fs) partition_count) in
      (forall i, 0 <= i < partition_count -> partition_filename i <> out) ->
      (can_create fs out = true ->
       combine_partition_files fs partition_count original_filename
       = (0 <? int_of_Z (Z.of_nat (length combined)),
          {| files := <[out := combined]> (files fs);
             can_create := can_create fs |}))
      /\ (Z.of_nat (length combined) < 2147483648 ->
          (0 <? int_of_Z (Z.of_nat (length combined)))
          = bool_decide (combined <> []))
      /\ (can_create fs out = false ->
          combine_partition_files fs partition_count original_filename
          = (false, fs)))
  /\
  (let '(flag, fs') :=
     combine_partition_files fs_three_partitions 3 "original_file.bin" in
   flag = true
   /\ files fs' !! output_filename "original_file.bin"
      = Some (replicate 10 7 ++ replicate 5 9))
  /\
  (exists data : list Z,
      combine_partition_files fs_two_gib 2 "original_file.bin"
      = (false,
         {| files := <[output_filename "original_file.bin" := data]>
                       (files fs_two_gib);
            can_create := can_create fs_two_gib |})
      /\ Z.of_nat (length data) = 2147483648).
Proof.
  split; [|split].
  - intros fs partition_count original_filename out combined Hne.
    split; [|split].
    + intros Hcreate. apply combine_partition_files_spec; assumption.
    + intros Hsize. rewrite int_of_Z_small by lia.
      destruct combined as [|x combined'].
      * reflexivity.
      * rewrite bool_decide_true by discriminate.
        apply Z.ltb_lt. cbn [length]. lia.
    + intros Hcreate. unfold combine_partition_files. fold out.
      rewrite Hcreate. reflexivity.
  - vm_compute. split; reflexivity.
  - exact combine_two_gib.
Qed.

Lemma C8_combiner_witness :
  combine_partition_files fs_three_partitions 3 "original_file.bin"
  = (true,
     {| files :=
          <[output_filename "original_file.bin"
            := replicate 10 7 ++ replicate 5 9]> (files fs_three_partitions);
        can_create := can_create fs_three_partitions |}).
Proof.
  destruct C8_combiner as [Hgen _].
  destruct (Hgen fs_three_partitions 3 "original_file.bin") as (Hok & _ & _).
  - intros i _. apply batch_output_not_partition.
  - rewrite Hok by reflexivity. f_equal.
Defined.

(** ** Part III. Further properties of the code *)

(** *** The forward mapping *)

Lemma amplitude_check :
  forallb
    (fun a =>
       forallb
         (fun b =>
            (0.1 <=? Sonar.map_byte_to_amplitude a)%float
            && (Sonar.map_byte_to_amplitude a <=? 1.0)%float
            && implb (a <? b)
                 (Sonar.map_byte_to_amplitude a
                  <? Sonar.map_byte_to_amplitude b)%float)
         (seqZ 0 256))
    (seqZ 0 256) = true.
Proof. vm_compute. reflexivity. Qed.

(** X1: the amplitude given to a byte lies between 0.1 and 1.0, the two
    bounds being reached at bytes 0 and 255, and grows strictly with the
    byte. *)
Theorem map_byte_to_amplitude_range (a b : Z) :
  0 <= a <= 255 -> 0 <= b <= 255 ->
  (0.1 <=? Sonar.map_byte_to_amplitude a)%float = true
  /\ (Sonar.map_byte_to_amplitude a <=? 1.0)%float = true
  /\ (a < b ->
      (Sonar.map_byte_to_amplitude a <? Sonar.map_byte_to_amplitude b)%float
      = true)
  /\ Sonar.map_byte_to_amplitude 0 = 0.1%float
  /\ Sonar.map_byte_to_amplitude 255 = 1.0%float.
Proof.
  intros Ha Hb.
  pose proof (all_byte_pairs _ amplitude_check a b Ha Hb) as H.
  apply andb_prop in H as [H Hmono]. apply andb_prop in H as [Hlo Hhi].
  split; [exact Hlo|]. split; [exact Hhi|]. split.
  - intros Hab. apply Z.ltb_lt in Hab. rewrite Hab in Hmono. exact Hmono.
  - split; vm_compute; reflexivity.
Qed.

Lemma map_byte_to_amplitude_range_witness :
  (0.1 <=? Sonar.map_byte_to_amplitude 65)%float = true
  /\ (Sonar.map_byte_to_amplitude 65 <=? 1.0)%float = true
  /\ (65 < 66 ->
      (Sonar.map_byte_to_amplitude 65 <? Sonar.map_byte_to_amplitude 66)%float
      = true)
  /\ Sonar.map_byte_to_amplitude 0 = 0.1%float
  /\ Sonar.map_byte_to_amplitude 255 = 1.0%float.
Proof. apply (map_byte_to_amplitude_range 65 66); lia. Defined.

Lemma default_tones_check :
  forallb
    (fun a =>
       forallb
         (fun b =>
            (220.0 <=? Sonar.map_byte_to_frequency a Sonar.default_config)%float
            && (Sonar.map_byte_to_frequency a Sonar.default_config
                <=? 2220.0)%float
            && implb (a <? b)
                 (Sonar.map_byte_to_frequency a Sonar.default_config + 7.8
                  <? Sonar.map_byte_to_frequency b Sonar.default_config)%float)
         (seqZ 0 256))
    (seqZ 0 256) = true.
Proof. vm_compute. reflexivity. Qed.

(** X2: with the default parameters the tone of every byte lies between
    220 Hz and 2220 Hz, byte 0 and byte 255 getting exactly these two, and
    the tones of two different bytes are more than 7.8 Hz apart, in the
    order of the bytes. *)
Theorem default_tones_ordered (a b : Z) :
  0 <= a <= 255 -> 0 <= b <= 255 ->
  (220.0 <=? Sonar.map_byte_to_frequency a Sonar.default_config)%float = true
  /\ (Sonar.map_byte_to_frequency a Sonar.default_config <=? 2220.0)%float = true
  /\ (a < b ->
      (Sonar.map_byte_to_frequency a Sonar.default_config + 7.8
       <? Sonar.map_byte_to_frequency b Sonar.default_config)%float = true)
  /\ Sonar.map_byte_to_frequency 0 Sonar.default_config = 220.0%float
  /\ Sonar.map_byte_to_frequency 255 Sonar.default_config = 2220.0%float.
Proof.
  intros Ha Hb.
  pose proof (all_byte_pairs _ default_tones_check a b Ha Hb) as H.
  apply andb_prop in H as [H Hmono]. apply andb_prop in H as [Hlo Hhi].
  split; [exact Hlo|]. split; [exact Hhi|]. split.
  - intros Hab. apply Z.ltb_lt in Hab. rewrite Hab in Hmono. exact Hmono.
  - split; vm_compute; reflexivity.
Qed.

Lemma default_tones_ordered_witness :
  (220.0 <=? Sonar.map_byte_to_frequency 65 Sonar.default_config)%float = true
  /\ (Sonar.map_byte_to_frequency 65 Sonar.default_config <=? 2220.0)%float
     = true
  /\ (65 < 66 ->
      (Sonar.map_byte_to_frequency 65 Sonar.default_config + 7.8
       <? Sonar.map_byte_to_frequency 66 Sonar.default_config)%float = true)
  /\ Sonar.map_byte_to_frequency 0 Sonar.default_config = 220.0%float
  /\ Sonar.map_byte_to_frequency 255 Sonar.default_config = 2220.0%float.
Proof. apply (default_tones_ordered 65 66); lia. Defined.

(** *** The list of audio samples *)

(** The sample that [create_audio_sample] makes of a byte. *)
Lemma audio_samples_of_add (head : Audio.audio_sample_node_t) (byte : Z)
    (config : Sonar.sonar_config_t) :
  Audio.samples_of
    (Audio.add_sample_to_list head (Audio.create_audio_sample byte config))
  = Audio.samples_of head
    ++ [ {| Audio.frequency := Sonar.map_byte_to_frequency byte config;
            Audio.amplitude := Sonar.map_byte_to_amplitude byte;
            Audio.duration := Sonar.sample_duration config;
            Audio.source_byte := byte |} ].
Proof.
  induction head as [|f a d b next IH]; [reflexivity|].
  simpl in *. rewrite IH. reflexivity.
Qed.

(** X3: the list that [mbx_sonar] builds for a partition has one node per
    byte, in the order of the bytes, each holding the byte, its tone, its
    amplitude and the configured duration. *)
Theorem partition_samples_in_order (partition : list Z)
    (config : Sonar.sonar_config_t) :
  Audio.samples_of (Audio.partition_samples partition config)
  = (fun byte =>
       {| Audio.frequency := Sonar.map_byte_to_frequency byte config;
          Audio.amplitude := Sonar.map_byte_to_amplitude byte;
          Audio.duration := Sonar.sample_duration config;
          Audio.source_byte := byte |}) <$> partition.
Proof.
  unfold Audio.partition_samples.
  induction partition as [|byte partition IH] using rev_ind; [reflexivity|].
  rewrite foldl_app, fmap_app. cbn [foldl].
  rewrite audio_samples_of_add, IH. reflexivity.
Qed.

(** *** The zero-crossing estimator *)

Lemma count_zero_crossings_signs (xs ys : list Z) :
  Forall2 (fun x y => (x <? 0) = (y <? 0)) xs ys ->
  forall (p q n : Z),
    (p <? 0) = (q <? 0) ->
    count_zero_crossings p xs n = count_zero_crossings q ys n.
Proof.
  induction 1 as [|x y xs ys Hxy _ IH]; intros p q n Hpq; [reflexivity|].
  cbn [count_zero_crossings].
  replace (0 <=? p) with (negb (p <? 0)) by (symmetry; apply Z.leb_antisym).
  replace (0 <=? q) with (negb (q <? 0)) by (symmetry; apply Z.leb_antisym).
  replace (0 <=? x) with (negb (x <? 0)) by (symmetry; apply Z.leb_antisym).
  replace (0 <=? y) with (negb (y <? 0)) by (symmetry; apply Z.leb_antisym).
  rewrite Hpq, Hxy. apply IH. exact Hxy.
Qed.

(** X4: the estimate of [detect_dominant_frequency] depends on the signs of
    the samples only: two buffers whose samples are negative at the same
    positions get the same estimate, whatever the magnitudes. *)
Theorem detect_depends_on_signs (xs ys : list Z) (buffer_size sample_rate : Z) :
  Forall2 (fun x y => (x <? 0) = (y <? 0)) xs ys ->
  detect_dominant_frequency xs buffer_size sample_rate
  = detect_dominant_frequency ys buffer_size sample_rate.
Proof.
  intros Hsigns. unfold detect_dominant_frequency, zero_crossings_of.
  assert (Htake : Forall2 (fun x y => (x <? 0) = (y <? 0))
                    (take (Z.to_nat buffer_size) xs)
                    (take (Z.to_nat buffer_size) ys))
    by (apply Forall2_take; exact Hsigns).
  destruct Htake as [|x y xs' ys' Hxy Hrest]; [reflexivity|].
  rewrite (count_zero_crossings_signs xs' ys' Hrest x y 0 Hxy). reflexivity.
Qed.

Lemma detect_depends_on_signs_witness :
  detect_dominant_frequency
    [1; 2; -3; -4; 5; 6; -7; -8; 9; 10; -11] 11 44100
  = detect_dominant_frequency
      [16000; 0; -1; -16000; 0; 1; -1; -1; 0; 0; -32768] 11 44100.
Proof. apply detect_depends_on_signs. repeat constructor. Defined.

(** *** The acoustic decoder with a short window *)

Lemma wav_loop_short_window (config : dsonar_config_t)
    (chunk_size sample_rate : Z) (fuel : nat) :
  chunk_size < 10 ->
  forall (pcm : list Z) (samples : reverse_sample_node_t) (sample_index : Z),
    wav_loop fuel config chunk_size sample_rate pcm samples sample_index
    = (samples, sample_index).
Proof.
  intros Hshort. induction fuel as [|fuel IH]; intros pcm samples sample_index;
    [reflexivity|].
  cbn [wav_loop]. destruct (negb _); [reflexivity|].
  unfold detect_dominant_frequency.
  destruct (Z.ltb_spec chunk_size 10) as [_|Hge]; [|lia].
  change (0 <? 0)%float with false. apply IH.
Qed.

(** [(int)x] for a double whose integral part is a non-negative [int]. *)
Lemma int_of_double_spec (y : float) (z : Z) :
  is_finite y = true -> 0 <= z <= 2147483647 ->
  (inject_Z z <= B2Q y)%Q -> (B2Q y < inject_Z z + 1)%Q ->
  int_of_double y = z.
Proof.
  unfold is_finite, B2Q, int_of_double, trunc_double.
  intros Hfin Hz Hlo Hhi.
  destruct (Prim2SF y) as [s|s| |s m e]; try discriminate; cbn [SF2Q] in *.
  - assert (Hz0 : z = 0).
    { assert (H1 : (inject_Z z <= inject_Z 0)%Q) by exact Hlo.
      rewrite <- Zle_Qle in H1. lia. }
    subst z. reflexivity.
  - pose proof (SF2Q_finite_pos m e) as Hpos.
    assert (Hz0 : (0 <= inject_Z z)%Q).
    { change 0%Q with (inject_Z 0). rewrite <- Zle_Qle. lia. }
    destruct s; [lra|].
    rewrite shiftl_Qfloor, (Qfloor_unique _ z Hlo Hhi).
    destruct (Z.leb_spec (-2147483648) z); [|lia].
    destruct (Z.leb_spec z 2147483647); [reflexivity|lia].
Qed.

(** For a base frequency from 21 Hz to 199 Hz the analysis window has
    between 1 and 9 samples. *)
Lemma window_size_bounds (base : float) :
  (21.0 <=? base)%float = true -> (base <=? 199.0)%float = true ->
  1 <= int_of_double (base * 0.05)%float <= 9.
Proof.
  intros Hlo Hhi.
  assert (F21 : is_finite 21.0 = true) by reflexivity.
  assert (F199 : is_finite 199.0 = true) by reflexivity.
  assert (F005 : is_finite 0.05 = true) by reflexivity.
  assert (FB : is_finite base = true)
    by (apply (leb_between_finite _ _ _ F21 F199 Hlo Hhi)).
  apply (leb_B2Q _ _ F21 FB) in Hlo. apply (leb_B2Q _ _ FB F199) in Hhi.
  assert (E21 : (B2Q 21.0 == 21)%Q)
    by (apply Qeq_bool_eq; vm_compute; reflexivity).
  assert (E199 : (B2Q 199.0 == 199)%Q)
    by (apply Qeq_bool_eq; vm_compute; reflexivity).
  assert (E005 : (B2Q 0.05 == 3602879701896397 # 72057594037927936)%Q)
    by (apply Qeq_bool_eq; vm_compute; reflexivity).
  rewrite E21 in Hlo. rewrite E199 in Hhi.
  destruct (mul_error base 0.05 10 FB F005) as (Fy & Hy1 & Hy2);
    [rewrite E005; lra | rewrite E005; lra | apply no_overflow_abs; lra |].
  rewrite E005 in Hy1, Hy2.
  destruct (rounding_abs _ _ 10 ltac:(lra) Hy1 Hy2) as [Hy1' Hy2'].
  clear Hy1 Hy2.
  set (y := (base * 0.05)%float) in *.
  pose proof (Qfloor_le (B2Q y)) as Hk1. pose proof (Qlt_floor (B2Q y)) as Hk2.
  rewrite inject_Z_plus in Hk2. change (inject_Z 1) with 1%Q in Hk2.
  set (k := Qfloor (B2Q y)) in *.
  assert (Hk : 1 <= k <= 9).
  { assert (H1 : (inject_Z 0 < inject_Z k)%Q)
      by (change (inject_Z 0) with 0%Q; lra).
    assert (H2 : (inject_Z k < inject_Z 10)%Q)
      by (change (inject_Z 10) with 10%Q; lra).
    rewrite <- Zlt_Qlt in H1, H2. lia. }
  rewrite (int_of_double_spec y k Fy); [exact Hk | lia | lra | lra].
Qed.

(** X5: the acoustic decoder analyses windows of
    [(int)(base_frequency * 0.05)] samples and the estimator refuses windows
    of fewer than 10 samples, so whenever that window size is below 10 and
    other than 0, and in particular for every base frequency from 21 Hz to
    199 Hz, [reconstruct_from_wav] returns NULL for every file. *)
Theorem short_window_decodes_nothing (wav_file : option (list Z))
    (config : dsonar_config_t) :
  (int_of_double (base_frequency config * 0.05)%float < 10 ->
   int_of_double (base_frequency config * 0.05)%float <> 0 ->
   reconstruct_from_wav wav_file config = Returns None)
  /\ ((21.0 <=? base_frequency config)%float = true ->
      (base_frequency config <=? 199.0)%float = true ->
      reconstruct_from_wav wav_file config = Returns None).
Proof.
  assert (Hgen : int_of_double (base_frequency config * 0.05)%float < 10 ->
                 int_of_double (base_frequency config * 0.05)%float <> 0 ->
                 reconstruct_from_wav wav_file config = Returns None).
  { intros Hshort Hne. unfold reconstruct_from_wav.
    destruct wav_file as [bytes|]; [|reflexivity].
    destruct (read_wav_header bytes)
      as [[[[sample_rate channels] bits] unread]|]; [|reflexivity].
    destruct (_ <? 0); [reflexivity|].
    destruct (Z.eqb_spec (int_of_double (base_frequency config * 0.05)%float) 0)
      as [H0|_]; [contradiction|].
    rewrite wav_loop_short_window by exact Hshort. reflexivity. }
  split; [exact Hgen|].
  intros Hlo Hhi.
  pose proof (window_size_bounds _ Hlo Hhi) as Hwindow.
  apply Hgen; lia.
Qed.

Lemma short_window_decodes_nothing_witness :
  reconstruct_from_wav (Some wav_tone_1220)
    {| base_frequency := 199.0%float; frequency_range := 2000.0%float;
       tolerance := 5.0%float; strict_mode := false; input_format := "wav" |}
  = Returns None.
Proof.
  apply short_window_decodes_nothing; vm_compute; reflexivity.
Defined.

(** *** The second table parser *)

Section CsvFrequencyFacts.

Variable sscanf_csv : string -> option csv_row.
Variable config : dsonar_config_t.

Lemma csv_frequency_loop_spec (lines : list (string * nat)) :
  forall (samples : reverse_sample_node_t) (sample_index : Z),
    let rows := parsed_rows sscanf_csv lines in
    let out := csv_frequency_loop sscanf_csv config lines samples sample_index in
    samples_of out.1
    = samples_of samples
      ++ imap (fun i row =>
                 {| reconstructed_byte := frequency_to_byte (frequency row) config;
                    source_frequency := frequency row;
                    confidence_score := 0.95%float;
                    sample_index := sample_index + Z.of_nat i |}) rows
    /\ out.2 = sample_index + Z.of_nat (length rows).
Proof.
  induction lines as [|[line pos] lines IH]; intros samples sample_index.
  - simpl. rewrite app_nil_r. split; [reflexivity | lia].
  - cbn zeta. cbn [csv_frequency_loop]. unfold parsed_rows.
    change (omap ?f ((line, pos) :: lines))
      with (match f (line, pos) with
            | Some y => y :: omap f lines
            | None => omap f lines
            end).
    cbn [fst].
    destruct (sscanf_csv line) as [row|].
    + match goal with
      | |- context [csv_frequency_loop _ _ _ ?s ?i] =>
          destruct (IH s i) as [Hs Hi]
      end.
      unfold parsed_rows in Hs, Hi.
      rewrite Hs, Hi, samples_of_add.
      cbn [samples_of set_confidence_score create_reverse_sample imap length].
      rewrite <- app_assoc. cbn [app].
      split; [|lia].
      f_equal. f_equal.
      * rewrite Z.add_0_r. reflexivity.
      * apply imap_ext. intros i row' _. simpl. f_equal. lia.
    + apply IH.
Qed.

End CsvFrequencyFacts.

(** X6: [parse_csv_frequency_data] skips the header line and makes one
    sample of every later line that [sscanf] converts in full, in line order:
    its byte is the inverse-mapped frequency field (the byte fields of the
    row are not used), its confidence 0.95, its index the number of samples
    before it; the call returns false exactly when no line converts. *)
Theorem parse_csv_frequency_data_spec
    (sscanf_csv : string -> option csv_row) (config : dsonar_config_t)
    (content header unread : string) :
  fgets 512 content = Some (header, unread) ->
  let rows :=
    parsed_rows sscanf_csv (stream_lines 512 content (String.length header)) in
  let out := parse_csv_frequency_data sscanf_csv config (Some content) NULL in
  samples_of out.2
  = imap (fun i row =>
            {| reconstructed_byte := frequency_to_byte (frequency row) config;
               source_frequency := frequency row;
               confidence_score := 0.95%float;
               sample_index := Z.of_nat i |}) rows
  /\ out.1 = bool_decide (rows <> []).
Proof.
  intros Hhdr rows out. subst out. unfold parse_csv_frequency_data.
  rewrite Hhdr.
  destruct (csv_frequency_loop_spec sscanf_csv config
              (stream_lines 512 content (String.length header)) NULL 0)
    as [Hs Hi].
  fold rows in Hs, Hi.
  destruct (csv_frequency_loop _ _ _ _ _) as [samples sample_index].
  cbn [fst snd] in *. split.
  - rewrite Hs. simpl. apply imap_ext. intros. f_equal.
  - rewrite Hi. destruct rows as [|row rows'].
    + reflexivity.
    + rewrite bool_decide_true by discriminate.
      apply Z.ltb_lt. cbn [length]. lia.
Qed.

Lemma parse_csv_frequency_data_spec_witness :
  reconstructed_byte <$>
    samples_of
      (parse_csv_frequency_data Scan.sscanf_csv default_dsonar_config
         (Some csv_example) NULL).2 = [65; 66; 67]
  /\ (parse_csv_frequency_data Scan.sscanf_csv default_dsonar_config
        (Some csv_example) NULL).1 = true.
Proof.
  destruct (parse_csv_frequency_data_spec Scan.sscanf_csv default_dsonar_config
              csv_example
              (text_line "Sample,Byte_Hex,Byte_Dec,Frequency_Hz,Amplitude,Duration_s")
              (string_drop 59 csv_example)) as [Hs Hflag].
  - vm_compute. reflexivity.
  - rewrite Hs, Hflag. vm_compute. split; reflexivity.
Defined.

(** *** Text streams made of whole lines *)

Lemma string_app_assoc (a b c : string) : (a +:+ b) +:+ c = a +:+ (b +:+ c).
Proof.
  induction a as [|x a IH]; [reflexivity|].
  change (String x ((a +:+ b) +:+ c) = String x (a +:+ (b +:+ c))).
  rewrite IH. reflexivity.
Qed.

Lemma string_app_nil_r (a : string) : a +:+ EmptyString = a.
Proof.
  induction a as [|x a IH]; [reflexivity|].
  change (String x (a +:+ EmptyString) = String x a). rewrite IH. reflexivity.
Qed.

Lemma string_concat_app (xs ys : list string) :
  string_concat (xs ++ ys) = string_concat xs +:+ string_concat ys.
Proof.
  induction xs as [|x xs IH]; [reflexivity|].
  cbn [app string_concat foldr]. fold (string_concat (xs ++ ys)).
  fold (string_concat xs). rewrite IH, string_app_assoc. reflexivity.
Qed.

Lemma string_drop_app (a b : string) :
  string_drop (String.length a) (a +:+ b) = b.
Proof.
  induction a as [|x a IH]; [apply string_drop_0|]. exact IH.
Qed.

(** More fuel than there are characters changes nothing. *)
Lemma stream_lines_fuel_enough (size : nat) :
  (2 <= size)%nat ->
  forall (fuel1 fuel2 : nat) (s : string) (pos : nat),
    (String.length s <= fuel1)%nat -> (String.length s <= fuel2)%nat ->
    stream_lines_fuel fuel1 size s pos = stream_lines_fuel fuel2 size s pos.
Proof.
  intros Hsize. induction fuel1 as [|fuel1 IH]; intros fuel2 s pos H1 H2.
  - destruct s; [|simpl in H1; lia]. destruct fuel2; reflexivity.
  - destruct s as [|c rest]; [destruct fuel2; reflexivity|].
    destruct fuel2 as [|fuel2]; [simpl in H2; lia|].
    cbn [stream_lines_fuel fgets].
    pose proof (fgets_line_app (size - 1) (String c rest)) as Happ.
    pose proof (fgets_line_progress (size - 1) c rest ltac:(lia)) as Hprog.
    destruct (fgets_line (size - 1) (String c rest)) as [line unread].
    cbn [fst snd] in *.
    assert (Hlen : String.length (line +:+ unread)
                   = String.length (String c rest)) by (rewrite Happ; reflexivity).
    rewrite string_length_app in Hlen. simpl in Hlen, H1, H2.
    f_equal. apply IH; lia.
Qed.

Lemma first_line_of_line (line rest : string) :
  is_line line = true -> first_line (line +:+ rest) = (line, rest).
Proof.
  induction line as [|c line IH]; [discriminate|]. intros Hline.
  cbn [is_line] in Hline.
  change (String c line +:+ rest) with (String c (line +:+ rest)).
  cbn [first_line]. destruct (Ascii.eqb c newline).
  - destruct line; [reflexivity | discriminate].
  - rewrite IH by exact Hline. reflexivity.
Qed.

Lemma fgets_of_line (size : nat) (line rest : string) :
  is_line line = true -> (String.length line <= size - 1)%nat ->
  fgets size (line +:+ rest) = Some (line, rest).
Proof.
  intros Hline Hlen. destruct line as [|c line]; [discriminate|].
  change (String c line +:+ rest) with (String c (line +:+ rest)).
  cbn [fgets]. f_equal.
  change (String c (line +:+ rest)) with (String c line +:+ rest).
  rewrite fgets_whole_line; rewrite first_line_of_line by exact Hline;
    [reflexivity | exact Hlen].
Qed.

Lemma is_line_length (line : string) :
  is_line line = true -> (1 <= String.length line)%nat.
Proof. destruct line; [discriminate | simpl; lia]. Qed.

(** Lines that fit the buffer are read one per [fgets]. *)
Lemma stream_lines_fuel_lines (size : nat) (rest : string) :
  (2 <= size)%nat ->
  forall (lines : list string) (pos : nat),
    Forall (fun line => is_line line = true
                        /\ (String.length line <= size - 1)%nat) lines ->
    stream_lines_fuel (String.length (string_concat lines +:+ rest)) size
      (string_concat lines +:+ rest) pos
    = line_positions pos lines
      ++ stream_lines_fuel (String.length rest) size rest
           (pos + String.length (string_concat lines)).
Proof.
  intros Hsize. induction lines as [|line lines IH]; intros pos Hall.
  - simpl. rewrite Nat.add_0_r. reflexivity.
  - inversion Hall as [|? ? [Hline Hlen] Hrest]; subst.
    cbn [string_concat foldr line_positions]. fold (string_concat lines).
    rewrite string_app_assoc.
    pose proof (is_line_length line Hline) as Hpos.
    rewrite !string_length_app.
    destruct (String.length line) as [|n] eqn:Hn; [lia|].
    cbn [Nat.add stream_lines_fuel].
    rewrite fgets_of_line by (rewrite ?Hn; assumption).
    rewrite Hn. cbn [app]. f_equal.
    rewrite (stream_lines_fuel_enough size Hsize _
               (String.length (string_concat lines +:+ rest)))
      by (rewrite ?string_length_app; lia).
    rewrite IH by exact Hrest.
    f_equal. f_equal. lia.
Qed.

Lemma stream_lines_after (size : nat) (a b : string) :
  stream_lines size (a +:+ b) (String.length a)
  = stream_lines_fuel (String.length b) size b (String.length a).
Proof. unfold stream_lines. rewrite string_drop_app. reflexivity. Qed.

Lemma stream_lines_of_lines (size : nat) (lines : list string) :
  (2 <= size)%nat ->
  Forall (fun line => is_line line = true
                      /\ (String.length line <= size - 1)%nat) lines ->
  stream_lines size (string_concat lines) 0 = line_positions 0 lines.
Proof.
  intros Hsize Hall. unfold stream_lines. rewrite string_drop_0.
  pose proof (stream_lines_fuel_lines size EmptyString Hsize lines 0 Hall) as H.
  rewrite string_app_nil_r in H. rewrite H. simpl. apply app_nil_r.
Qed.

Lemma line_positions_fst (pos : nat) (lines : list string) :
  (line_positions pos lines).*1 = lines.
Proof.
  revert pos. induction lines as [|line lines IH]; intros pos; [reflexivity|].
  simpl. rewrite IH. reflexivity.
Qed.

Lemma Forall_line_positions (P : string -> Prop) (lines : list string) :
  Forall P lines ->
  forall pos : nat, Forall (fun l => P l.1) (line_positions pos lines).
Proof.
  induction 1 as [|line lines Hline _ IH]; intros pos; constructor;
    [exact Hline | apply IH].
Qed.

Lemma line_positions_app (pos : nat) (xs ys : list string) :
  line_positions pos (xs ++ ys)
  = line_positions pos xs
    ++ line_positions (pos + String.length (string_concat xs)) ys.
Proof.
  revert pos. induction xs as [|x xs IH]; intros pos.
  - simpl. rewrite Nat.add_0_r. reflexivity.
  - cbn [app line_positions string_concat foldr]. fold (string_concat xs).
    rewrite IH, string_length_app. cbn [app]. do 3 f_equal. lia.
Qed.

(** *** Characters that do not occur *)

Lemma occurs_app (c : ascii) (a b : string) :
  occurs c (a +:+ b) = occurs c a || occurs c b.
Proof.
  induction a as [|x a IH]; [reflexivity|].
  change (occurs c (String x (a +:+ b))
          = occurs c (String x a) || occurs c b).
  cbn [occurs]. rewrite IH, orb_assoc. reflexivity.
Qed.

Lemma prefix_occurs (c : ascii) (needle haystack : string) :
  String.prefix needle haystack = true ->
  occurs c needle = true -> occurs c haystack = true.
Proof.
  revert haystack. induction needle as [|a needle IH]; intros haystack Hp Hc;
    [discriminate|].
  destruct haystack as [|b haystack]; [discriminate|].
  cbn [String.prefix] in Hp. destruct (ascii_dec a b) as [->|]; [|discriminate].
  cbn [occurs] in *. apply orb_prop in Hc as [Hc|Hc].
  - rewrite Hc. reflexivity.
  - rewrite (IH haystack Hp Hc). apply orb_true_r.
Qed.

(** A character that does not occur in a buffer does not occur in the C
    string it holds. *)
Lemma occurs_c_string (c : ascii) (buffer : string) :
  occurs c buffer = false -> occurs c (c_string buffer) = false.
Proof.
  induction buffer as [|b buffer IH]; intros H; [reflexivity|].
  cbn [c_string]. destruct (Ascii.eqb b zero); [reflexivity|].
  cbn [occurs] in *. apply orb_false_elim in H as [Hb H].
  rewrite Hb, (IH H). reflexivity.
Qed.

(** A text in which some character of the needle does not occur does not
    contain the needle. *)
Lemma strstr_absent (c : ascii) (needle haystack : string) :
  occurs c needle = true -> occurs c haystack = false ->
  strstr haystack needle = false.
Proof.
  intros Hneedle Hhay. apply occurs_c_string in Hhay.
  unfold strstr. revert Hhay. generalize (c_string haystack).
  clear haystack. intros haystack.
  induction haystack as [|b haystack IH]; intros Hhay.
  - destruct needle; [discriminate | reflexivity].
  - cbn [String.index].
    destruct (String.prefix needle (String b haystack)) eqn:Hp.
    + rewrite (prefix_occurs c _ _ Hp Hneedle) in Hhay. discriminate.
    + cbn [occurs] in Hhay. apply orb_false_elim in Hhay as [_ Hhay].
      specialize (IH Hhay).
      destruct (String.index 0 needle haystack); [discriminate | reflexivity].
Qed.

(** *** Decimal notation: what [%d] prints, [%d] reads back *)

Lemma digit_of_char (d : N) :
  (d < 10)%N -> Scan.digit (pretty_N_char d) = Some (Z.of_N d).
Proof.
  intros Hd.
  assert (d = 0 \/ d = 1 \/ d = 2 \/ d = 3 \/ d = 4 \/ d = 5 \/ d = 6
          \/ d = 7 \/ d = 8 \/ d = 9)%N as H by lia.
  repeat (destruct H as [->|H]; [reflexivity|]). subst d. reflexivity.
Qed.

Lemma pretty_N_go_app (x : N) :
  forall s : string, pretty_N_go x s = pretty_N_go x EmptyString +:+ s.
Proof.
  induction (N.lt_wf_0 x) as [x _ IH]. intros s.
  destruct (N.eq_dec x 0%N) as [->|Hx]; [reflexivity|].
  rewrite (pretty_N_go_step x s), (pretty_N_go_step x EmptyString) by lia.
  rewrite (IH (x `div` 10)%N) by (apply N.div_lt; lia).
  rewrite (IH (x `div` 10)%N ltac:(apply N.div_lt; lia) (String _ EmptyString)).
  rewrite string_app_assoc. reflexivity.
Qed.

Lemma pretty_N_go_snoc (x : N) :
  (0 < x)%N ->
  pretty_N_go x EmptyString
  = pretty_N_go (x `div` 10)%N EmptyString
    +:+ String (pretty_N_char (x `mod` 10)%N) EmptyString.
Proof.
  intros Hx. rewrite pretty_N_go_step by exact Hx. apply pretty_N_go_app.
Qed.

(** Reading the digits that were printed gives the number back. *)
Lemma digits_of_pretty (x : N) :
  forall (rest : string) (acc : Z) (count : nat),
    Scan.digits Scan.digit 10 (pretty_N_go x EmptyString +:+ rest) acc count
    = Scan.digits Scan.digit 10 rest
        (acc * 10 ^ Z.of_nat (String.length (pretty_N_go x EmptyString))
         + Z.of_N x)
        (count + String.length (pretty_N_go x EmptyString)).
Proof.
  induction (N.lt_wf_0 x) as [x _ IH]. intros rest acc count.
  destruct (N.eq_dec x 0%N) as [->|Hx].
  - rewrite pretty_N_go_0. simpl. rewrite Nat.add_0_r. f_equal. lia.
  - rewrite pretty_N_go_snoc by lia.
    rewrite string_app_assoc, IH by (apply N.div_lt; lia).
    change (String ?c EmptyString +:+ rest) with (String c rest).
    cbn [Scan.digits].
    rewrite digit_of_char by (apply N.mod_lt; lia).
    rewrite string_length_app. cbn [String.length].
    f_equal; [|lia].
    rewrite Nat2Z.inj_add, Z.pow_add_r by lia.
    change (10 ^ Z.of_nat 1) with 10.
    assert (Hdm : Z.of_N x
                  = 10 * Z.of_N (x `div` 10)%N + Z.of_N (x `mod` 10)%N).
    { rewrite <- (N2Z.inj_mul 10), <- N2Z.inj_add. f_equal.
      apply N.div_mod. lia. }
    rewrite Hdm. ring.
Qed.

Lemma pretty_N_go_length (k : nat) :
  forall x : N,
    (Z.of_N x < 10 ^ Z.of_nat k) ->
    (String.length (pretty_N_go x EmptyString) <= k)%nat.
Proof.
  induction k as [|k IH]; intros x Hx.
  - assert (x = 0%N) as -> by (simpl in Hx; lia). simpl. lia.
  - destruct (N.eq_dec x 0%N) as [->|Hne]; [simpl; lia|].
    rewrite pretty_N_go_snoc, string_length_app by lia. simpl.
    assert (Hdiv : Z.of_N (x `div` 10)%N < 10 ^ Z.of_nat k).
    { rewrite N2Z.inj_div. simpl Z.of_N.
      apply Z.div_lt_upper_bound; [lia|].
      rewrite Nat2Z.inj_succ, Z.pow_succ_r in Hx by lia. exact Hx. }
    specialize (IH _ Hdiv). lia.
Qed.

Lemma pretty_N_go_head (x : N) :
  (0 < x)%N ->
  exists (c : ascii) (tail : string) (d : Z),
    pretty_N_go x EmptyString = String c tail /\ Scan.digit c = Some d.
Proof.
  induction (N.lt_wf_0 x) as [x _ IH]. intros Hx.
  rewrite pretty_N_go_snoc by exact Hx.
  destruct (N.eq_dec (x `div` 10)%N 0%N) as [->|Hne].
  - rewrite pretty_N_go_0. eexists _, _, _. split; [reflexivity|].
    apply digit_of_char, N.mod_lt. lia.
  - destruct (IH (x `div` 10)%N) as (c & tail & d & Heq & Hd);
      [apply N.div_lt; lia | apply N.neq_0_lt_0; exact Hne |].
    rewrite Heq. exists c, (tail +:+ String (pretty_N_char (x `mod` 10)%N) EmptyString), d.
    split; [reflexivity | exact Hd].
Qed.

(** A character that is not a digit does not occur in a printed number. *)
Lemma occurs_pretty_N_go (c : ascii) (x : N) :
  Scan.digit c = None ->
  forall s : string, occurs c (pretty_N_go x s) = occurs c s.
Proof.
  intros Hc. induction (N.lt_wf_0 x) as [x _ IH]. intros s.
  destruct (N.eq_dec x 0%N) as [->|Hx]; [reflexivity|].
  rewrite pretty_N_go_step by lia.
  rewrite IH by (apply N.div_lt; lia). cbn [occurs].
  destruct (Ascii.eqb_spec c (pretty_N_char (x `mod` 10)%N)) as [->|_];
    [|reflexivity].
  rewrite digit_of_char in Hc by (apply N.mod_lt; lia). discriminate.
Qed.

Lemma pretty_pos (p : positive) :
  pretty (Z.pos p) = pretty_N_go (N.pos p) EmptyString.
Proof. reflexivity. Qed.

Lemma occurs_pretty (c : ascii) (z : Z) :
  Scan.digit c = None -> c <> "-"%char -> occurs c (pretty z) = false.
Proof.
  intros Hc Hdash. destruct z as [|p|p].
  - change (pretty 0) with "0". cbn [occurs].
    destruct (Ascii.eqb_spec c "0"%char) as [->|_]; [discriminate | reflexivity].
  - rewrite pretty_pos, occurs_pretty_N_go by exact Hc. reflexivity.
  - change (pretty (Z.neg p))
      with (String "-"%char (pretty_N_go (N.pos p) EmptyString)).
    cbn [occurs]. rewrite occurs_pretty_N_go by exact Hc.
    destruct (Ascii.eqb_spec c "-"%char); [contradiction | reflexivity].
Qed.

Lemma digit_not_space_or_sign (c : ascii) (d : Z) (tail : string) :
  Scan.digit c = Some d ->
  Scan.skip_space (String c tail) = String c tail
  /\ Scan.sign (String c tail) = (false, String c tail).
Proof.
  unfold Scan.digit. intros H.
  destruct (Z.leb_spec 48 (Z.of_nat (nat_of_ascii c))) as [Hlo|];
    [|discriminate].
  destruct (Z.leb_spec (Z.of_nat (nat_of_ascii c)) 57) as [Hhi|];
    [|discriminate].
  clear H. rewrite <- (ascii_nat_embedding c).
  assert (Hn : (nat_of_ascii c = 48 \/ nat_of_ascii c = 49
                \/ nat_of_ascii c = 50 \/ nat_of_ascii c = 51
                \/ nat_of_ascii c = 52 \/ nat_of_ascii c = 53
                \/ nat_of_ascii c = 54 \/ nat_of_ascii c = 55
                \/ nat_of_ascii c = 56 \/ nat_of_ascii c = 57)%nat) by lia.
  repeat (destruct Hn as [->|Hn]; [split; reflexivity|]).
  rewrite Hn. split; reflexivity.
Qed.

(** [%d] reads back a number of at most nine digits that [%d] printed, and
    stops after it when the next character is not a digit. *)
Lemma conv_d_pretty (i : Z) (rest : string) :
  0 <= i < 1000000000 ->
  match rest with
  | EmptyString => True
  | String c _ => Scan.digit c = None
  end ->
  Scan.conv_d (pretty i +:+ rest) = Some (i, rest).
Proof.
  intros Hi Hrest.
  assert (Hstop : forall acc count,
             Scan.digits Scan.digit 10 rest acc count = (acc, count, rest)).
  { intros acc count. destruct rest as [|c rest']; [reflexivity|].
    cbn [Scan.digits]. rewrite Hrest. reflexivity. }
  destruct i as [|p|p]; [| |lia].
  - change (pretty 0 +:+ rest) with (String "0"%char rest).
    unfold Scan.conv_d.
    destruct (digit_not_space_or_sign "0"%char 0 rest eq_refl) as [-> ->].
    cbn [Scan.digits]. change (Scan.digit "0") with (Some 0).
    cbv iota beta. rewrite Hstop. reflexivity.
  - rewrite pretty_pos.
    destruct (pretty_N_go_head (N.pos p) ltac:(lia)) as (c & tail & d & Heq & Hd).
    pose proof (digits_of_pretty (N.pos p) rest 0 0%nat) as Hdigits.
    pose proof (pretty_N_go_length 9 (N.pos p) ltac:(simpl; lia)) as Hlen.
    unfold Scan.conv_d.
    assert (Hhead : pretty_N_go (N.pos p) EmptyString +:+ rest
                    = String c (tail +:+ rest)) by (rewrite Heq; reflexivity).
    rewrite Hhead at 1.
    destruct (digit_not_space_or_sign c d (tail +:+ rest) Hd) as [-> ->].
    rewrite <- Hhead, Hdigits, Hstop.
    rewrite Heq in *. cbn [String.length] in *.
    destruct (Nat.eqb_spec (0 + S (String.length tail)) 0) as [|_]; [lia|].
    destruct (Nat.ltb_spec 9 (0 + S (String.length tail))) as [|_]; [lia|].
    cbn [orb]. f_equal.
Qed.

(** *** The frequency table: what the generator writes, the decoder reads *)

Lemma partition_samples_spec (partition : list Z)
    (config : Sonar.sonar_config_t) :
  Audio.samples_of (Audio.partition_samples partition config)
  = sample_of_byte config <$> partition.
Proof.
  unfold Audio.partition_samples.
  induction partition as [|byte partition IH] using rev_ind; [reflexivity|].
  rewrite foldl_app, fmap_app. cbn [foldl].
  rewrite audio_samples_of_add, IH. reflexivity.
Qed.

Lemma frequency_rows_lines (head : Audio.audio_sample_node_t) :
  forall index : Z,
    Engine.frequency_rows head index
    = string_concat
        (imap (fun k s =>
                 Print.conv_d (index + Z.of_nat k) +:+ frequency_row_fields s)
           (Audio.samples_of head)).
Proof.
  induction head as [|f a d b next IH]; intros index; [reflexivity|].
  cbn [Engine.frequency_rows Audio.samples_of imap string_concat foldr].
  rewrite IH, Z.add_0_r. f_equal.
  unfold string_concat. apply (f_equal (foldr append EmptyString)).
  apply imap_ext. intros k s _.
  cbn [compose]. do 2 f_equal. lia.
Qed.

Lemma is_line_app (a t : string) :
  occurs newline a = false -> is_line (a +:+ t) = is_line t.
Proof.
  induction a as [|c a IH]; [reflexivity|]. intros Hno.
  cbn [occurs] in Hno. apply orb_false_elim in Hno as [Hc Ha].
  change (String c a +:+ t) with (String c (a +:+ t)). cbn [is_line].
  rewrite Ascii.eqb_sym, Hc. apply IH, Ha.
Qed.

Lemma sscanf_csv_first_field (l1 l2 t : string) (n1 n2 : Z) :
  Scan.conv_d l1 = Some (n1, t) -> Scan.conv_d l2 = Some (n2, t) ->
  byte_dec <$> Scan.sscanf_csv l1 = byte_dec <$> Scan.sscanf_csv l2.
Proof.
  intros H1 H2. unfold Scan.sscanf_csv. rewrite H1, H2.
  cbn [mbind option_bind].
  destruct (Scan.literal "," t) as [s|]; [|reflexivity].
  cbn [mbind option_bind].
  destruct (Scan.conv_scanset s) as [[hex s0]|]; [|reflexivity].
  cbn [mbind option_bind].
  destruct (Scan.literal "," s0) as [s1|]; [|reflexivity].
  cbn [mbind option_bind].
  destruct (Scan.conv_d s1) as [[dec s2]|]; [|reflexivity].
  cbn [mbind option_bind].
  destruct (Scan.literal "," s2) as [s3|]; [|reflexivity].
  cbn [mbind option_bind].
  destruct (Scan.conv_lf s3) as [[freq s4]|]; [|reflexivity].
  cbn [mbind option_bind].
  destruct (Scan.literal "," s4) as [s5|]; [|reflexivity].
  cbn [mbind option_bind].
  destruct (Scan.conv_lf s5) as [[amp s6]|]; [|reflexivity].
  cbn [mbind option_bind].
  destruct (Scan.literal "," s6) as [s7|]; [|reflexivity].
  cbn [mbind option_bind].
  destruct (Scan.conv_lf s7) as [[dur s8]|]; reflexivity.
Qed.

Lemma frequency_row_check :
  forallb
    (fun b =>
       let t := frequency_row_fields (sample_of_byte Sonar.default_config b) in
       is_line t
       && (String.length t <=? 500)%nat
       && bool_decide (Scan.conv_d (String "0" t) = Some (0, t))
       && bool_decide (byte_dec <$> Scan.sscanf_csv (String "0" t) = Some b))
    (seqZ 0 256) = true.
Proof. vm_compute. reflexivity. Qed.

(** The row written for sample [k], byte [b], is one line that fits the
    decoder's buffer and from which [sscanf] converts the byte [b]. *)
Lemma frequency_row_scans (k b : Z) :
  0 <= k < 1000000000 -> 0 <= b <= 255 ->
  let line :=
    Print.conv_d k
    +:+ frequency_row_fields (sample_of_byte Sonar.default_config b) in
  is_line line = true
  /\ (String.length line <= 511)%nat
  /\ exists row : csv_row,
       Scan.sscanf_csv line = Some row /\ byte_dec row = b.
Proof.
  intros Hk Hb line. subst line.
  pose proof (all_bytes _ frequency_row_check b Hb) as H. cbv zeta in H.
  set (t := frequency_row_fields (sample_of_byte Sonar.default_config b)) in *.
  apply andb_prop in H as [H Hscan]. apply andb_prop in H as [H Hzero].
  apply andb_prop in H as [Hline Hlen].
  apply bool_decide_eq_true_1 in Hscan, Hzero. apply Nat.leb_le in Hlen.
  unfold Print.conv_d.
  assert (Hconv : Scan.conv_d (pretty k +:+ t) = Some (k, t)).
  { apply conv_d_pretty; [exact Hk|].
    change (Scan.digit ","%char = None). reflexivity. }
  split; [|split].
  - rewrite is_line_app; [exact Hline|].
    apply occurs_pretty; [reflexivity | discriminate].
  - rewrite string_length_app.
    assert (String.length (pretty k) <= 9)%nat; [|subst t; lia].
    destruct k as [|p|p]; [simpl; lia | | lia].
    rewrite pretty_pos. apply pretty_N_go_length. simpl. lia.
  - pose proof (sscanf_csv_first_field _ _ t k 0 Hconv Hzero) as Hsame.
    rewrite Hscan in Hsame.
    destruct (Scan.sscanf_csv (pretty k +:+ t)) as [row|]; [|discriminate].
    exists row. split; [reflexivity|]. simpl in Hsame. congruence.
Qed.

Lemma string_of_bytes_of_string (s : string) :
  string_of_bytes (bytes_of_string s) = s.
Proof.
  unfold string_of_bytes, bytes_of_string.
  rewrite <- list_fmap_compose.
  rewrite <- (string_of_list_ascii_of_string s) at 2. f_equal.
  rewrite <- (list_fmap_id (list_ascii_of_string s)) at 2.
  apply list_fmap_ext. intros i c _. cbn [compose].
  rewrite Nat2Z.id. apply ascii_nat_embedding.
Qed.

(** What the table decoder makes of the table written for the bytes [bs]. *)
Lemma frequency_table_decodes (bs : list Z) :
  bs <> [] ->
  Forall (fun b => 0 <= b <= 255) bs ->
  Z.of_nat (length bs) <= 1000000000 ->
  exists r : dsonar_result_t,
    reconstruct_from_csv Scan.sscanf_csv
      (Some (Engine.frequency_data_text
               (Audio.partition_samples bs Sonar.default_config)))
    = Some r
    /\ reconstructed_data r = Some bs
    /\ data_length r = Z.of_nat (length bs)
    /\ successful_samples r = Z.of_nat (length bs)
    /\ total_samples r = Z.of_nat (length bs).
Proof.
  intros Hne Hbytes Hlen.
  unfold Engine.frequency_data_text.
  rewrite frequency_rows_lines, partition_samples_spec.
  set (header := text_line
                   "Sample,Byte_Hex,Byte_Dec,Frequency_Hz,Amplitude,Duration_s").
  set (lines := imap _ _).
  assert (Hlines : Forall2
            (fun line b =>
               is_line line = true /\ (String.length line <= 511)%nat
               /\ exists row, Scan.sscanf_csv line = Some row
                              /\ byte_dec row = b) lines bs).
  { subst lines. rewrite imap_fmap.
    apply Forall2_same_length_lookup. split; [rewrite length_imap; reflexivity|].
    intros i line b Hline Hb.
    rewrite list_lookup_imap, Hb in Hline. injection Hline as <-.
    cbn [compose]. rewrite Z.add_0_l.
    apply lookup_lt_Some in Hb as Hi.
    apply frequency_row_scans; [lia|].
    rewrite Forall_forall in Hbytes. apply Hbytes.
    eapply list_elem_of_lookup_2. exact Hb. }
  assert (Hshort : Forall (fun line => is_line line = true
                             /\ (String.length line <= 512 - 1)%nat) lines).
  { clear -Hlines. induction Hlines as [|? ? ? ? (? & ? & _)]; constructor;
      [split; [assumption | simpl; lia] | assumption]. }
  assert (Hrows : exists rows : list csv_row,
             Forall2 (fun line row => Scan.sscanf_csv line = Some row) lines rows
             /\ byte_dec <$> rows = bs).
  { clear -Hlines. induction Hlines as [|line b ls bs' (_ & _ & row & Hrow & Hb) _ IH].
    - exists []. split; [constructor | reflexivity].
    - destruct IH as (rows & Hall & Hbs). exists (row :: rows).
      split; [constructor; assumption|].
      rewrite <- Hbs, <- Hb. reflexivity. }
  destruct Hrows as (rows & Hall & Hbs).
  assert (Hfgets : fgets 512 (header +:+ string_concat lines)
                   = Some (header, string_concat lines)).
  { apply fgets_of_line; vm_compute; [reflexivity | lia]. }
  assert (Hstream : stream_lines 512 (header +:+ string_concat lines)
                      (String.length header)
                    = line_positions (String.length header) lines).
  { rewrite stream_lines_after.
    pose proof (stream_lines_fuel_lines 512 EmptyString ltac:(lia) lines
                  (String.length header) Hshort) as H.
    rewrite string_app_nil_r in H. rewrite H. simpl. apply app_nil_r. }
  destruct (reconstruct_from_csv_spec Scan.sscanf_csv _ _ _ Hfgets)
    as (r & Hr & Hdata & Hdl & Hsucc & Htot & _).
  { rewrite Hstream. destruct Hlines; [contradiction|]. discriminate. }
  rewrite Hstream in Hdata, Hdl, Hsucc, Htot.
  destruct (parsed_rows_all Scan.sscanf_csv
              (line_positions (String.length header) lines) rows)
    as [Hparsed Hcount].
  { rewrite line_positions_fst. exact Hall. }
  rewrite Hparsed in Hdata, Hdl, Hsucc. rewrite Hcount in Hdata, Htot.
  rewrite Nat.sub_diag, app_nil_r in Hdata.
  assert (Hn : length rows = length bs) by (rewrite <- Hbs, length_fmap; reflexivity).
  exists r. split; [exact Hr|]. rewrite Hdl, Hsucc, Htot, Hn.
  split; [|repeat split].
  rewrite Hdata. f_equal. rewrite <- Hbs.
  apply list_fmap_ext. intros i row Hi. apply uchar_of_Z_byte.
  rewrite Forall_forall in Hbytes. apply Hbytes. rewrite <- Hbs.
  apply list_elem_of_fmap_2. eapply list_elem_of_lookup_2. exact Hi.
Qed.

(** *** Lines longer than the buffer *)

(** One [fgets] on a text that starts with a line: it takes the line, or a
    first part of it when the buffer is too small. *)
Lemma fgets_line_split (room : nat) :
  forall line rest : string,
    is_line line = true -> (1 <= room)%nat ->
    exists part line' : string,
      fgets_line room (line +:+ rest) = (part, line' +:+ rest)
      /\ line = part +:+ line'
      /\ (1 <= String.length part)%nat
      /\ (line' = EmptyString \/ is_line line' = true).
Proof.
  induction room as [|room IH]; intros line rest Hline Hroom; [lia|].
  destruct line as [|a line]; [discriminate|].
  change (String a line +:+ rest) with (String a (line +:+ rest)).
  cbn [fgets_line is_line] in *.
  destruct (Ascii.eqb a newline).
  - destruct line; [|discriminate].
    exists (String a EmptyString), EmptyString.
    repeat split; [simpl; lia | left; reflexivity].
  - destruct room as [|room'].
    + exists (String a EmptyString), line.
      repeat split; [simpl; lia | right; exact Hline].
    + destruct (IH line rest Hline ltac:(lia))
        as (part & line' & Hfgets & Heq & Hlen & Hrest).
      rewrite Hfgets. exists (String a part), line'.
      split; [reflexivity|]. split; [rewrite Heq; reflexivity|].
      split; [simpl; lia | exact Hrest].
Qed.

(** Reading a text made of lines of any length: the parts read consist of
    characters of these lines, and reading resumes right after them. *)
Lemma stream_lines_fuel_long_line (size : nat) (ch : ascii) (rest : string) :
  (2 <= size)%nat ->
  forall (n : nat) (line : string) (pos : nat),
    (String.length line <= n)%nat ->
    is_line line = true -> occurs ch line = false ->
    exists parts : list (string * nat),
      (forall fuel : nat,
          (String.length (line +:+ rest) <= fuel)%nat ->
          stream_lines_fuel fuel size (line +:+ rest) pos
          = parts ++ stream_lines_fuel (String.length rest) size rest
                       (pos + String.length line))
      /\ Forall (fun part => occurs ch part.1 = false) parts.
Proof.
  intros Hsize. induction n as [|n IH]; intros line pos Hn Hline Hch.
  { destruct line; [discriminate | simpl in Hn; lia]. }
  destruct (fgets_line_split (size - 1) line rest Hline ltac:(lia))
    as (part & line' & Hfgets & Heq & Hlen & Hrest).
  assert (Hocc : occurs ch part = false /\ occurs ch line' = false).
  { rewrite Heq, occurs_app in Hch. apply orb_false_elim in Hch. exact Hch. }
  destruct Hocc as [Hpart Hline'].
  assert (Hstep : forall fuel,
             (String.length (line +:+ rest) <= S fuel)%nat ->
             stream_lines_fuel (S fuel) size (line +:+ rest) pos
             = (part, (pos + String.length part)%nat)
               :: stream_lines_fuel fuel size (line' +:+ rest)
                    (pos + String.length part)).
  { intros fuel _. cbn [stream_lines_fuel].
    destruct line as [|a line0]; [discriminate|].
    change (String a line0 +:+ rest) with (String a (line0 +:+ rest)) in *.
    cbn [fgets]. rewrite Hfgets. reflexivity. }
  assert (Hlens : String.length line
                  = (String.length part + String.length line')%nat)
    by (rewrite Heq, string_length_app; reflexivity).
  destruct Hrest as [->|Hline'_line].
  - exists [(part, (pos + String.length part)%nat)]. split.
    + intros fuel Hfuel. rewrite string_length_app in Hfuel.
      destruct fuel as [|fuel]; [lia|].
      rewrite Hstep by (rewrite string_length_app; lia).
      cbn [app]. f_equal.
      change (EmptyString +:+ rest) with rest.
      simpl in Hlens. rewrite Hlens, Nat.add_0_r.
      apply stream_lines_fuel_enough; [exact Hsize | lia | lia].
    + constructor; [exact Hpart | constructor].
  - destruct (IH line' (pos + String.length part)%nat ltac:(lia)
                Hline'_line Hline') as (parts & Hparts & Hall).
    exists ((part, (pos + String.length part)%nat) :: parts). split.
    + intros fuel Hfuel. rewrite string_length_app in Hfuel.
      destruct fuel as [|fuel]; [lia|].
      rewrite Hstep by (rewrite string_length_app; lia).
      rewrite Hparts by (rewrite string_length_app; lia).
      cbn [app]. do 3 f_equal. lia.
    + constructor; [exact Hpart | exact Hall].
Qed.

Lemma stream_lines_fuel_long_lines (size : nat) (ch : ascii) (rest : string) :
  (2 <= size)%nat ->
  forall (lines : list string) (pos : nat),
    Forall (fun line => is_line line = true /\ occurs ch line = false) lines ->
    exists parts : list (string * nat),
      (forall fuel : nat,
          (String.length (string_concat lines +:+ rest) <= fuel)%nat ->
          stream_lines_fuel fuel size (string_concat lines +:+ rest) pos
          = parts ++ stream_lines_fuel (String.length rest) size rest
                       (pos + String.length (string_concat lines)))
      /\ Forall (fun part => occurs ch part.1 = false) parts.
Proof.
  intros Hsize. induction lines as [|line lines IH]; intros pos Hall.
  - exists []. split; [|constructor]. intros fuel Hfuel. simpl in *.
    rewrite Nat.add_0_r.
    apply stream_lines_fuel_enough; [exact Hsize | exact Hfuel | lia].
  - inversion Hall as [|? ? [Hline Hch] Hrest]; subst.
    destruct (IH (pos + String.length line)%nat Hrest)
      as (parts2 & Hparts2 & Hall2).
    destruct (stream_lines_fuel_long_line size ch
                (string_concat lines +:+ rest) Hsize (String.length line)
                line pos ltac:(lia) Hline Hch) as (parts1 & Hparts1 & Hall1).
    exists (parts1 ++ parts2). split; [|apply Forall_app; split; assumption].
    intros fuel Hfuel.
    cbn [string_concat foldr] in *. fold (string_concat lines) in *.
    rewrite string_app_assoc in *.
    rewrite Hparts1 by exact Hfuel.
    rewrite Hparts2 by lia.
    rewrite <- app_assoc, string_length_app. do 3 f_equal. lia.
Qed.

(** *** Characters of the printed numbers *)

Lemma occurs_zeros (c : ascii) (n : nat) :
  c <> "0"%char -> occurs c (Print.zeros n) = false.
Proof.
  intros Hc. induction n as [|n IH]; [reflexivity|].
  cbn [Print.zeros occurs]. rewrite IH.
  destruct (Ascii.eqb_spec c "0"%char); [contradiction | reflexivity].
Qed.

Lemma occurs_fixed_point (c : ascii) (prec : nat) (n : Z) :
  Scan.digit c = None -> c <> "-"%char -> c <> "."%char ->
  occurs c (Print.fixed_point prec n) = false.
Proof.
  intros Hd Hdash Hdot. unfold Print.fixed_point.
  assert (Hzero : c <> "0"%char) by (intros ->; discriminate).
  destruct prec as [|prec]; [apply occurs_pretty; assumption|].
  rewrite !occurs_app, !occurs_pretty, occurs_zeros by assumption.
  cbn [occurs]. destruct (Ascii.eqb_spec c "."%char); [contradiction|].
  reflexivity.
Qed.

(** [%f] prints digits, a point, a minus sign or one of the words inf and
    nan, and nothing else. *)
Lemma occurs_conv_f (c : ascii) (prec : nat) (x : float) :
  Scan.digit c = None -> occurs c "-.infa" = false ->
  occurs c (Print.conv_f prec x) = false.
Proof.
  intros Hd Hc. cbn [occurs] in Hc.
  repeat (apply orb_false_elim in Hc as [? Hc]).
  assert (Hdash : c <> "-"%char) by (intros ->; discriminate).
  assert (Hdot : c <> "."%char) by (intros ->; discriminate).
  assert (Hsign : forall s : bool,
             occurs c (if s then "-" else EmptyString) = false).
  { intros [|]; [|reflexivity]. cbn [occurs].
    destruct (Ascii.eqb_spec c "-"%char); [contradiction | reflexivity]. }
  unfold Print.conv_f. destruct (Prim2SF x) as [s|s| |s m e].
  - rewrite occurs_app, Hsign, occurs_fixed_point by assumption. reflexivity.
  - destruct s; cbn [occurs];
      repeat match goal with H : Ascii.eqb c _ = false |- _ => rewrite H; clear H end;
      reflexivity.
  - cbn [occurs].
    repeat match goal with H : Ascii.eqb c _ = false |- _ => rewrite H end.
    reflexivity.
  - rewrite occurs_app, Hsign, occurs_fixed_point by assumption. reflexivity.
Qed.

Lemma is_line_text_line (s : string) :
  occurs newline s = false -> is_line (text_line s) = true.
Proof.
  intros Hno. unfold text_line. rewrite is_line_app by exact Hno. reflexivity.
Qed.

Lemma occurs_text_line (c : ascii) (s : string) :
  c <> newline -> occurs c (text_line s) = occurs c s.
Proof.
  intros Hc. unfold text_line. rewrite occurs_app. cbn [occurs].
  destruct (Ascii.eqb_spec c newline); [contradiction|].
  rewrite !orb_false_r. reflexivity.
Qed.

(** *** The analysis report: what the generator writes, the decoder reads *)

Lemma report_rows_lines (head : Audio.audio_sample_node_t) :
  Engine.report_rows head
  = string_concat (report_row_text <$> Audio.samples_of head).
Proof.
  induction head as [|f a d b next IH]; [reflexivity|].
  cbn [Engine.report_rows Audio.samples_of fmap list_fmap string_concat foldr].
  rewrite IH. reflexivity.
Qed.

Lemma analyze_count (head : Audio.audio_sample_node_t) :
  forall st : Engine.statistics,
    Engine.sample_count (Engine.analyze head st)
    = Engine.sample_count st + Z.of_nat (length (Audio.samples_of head)).
Proof.
  induction head as [|f a d b next IH]; intros st.
  - simpl. lia.
  - cbn [Engine.analyze]. rewrite IH. cbn [Engine.sample_count Audio.samples_of length].
    lia.
Qed.

Lemma report_front_text (st : Engine.statistics) :
  Engine.report_heading +:+ Engine.report_statistics st
  = string_concat (report_front st).
Proof.
  unfold Engine.report_heading, Engine.report_statistics, report_front,
    string_concat.
  repeat match goal with
         | |- context [text_line ?s] => generalize (text_line s); intro
         end.
  cbn [foldr]. rewrite string_app_nil_r, !string_app_assoc. reflexivity.
Qed.

Lemma report_front_lines (st : Engine.statistics) :
  Forall (fun line => is_line line = true /\ occurs "D" line = false)
    (report_front st).
Proof.
  unfold report_front.
  repeat (apply Forall_cons; split;
          [ split;
            [ apply is_line_text_line | rewrite occurs_text_line by discriminate ];
            rewrite ?occurs_app, ?occurs_conv_f, ?occurs_pretty
              by (reflexivity || discriminate);
            reflexivity
          | ]).
  constructor.
Qed.

Lemma report_row_check :
  forallb
    (fun b =>
       let line := report_row_text (sample_of_byte Sonar.default_config b) in
       is_line line
       && (String.length line <=? 511)%nat
       && (10 <? strlen line)
       && negb (strstr line "Detailed Sample Data")
       && match Scan.sscanf_report line with
          | Some row => frequency_to_byte (r_frequency row) default_dsonar_config =? b
          | None => false
          end)
    (seqZ 0 256) = true.
Proof. vm_compute. reflexivity. Qed.

Lemma report_table_text :
  Engine.report_table_heading = string_concat report_table_lines.
Proof.
  unfold Engine.report_table_heading, report_table_lines, string_concat.
  repeat match goal with
         | |- context [text_line ?s] => generalize (text_line s); intro
         end.
  cbn [foldr]. rewrite string_app_nil_r. reflexivity.
Qed.

Lemma report_table_check :
  Forall (fun line => is_line line = true
                      /\ (String.length line <= 512 - 1)%nat)
    report_table_lines.
Proof. repeat constructor; vm_compute; lia. Qed.

Lemma report_sample_bytes (config : dsonar_config_t) (rows : list report_row) :
  forall g : nat -> Z,
    reconstructed_byte <$> imap (fun i row => report_sample config (g i) row) rows
    = (fun row => frequency_to_byte (r_frequency row) config) <$> rows.
Proof.
  induction rows as [|row rows IH]; intros g; [reflexivity|].
  cbn [imap fmap list_fmap]. f_equal. exact (IH (g ∘ S)).
Qed.

Lemma accepted_rows_of_lines (rows : list string) (bs : list Z) :
  Forall2
    (fun line b =>
       (10 <? strlen line) = true
       /\ exists row, Scan.sscanf_report line = Some row
            /\ frequency_to_byte (r_frequency row) default_dsonar_config = b)
    rows bs ->
  forall pos : nat,
    (fun row => frequency_to_byte (r_frequency row) default_dsonar_config)
    <$> accepted_report_rows Scan.sscanf_report (line_positions pos rows)
    = bs.
Proof.
  induction 1 as [|line b ls bs' (Hlong & row & Hrow & Hb) _ IH]; intros pos;
    [reflexivity|].
  cbn [line_positions]. unfold accepted_report_rows, parsed_rows.
  change (omap ?f ((line, ?q) :: ?l))
    with (match f (line, q) with
          | Some y => y :: omap f l
          | None => omap f l
          end).
  cbn [fst]. rewrite Hlong, Hrow.
  cbn [fmap list_fmap]. rewrite Hb. f_equal. exact (IH _).
Qed.

(** What the report decoder makes of the report written for the bytes
    [bs]. *)
Lemma analysis_report_decodes (bs : list Z) :
  bs <> [] ->
  Forall (fun b => 0 <= b <= 255) bs ->
  exists r : dsonar_result_t,
    reconstruct_from_analysis Scan.sscanf_report default_dsonar_config
      (Some (Engine.analysis_report_text
               (Audio.partition_samples bs Sonar.default_config)))
    = Some r
    /\ reconstructed_data r = Some bs
    /\ data_length r = Z.of_nat (length bs)
    /\ total_samples r = Z.of_nat (length bs).
Proof.
  intros Hne Hbytes.
  set (samples := Audio.partition_samples bs Sonar.default_config).
  set (rows := report_row_text <$> (sample_of_byte Sonar.default_config <$> bs)).
  set (table := report_table_lines).
  set (front := report_front (Engine.analyze samples Engine.no_statistics)).
  pose proof (report_front_lines (Engine.analyze samples Engine.no_statistics))
    as Hfront_lines.
  fold front in Hfront_lines.
  assert (Htext : Engine.analysis_report_text samples
                  = string_concat front
                    +:+ (string_concat (table ++ rows) +:+ EmptyString)).
  { unfold Engine.analysis_report_text. cbv zeta.
    rewrite analyze_count. unfold samples at 1. rewrite partition_samples_spec.
    rewrite length_fmap.
    destruct (Z.ltb_spec 0 (Engine.sample_count Engine.no_statistics
                            + Z.of_nat (length bs))) as [_|H0].
    2:{ destruct bs; [contradiction | simpl in H0; lia]. }
    rewrite report_rows_lines. unfold samples at 2.
    rewrite partition_samples_spec. fold rows.
    rewrite report_table_text. fold table.
    rewrite string_concat_app, string_app_nil_r.
    unfold front. rewrite <- report_front_text.
    symmetry. apply string_app_assoc. }
  assert (Hrows : Forall2
            (fun line b =>
               is_line line = true /\ (String.length line <= 511)%nat
               /\ (10 <? strlen line) = true
               /\ strstr line "Detailed Sample Data" = false
               /\ exists row, Scan.sscanf_report line = Some row
                    /\ frequency_to_byte (r_frequency row) default_dsonar_config
                       = b) rows bs).
  { subst rows. rewrite <- list_fmap_compose.
    apply Forall2_fmap_l, Forall_Forall2_diag.
    eapply Forall_impl; [exact Hbytes|]. intros b Hb. cbn [compose].
    pose proof (all_bytes _ report_row_check b Hb) as H. cbv zeta in H.
    apply andb_prop in H as [H Hscan]. apply andb_prop in H as [H Hstr].
    apply andb_prop in H as [H Hlong]. apply andb_prop in H as [Hline Hlen].
    apply Nat.leb_le in Hlen. apply negb_true_iff in Hstr.
    repeat (split; [assumption|]).
    destruct (Scan.sscanf_report _) as [row|]; [|discriminate].
    exists row. split; [reflexivity|]. apply Z.eqb_eq, Hscan. }
  destruct (stream_lines_fuel_long_lines 512 "D"%char
              (string_concat (table ++ rows) +:+ EmptyString) ltac:(lia)
              front 0%nat Hfront_lines) as (pre & Hpre & Hpre_all).
  set (p0 := (0 + String.length (string_concat front))%nat) in *.
  assert (Hshort : Forall (fun line => is_line line = true
                             /\ (String.length line <= 512 - 1)%nat)
                     (table ++ rows)).
  { apply Forall_app. split; [exact report_table_check|].
    clear -Hrows. induction Hrows as [|? ? ? ? (? & ? & _)]; constructor;
      [split; [assumption | simpl; lia] | assumption]. }
  assert (Hstream : stream_lines 512 (Engine.analysis_report_text samples) 0
                    = pre ++ line_positions p0 (table ++ rows)).
  { unfold stream_lines. rewrite string_drop_0, Htext.
    rewrite Hpre by lia. f_equal.
    rewrite (stream_lines_fuel_lines 512 EmptyString ltac:(lia) _ p0 Hshort).
    cbn [stream_lines_fuel String.length]. apply app_nil_r. }
  unfold table, report_table_lines in Hstream.
  cbn [app line_positions] in Hstream.
  match type of Hstream with
  | _ = pre ++ ?m :: ?h1 :: ?h2 :: line_positions ?p rows =>
      pose proof (parse_analysis_report_spec Scan.sscanf_report
                    default_dsonar_config _ pre (line_positions p rows)
                    m h1 h2 Hstream) as Hspec;
      set (data := line_positions p rows) in *
  end.
  destruct Hspec as [Hsamples Hflag].
  { eapply Forall_impl; [exact Hpre_all|]. intros part Hpart.
    apply (strstr_absent "D"%char); [reflexivity | exact Hpart]. }
  { vm_compute. reflexivity. }
  { subst data.
    apply (Forall_line_positions
             (fun line => strstr line "Detailed Sample Data" = false)).
    clear -Hrows. induction Hrows as [|? ? ? ? (_ & _ & _ & ? & _)];
      constructor; assumption. }
  assert (Haccbs : (fun row => frequency_to_byte (r_frequency row)
                                default_dsonar_config)
                   <$> accepted_report_rows Scan.sscanf_report data = bs).
  { subst data. apply accepted_rows_of_lines.
    clear -Hrows.
    induction Hrows as [|? ? ? ? (_ & _ & ? & _ & ?)]; constructor;
      [split; assumption | assumption]. }
  set (accepted := accepted_report_rows Scan.sscanf_report data) in *.
  assert (Hlen : length accepted = length bs)
    by (rewrite <- Haccbs, length_fmap; reflexivity).
  unfold reconstruct_from_analysis.
  destruct (parse_analysis_report _ _ _ _) as [flag samples'].
  cbn [fst snd] in Hsamples, Hflag. subst flag.
  rewrite bool_decide_true
    by (intros ->; destruct bs; [contradiction | discriminate]).
  eexists. split; [reflexivity|].
  pose proof (result_of_samples_counts 0.6%float samples') as [Htot _].
  unfold result_of_samples in *.
  rewrite samples_to_bytes_spec in *. rewrite Hsamples in *.
  destruct (confidence_statistics _ _ _ _ _) as [[total successful] conf].
  assert (Hbytes' : reconstructed_byte <$>
                      imap (fun i row =>
                              report_sample default_dsonar_config (Z.of_nat i) row)
                        accepted = bs).
  { rewrite <- Haccbs. apply (report_sample_bytes _ _ Z.of_nat). }
  destruct (imap _ accepted) as [|s ss] eqn:Himap.
  { destruct bs; [contradiction|]. destruct accepted; discriminate. }
  cbn [reconstructed_data data_length total_samples] in *.
  rewrite Hbytes'. split; [reflexivity|].
  assert (Hl : length (s :: ss) = length bs)
    by (rewrite <- Himap, length_imap; exact Hlen).
  rewrite length_fmap in Htot. rewrite Hl in *. split; [reflexivity | exact Htot].
Qed.

(** *** The metadata document: what the generator writes, the decoder reads *)

Lemma metadata_heading_loaded (st : Engine.state) :
  Engine.g_sample_rate st = 44100 ->
  Engine.g_master_volume st = 1.0%float ->
  Engine.metadata_heading st = string_concat metadata_front.
Proof.
  destruct st as [rate volume initialized]. cbn [Engine.g_sample_rate
    Engine.g_master_volume]. intros -> ->. vm_compute. reflexivity.
Qed.

Lemma metadata_entries_lines (head : Audio.audio_sample_node_t) :
  forall (first : bool) (rest : string),
    head <> Audio.NULL ->
    Engine.metadata_entries head first +:+ (text_line EmptyString +:+ rest)
    = (if first then EmptyString else text_line ",")
      +:+ (string_concat (metadata_lines (Audio.samples_of head)) +:+ rest).
Proof.
  induction head as [|f a d b next IH]; intros first rest Hne;
    [contradiction|].
  cbn [Engine.metadata_entries Audio.samples_of].
  set (s := {| Audio.frequency := f; Audio.amplitude := a;
               Audio.duration := d; Audio.source_byte := b |}).
  change (text_line ("      " +:+ quoted "byte" +:+ ": "
                     +:+ quoted ("0x" +:+ Print.conv_02X b) +:+ ","))
    with (text_line ("      " +:+ quoted "byte" +:+ ": "
                     +:+ quoted ("0x" +:+ Print.conv_02X (Audio.source_byte s))
                     +:+ ",")).
  change (Print.conv_f 2 f) with (Print.conv_f 2 (Audio.frequency s)).
  change (Print.conv_f 3 a) with (Print.conv_f 3 (Audio.amplitude s)).
  change (Print.conv_f 3 d) with (Print.conv_f 3 (Audio.duration s)).
  assert (Hlines : forall last : bool,
             string_concat (metadata_entry_lines last s)
             = text_line "    {"
               +:+ text_line ("      " +:+ quoted "byte" +:+ ": "
                              +:+ quoted ("0x" +:+ Print.conv_02X
                                                     (Audio.source_byte s))
                              +:+ ",")
               +:+ text_line ("      " +:+ quoted "frequency" +:+ ": "
                              +:+ Print.conv_f 2 (Audio.frequency s) +:+ ",")
               +:+ text_line ("      " +:+ quoted "amplitude" +:+ ": "
                              +:+ Print.conv_f 3 (Audio.amplitude s) +:+ ",")
               +:+ text_line ("      " +:+ quoted "duration" +:+ ": "
                              +:+ Print.conv_f 3 (Audio.duration s))
               +:+ "    }"
               +:+ (if last then text_line EmptyString else text_line ",")).
  { intros last. unfold metadata_entry_lines, string_concat. cbn [foldr].
    rewrite string_app_nil_r. do 5 f_equal. destruct last; reflexivity. }
  clearbody s.
  revert IH Hlines.
  generalize (text_line "    {").
  generalize (text_line ("      " +:+ quoted "byte" +:+ ": "
                         +:+ quoted ("0x" +:+ Print.conv_02X
                                                (Audio.source_byte s))
                         +:+ ",")).
  generalize (text_line ("      " +:+ quoted "frequency" +:+ ": "
                         +:+ Print.conv_f 2 (Audio.frequency s) +:+ ",")).
  generalize (text_line ("      " +:+ quoted "amplitude" +:+ ": "
                         +:+ Print.conv_f 3 (Audio.amplitude s) +:+ ",")).
  generalize (text_line ("      " +:+ quoted "duration" +:+ ": "
                         +:+ Print.conv_f 3 (Audio.duration s))).
  generalize (text_line ",") (text_line EmptyString).
  intros nl comma l5 l4 l3 l2 l1 IH Hlines.
  destruct next as [|f' a' d' b' next'].
  - cbn [Engine.metadata_entries Audio.samples_of metadata_lines].
    rewrite (Hlines true).
    rewrite string_app_nil_r, !string_app_assoc. reflexivity.
  - specialize (IH false rest ltac:(discriminate)).
    change (metadata_lines (s :: Audio.samples_of (Audio.Node f' a' d' b' next')))
      with (metadata_entry_lines false s
            ++ metadata_lines (Audio.samples_of (Audio.Node f' a' d' b' next'))).
    rewrite string_concat_app, (Hlines false).
    rewrite !string_app_assoc. rewrite IH.
    rewrite ?string_app_assoc. reflexivity.
Qed.

Lemma metadata_entry_check :
  forallb
    (fun b =>
       forallb
         (fun last : bool =>
            let lines :=
              metadata_entry_lines last
                (sample_of_byte Sonar.default_config b) in
            forallb (fun line => is_line line
                                 && (String.length line <=? 1023)%nat) lines
            && match frequencies_of_lines Scan.sscanf_frequency lines with
               | [f] => frequency_to_byte f default_dsonar_config =? b
               | _ => false
               end)
         [true; false])
    (seqZ 0 256) = true.
Proof. vm_compute. reflexivity. Qed.

Lemma metadata_ends_check :
  forallb (fun line => is_line line && (String.length line <=? 1023)%nat)
    (metadata_front ++ metadata_back) = true
  /\ frequencies_of_lines Scan.sscanf_frequency metadata_front = []
  /\ frequencies_of_lines Scan.sscanf_frequency metadata_back = []
  /\ text_line "  ]" +:+ text_line "}" = string_concat metadata_back.
Proof. vm_compute. repeat split; reflexivity. Qed.

Lemma short_lines_of_check (size : nat) (lines : list string) :
  forallb (fun line => is_line line && (String.length line <=? size - 1)%nat)
    lines = true ->
  Forall (fun line => is_line line = true
                      /\ (String.length line <= size - 1)%nat) lines.
Proof.
  intros H. apply Is_true_true_2, forallb_True in H.
  eapply Forall_impl; [exact H|]. intros line Hline.
  apply Is_true_true_1, andb_prop in Hline as [H1 H2].
  split; [exact H1 | apply Nat.leb_le, H2].
Qed.

(** The lines of the entries written for the bytes [bs]: each fits the
    buffer, and the frequencies converted from them decode to [bs]. *)
Lemma metadata_lines_scan (bs : list Z) :
  Forall (fun b => 0 <= b <= 255) bs ->
  Forall (fun line => is_line line = true
                      /\ (String.length line <= 1024 - 1)%nat)
    (metadata_lines (sample_of_byte Sonar.default_config <$> bs))
  /\ (fun f => frequency_to_byte f default_dsonar_config)
     <$> frequencies_of_lines Scan.sscanf_frequency
           (metadata_lines (sample_of_byte Sonar.default_config <$> bs))
     = bs.
Proof.
  assert (Hentry : forall (b : Z) (last : bool),
             0 <= b <= 255 ->
             let lines :=
               metadata_entry_lines last
                 (sample_of_byte Sonar.default_config b) in
             Forall (fun line => is_line line = true
                                 /\ (String.length line <= 1024 - 1)%nat) lines
             /\ (fun f => frequency_to_byte f default_dsonar_config)
                <$> frequencies_of_lines Scan.sscanf_frequency lines = [b]).
  { intros b last Hb lines.
    pose proof (all_bytes _ metadata_entry_check b Hb) as H.
    apply Is_true_true_2, forallb_True in H. rewrite Forall_forall in H.
    specialize (H last ltac:(rewrite !elem_of_cons; destruct last; auto)).
    apply Is_true_true_1 in H. cbv zeta in H. fold lines in H.
    apply andb_prop in H as [Hshort Hscan].
    split; [apply short_lines_of_check; exact Hshort|].
    destruct (frequencies_of_lines Scan.sscanf_frequency lines)
      as [|f [|? ?]]; try discriminate.
    apply Z.eqb_eq in Hscan. cbn [fmap list_fmap]. rewrite Hscan. reflexivity. }
  induction 1 as [|b bs Hb Hbs [IHshort IHscan]]; [split; [constructor | reflexivity]|].
  destruct bs as [|b' bs'].
  - apply (Hentry b true Hb).
  - destruct (Hentry b false Hb) as [Hshort Hscan].
    change (metadata_lines (sample_of_byte Sonar.default_config <$> b :: b' :: bs'))
      with (metadata_entry_lines false (sample_of_byte Sonar.default_config b)
            ++ metadata_lines (sample_of_byte Sonar.default_config <$> b' :: bs')).
    split; [apply Forall_app; split; assumption|].
    unfold frequencies_of_lines in *. rewrite omap_app, fmap_app.
    rewrite Hscan, IHscan. reflexivity.
Qed.

Lemma json_frequency_lines_fst (scan : string -> option float)
    (lines : list string) :
  forall pos : nat,
    (json_frequency_lines scan (line_positions pos lines)).*1
    = frequencies_of_lines scan lines.
Proof.
  unfold json_frequency_lines, frequencies_of_lines.
  induction lines as [|line lines IH]; intros pos; [reflexivity|].
  cbn [line_positions].
  change (omap ?f ((line, ?q) :: ?l))
    with (match f (line, q) with
          | Some y => y :: omap f l
          | None => omap f l
          end).
  change (omap ?f (line :: lines))
    with (match f line with
          | Some y => y :: omap f lines
          | None => omap f lines
          end).
  cbn [fst snd]. destruct (strstr line (json_tag "frequency")); [|apply IH].
  destruct (scan line) as [f|]; cbn [fmap option_fmap option_map list_fmap];
    [|apply IH].
  cbn [fst]. f_equal. apply IH.
Qed.

Lemma json_sample_bytes (scan_byte : string -> option Z)
    (config : dsonar_config_t) (content : string)
    (tags : list (float * nat)) :
  forall g : nat -> Z,
    reconstructed_byte
    <$> imap (fun i tag => json_sample scan_byte config content (g i) tag) tags
    = (fun f => frequency_to_byte f config) <$> tags.*1.
Proof.
  induction tags as [|tag tags IH]; intros g; [reflexivity|].
  cbn [imap fmap list_fmap]. f_equal. exact (IH (g ∘ S)).
Qed.

(** What the metadata decoder makes of the document written for the bytes
    [bs] by a library running at 44100 Hz with master volume 1.0. *)
Lemma metadata_decodes (st : Engine.state) (bs : list Z) :
  Engine.g_sample_rate st = 44100 ->
  Engine.g_master_volume st = 1.0%float ->
  bs <> [] ->
  Forall (fun b => 0 <= b <= 255) bs ->
  exists r : dsonar_result_t,
    reconstruct_from_json Scan.sscanf_frequency Scan.sscanf_byte
      default_dsonar_config
      (Some (Engine.metadata_text st
               (Audio.partition_samples bs Sonar.default_config)))
    = Some r
    /\ reconstructed_data r = Some bs
    /\ data_length r = Z.of_nat (length bs)
    /\ total_samples r = Z.of_nat (length bs).
Proof.
  intros Hrate Hvolume Hne Hbytes.
  set (samples := Audio.partition_samples bs Sonar.default_config).
  set (entries := metadata_lines (sample_of_byte Sonar.default_config <$> bs)).
  destruct metadata_ends_check as (Hends & Hfront & Hback & Htail).
  destruct (metadata_lines_scan bs Hbytes) as [Hshort Hscan]. fold entries in Hshort, Hscan.
  assert (Htext : Engine.metadata_text st samples
                  = string_concat (metadata_front ++ entries ++ metadata_back)).
  { unfold Engine.metadata_text.
    rewrite (metadata_heading_loaded st Hrate Hvolume).
    rewrite metadata_entries_lines.
    2:{ intros Hnull. pose proof (partition_samples_spec bs Sonar.default_config) as H.
        fold samples in H. rewrite Hnull in H.
        destruct bs; [contradiction | discriminate]. }
    unfold samples. rewrite partition_samples_spec. fold entries.
    rewrite Htail, !string_concat_app. reflexivity. }
  assert (Hall : Forall (fun line => is_line line = true
                           /\ (String.length line <= 1024 - 1)%nat)
                   (metadata_front ++ entries ++ metadata_back)).
  { apply (short_lines_of_check 1024) in Hends.
    apply Forall_app in Hends as [Hf Hb].
    apply Forall_app. split; [exact Hf|]. apply Forall_app. split; assumption. }
  assert (Hstream : stream_lines 1024 (Engine.metadata_text st samples) 0
                    = line_positions 0
                        (metadata_front ++ entries ++ metadata_back)).
  { rewrite Htext. apply stream_lines_of_lines; [lia | exact Hall]. }
  pose proof (parse_json_metadata_spec Scan.sscanf_frequency Scan.sscanf_byte
                default_dsonar_config (Engine.metadata_text st samples))
    as [Hsamples Hflag].
  rewrite Hstream in Hsamples, Hflag.
  set (tags := json_frequency_lines Scan.sscanf_frequency
                 (line_positions 0 (metadata_front ++ entries ++ metadata_back)))
    in *.
  assert (Htags : (fun f => frequency_to_byte f default_dsonar_config)
                  <$> tags.*1 = bs).
  { subst tags. rewrite json_frequency_lines_fst.
    unfold frequencies_of_lines in *. rewrite !omap_app, Hfront, Hback.
    rewrite app_nil_l, app_nil_r. exact Hscan. }
  assert (Hlen : length tags = length bs)
    by (rewrite <- Htags, !length_fmap; reflexivity).
  unfold reconstruct_from_json.
  destruct (parse_json_metadata _ _ _ _ _) as [flag samples'].
  cbn [fst snd] in Hsamples, Hflag. subst flag.
  rewrite bool_decide_true
    by (intros Hnil; rewrite Hnil in Hlen; destruct bs; [contradiction | discriminate]).
  eexists. split; [reflexivity|].
  pose proof (result_of_samples_counts 0.5%float samples') as [Htot _].
  unfold result_of_samples in *.
  rewrite samples_to_bytes_spec in *.
  pose proof (json_sample_bytes Scan.sscanf_byte default_dsonar_config
                (Engine.metadata_text st samples) tags Z.of_nat) as Hbytes'.
  rewrite <- Hsamples, Htags in Hbytes'.
  destruct (confidence_statistics _ _ _ _ _) as [[total successful] conf].
  assert (Hl : length (samples_of samples') = length bs)
    by (rewrite Hsamples, length_imap; exact Hlen).
  destruct (samples_of samples') as [|s ss].
  { destruct bs; [contradiction | discriminate]. }
  cbn [reconstructed_data data_length total_samples] in *.
  rewrite Hbytes', Hl. split; [reflexivity|]. split; [reflexivity|].
  rewrite length_fmap, Hl in Htot. exact Htot.
Qed.

(** *** File names *)

Lemma string_app_inv_r (a b s : string) : a +:+ s = b +:+ s -> a = b.
Proof.
  intros H.
  assert (Hlen : String.length a = String.length b).
  { apply (f_equal String.length) in H. rewrite !string_length_app in H. lia. }
  revert b H Hlen. induction a as [|c a IH]; intros [|d b] H Hlen;
    try discriminate; [reflexivity|].
  change (String c (a +:+ s) = String d (b +:+ s)) in H.
  injection H as -> H. f_equal. apply IH; [exact H|]. simpl in Hlen. lia.
Qed.

Lemma partition_filename_inj (i j : Z) :
  partition_filename i = partition_filename j -> i = j.
Proof.
  unfold partition_filename. cbv [append]. fold append. intros H.
  repeat (injection H as H).
  apply string_app_inv_r in H. apply (inj pretty) in H. exact H.
Qed.

Lemma csv_filename_not_partition (i j : Z) :
  csv_filename i <> partition_filename j.
Proof. unfold csv_filename, partition_filename. cbv [append]. fold append. discriminate. Qed.

Lemma json_filename_not_partition (i j : Z) :
  json_filename i <> partition_filename j.
Proof. unfold json_filename, partition_filename. cbv [append]. fold append. discriminate. Qed.

Lemma wav_filename_not_partition (i j : Z) :
  wav_filename i <> partition_filename j.
Proof. unfold wav_filename, partition_filename. cbv [append]. fold append. discriminate. Qed.

Lemma analysis_filename_not_partition (i j : Z) :
  analysis_filename i <> partition_filename j.
Proof.
  unfold analysis_filename, partition_filename. cbv [append]. fold append.
  discriminate.
Qed.

Lemma csv_filename_of_base (i : Z) :
  base_filename i +:+ "_frequencies.csv" = csv_filename (int_of_Z i).
Proof. unfold base_filename, csv_filename. apply string_app_assoc. Qed.

Lemma json_filename_of_base (i : Z) :
  base_filename i +:+ "_metadata.json" = json_filename (int_of_Z i).
Proof. unfold base_filename, json_filename. apply string_app_assoc. Qed.

Lemma analysis_filename_of_base (i : Z) :
  base_filename i +:+ "_analysis.txt" = analysis_filename (int_of_Z i).
Proof. unfold base_filename, analysis_filename. apply string_app_assoc. Qed.

(** *** The per-partition driver *)

Section DriverFacts.

Variable sscanf_csv : string -> option csv_row.
Variable sscanf_frequency : string -> option float.
Variable sscanf_byte : string -> option Z.
Variable sscanf_report : string -> option report_row.


(** What [mbx_dsonar] does once a decoder has returned a result whose
    buffer holds [data_length] bytes or more, for an index that [%d] prints
    as it is. *)
Lemma mbx_dsonar_saves (fs : filesystem) (index : Z) (config : dsonar_config_t)
    (r : dsonar_result_t) (data : list Z) :
  int_of_Z index = index ->
  select_and_reconstruct sscanf_csv sscanf_frequency sscanf_byte sscanf_report
    fs index config = Returns (Some (Some r)) ->
  reconstructed_data r = Some data ->
  can_create fs (partition_filename index) = true ->
  mbx_dsonar sscanf_csv sscanf_frequency sscanf_byte sscanf_report fs index config
  = Returns (true,
             {| files := <[partition_filename index
                           := take (Z.to_nat (data_length r)) data]> (files fs);
                can_create := can_create fs |}).
Proof.
  intros Hindex Hsel Hdata Hcreate. unfold mbx_dsonar. cbv zeta.
  rewrite Hindex, Hsel.
  cbn [outcome_bind]. unfold save_reconstructed_data.
  rewrite Hdata, Hcreate. reflexivity.
Qed.

(** The selection looks at the four artifacts only. *)
Lemma select_frame (fs fs' : filesystem) (index : Z)
    (config : dsonar_config_t) :
  (forall name, (forall j, name <> partition_filename j) ->
                files fs' !! name = files fs !! name) ->
  select_and_reconstruct sscanf_csv sscanf_frequency sscanf_byte sscanf_report
    fs' index config
  = select_and_reconstruct sscanf_csv sscanf_frequency sscanf_byte
      sscanf_report fs index config.
Proof.
  intros Hframe. unfold select_and_reconstruct.
  rewrite !Hframe
    by (intros j;
        first [ apply csv_filename_not_partition
              | apply json_filename_not_partition
              | apply wav_filename_not_partition
              | apply analysis_filename_not_partition ]).
  reflexivity.
Qed.

(** Writing partition files does not change which artifact is selected nor
    what is decoded from it. *)
Lemma select_after_partition_write (fs : filesystem) (j : Z) (data : list Z)
    (index : Z) (config : dsonar_config_t) :
  select_and_reconstruct sscanf_csv sscanf_frequency sscanf_byte sscanf_report
    {| files := <[partition_filename j := data]> (files fs);
            can_create := can_create fs |} index config
  = select_and_reconstruct sscanf_csv sscanf_frequency sscanf_byte sscanf_report fs index config.
Proof.
  unfold select_and_reconstruct. cbn [files].
  rewrite !lookup_insert_ne
    by (apply not_eq_sym;
        first [ apply csv_filename_not_partition
              | apply json_filename_not_partition
              | apply wav_filename_not_partition
              | apply analysis_filename_not_partition ]).
  reflexivity.
Qed.

Lemma select_returns (fs : filesystem) (index : Z) (config : dsonar_config_t) :
  int_of_double (base_frequency config * 0.05)%float <> 0 ->
  exists selected,
    select_and_reconstruct sscanf_csv sscanf_frequency sscanf_byte sscanf_report
      fs index config = Returns selected.
Proof.
  intros Hchunk. unfold select_and_reconstruct.
  destruct (files fs !! csv_filename index); [eexists; reflexivity|].
  destruct (files fs !! json_filename index); [eexists; reflexivity|].
  destruct (files fs !! wav_filename index) as [wav|].
  2:{ destruct (files fs !! analysis_filename index); eexists; reflexivity. }
  unfold reconstruct_from_wav.
  destruct (read_wav_header wav) as [[[[rate channels] bits] unread]|];
    [|eexists; reflexivity].
  destruct (_ <? 0); [eexists; reflexivity|].
  destruct (Z.eqb_spec (int_of_double (base_frequency config * 0.05)%float) 0);
    [contradiction|].
  destruct (wav_loop _ _ _ _ _ _ _) as [samples sample_index].
  destruct (sample_index =? 0); [eexists; reflexivity|].
  destruct (samples_to_bytes samples 0). eexists. reflexivity.
Qed.

(** A call of [mbx_dsonar] returns, writes no file other than the partition
    file of its index, and after a false return has written nothing. *)
Lemma mbx_dsonar_frame (fs : filesystem) (index : Z) (config : dsonar_config_t) :
  int_of_double (base_frequency config * 0.05)%float <> 0 ->
  exists (ok : bool) (fs' : filesystem),
    mbx_dsonar sscanf_csv sscanf_frequency sscanf_byte sscanf_report
      fs index config = Returns (ok, fs')
    /\ can_create fs' = can_create fs
    /\ (forall name, name <> partition_filename (int_of_Z index) ->
                     files fs' !! name = files fs !! name)
    /\ (ok = false -> fs' = fs).
Proof.
  intros Hchunk. unfold mbx_dsonar. cbv zeta.
  destruct (select_returns fs (int_of_Z index) config Hchunk) as [selected ->].
  cbn [outcome_bind].
  destruct selected as [[r|]|];
    [|exists false, fs; repeat split; reflexivity
     |exists false, fs; repeat split; reflexivity].
  eexists true, _. split; [reflexivity|].
  unfold save_reconstructed_data.
  destruct (reconstructed_data r) as [data|]; [|repeat split; discriminate].
  destruct (can_create fs (partition_filename (int_of_Z index)));
    cbn [negb snd]; [|repeat split; discriminate].
  cbn [files can_create]. split; [reflexivity|]. split; [|discriminate].
  intros name Hname. apply lookup_insert_ne. congruence.
Qed.

(** The batch loop when every partition decodes: [d i] is what the decoder
    selected for partition [i] yields. *)
Lemma batch_loop_all_decoded (config : dsonar_config_t) (d : Z -> list Z)
    (indices : list Z) :
  forall (fs : filesystem) (success : bool),
    (forall i, i ∈ indices ->
       int_of_Z i = i /\
       can_create fs (partition_filename i) = true
       /\ exists (r : dsonar_result_t) (data : list Z),
            select_and_reconstruct sscanf_csv sscanf_frequency sscanf_byte
              sscanf_report fs i config = Returns (Some (Some r))
            /\ reconstructed_data r = Some data
            /\ take (Z.to_nat (data_length r)) data = d i) ->
    batch_loop sscanf_csv sscanf_frequency sscanf_byte sscanf_report indices config fs success
    = Returns (success,
               {| files := foldl (fun m i => <[partition_filename i := d i]> m)
                             (files fs) indices;
                  can_create := can_create fs |}).
Proof.
  induction indices as [|i indices IH]; intros fs success Hall.
  - destruct fs. reflexivity.
  - destruct (Hall i ltac:(left))
      as (Hindex & Hcreate & r & data & Hsel & Hdata & Htake).
    cbn [batch_loop foldl].
    rewrite (mbx_dsonar_saves fs i config r data Hindex Hsel Hdata Hcreate).
    cbn [outcome_bind]. rewrite Htake. rewrite IH; [reflexivity|].
    intros j Hj. destruct (Hall j ltac:(right; exact Hj))
      as (Hindex' & Hcreate' & r' & data' & Hsel' & Hrest).
    split; [exact Hindex'|]. split; [exact Hcreate'|]. exists r', data'.
    rewrite select_after_partition_write. split; [exact Hsel' | exact Hrest].
Qed.

End DriverFacts.

Lemma partition_files_written (d : Z -> list Z) (indices : list Z) :
  forall (m : gmap string (list Z)) (i : Z),
    i ∈ indices ->
    foldl (fun m i => <[partition_filename i := d i]> m) m indices
    !! partition_filename i = Some (d i).
Proof.
  induction indices as [|j indices IH] using rev_ind; intros m i Hi.
  - inversion Hi.
  - rewrite foldl_app. cbn [foldl].
    destruct (decide (i = j)) as [->|Hne]; [apply lookup_insert_eq|].
    rewrite lookup_insert_ne
      by (intros Heq; apply partition_filename_inj in Heq; congruence).
    apply IH. apply elem_of_app in Hi as [Hi|Hi]; [exact Hi|].
    apply list_elem_of_singleton in Hi. contradiction.
Qed.

Lemma other_files_kept (d : Z -> list Z) (indices : list Z) (name : string) :
  (forall i, name <> partition_filename i) ->
  forall m : gmap string (list Z),
    foldl (fun m i => <[partition_filename i := d i]> m) m indices !! name
    = m !! name.
Proof.
  intros Hname. induction indices as [|j indices IH]; intros m; [reflexivity|].
  cbn [foldl]. rewrite IH. apply lookup_insert_ne. apply not_eq_sym, Hname.
Qed.

Lemma omap_all_some {A B : Type} (f : A -> option B) (g : A -> B)
    (l : list A) :
  (forall x, x ∈ l -> f x = Some (g x)) -> omap f l = g <$> l.
Proof.
  induction l as [|x l IH]; intros H; [reflexivity|].
  change (omap f (x :: l))
    with (match f x with Some y => y :: omap f l | None => omap f l end).
  rewrite (H x ltac:(left)), IH by (intros y Hy; apply H; right; exact Hy).
  reflexivity.
Qed.

(** *** Round trips through the three text artifacts *)

(** X7: the frequency table that [generate_frequency_data] writes for the
    list built from a non-empty partition of at most 10^9 bytes (default
    parameters) is decoded by [reconstruct_from_csv] to exactly the bytes of
    the partition, every row counting as a successful sample. *)
Theorem frequency_table_round_trip (bs : list Z) :
  bs <> [] ->
  Forall (fun b => 0 <= b <= 255) bs ->
  Z.of_nat (length bs) <= 1000000000 ->
  exists r : dsonar_result_t,
    reconstruct_from_csv Scan.sscanf_csv
      (Some (Engine.frequency_data_text
               (Audio.partition_samples bs Sonar.default_config)))
    = Some r
    /\ reconstructed_data r = Some bs
    /\ data_length r = Z.of_nat (length bs)
    /\ successful_samples r = Z.of_nat (length bs)
    /\ total_samples r = Z.of_nat (length bs).
Proof. exact (frequency_table_decodes bs). Qed.

Lemma frequency_table_round_trip_witness :
  exists r : dsonar_result_t,
    reconstruct_from_csv Scan.sscanf_csv
      (Some (Engine.frequency_data_text
               (Audio.partition_samples [72; 105; 0; 255]
                  Sonar.default_config)))
    = Some r
    /\ reconstructed_data r = Some [72; 105; 0; 255]
    /\ data_length r = 4
    /\ successful_samples r = 4
    /\ total_samples r = 4.
Proof.
  apply (frequency_table_round_trip [72; 105; 0; 255]);
    [discriminate | repeat constructor; lia | simpl; lia].
Defined.

(** X8: the analysis report that [generate_analysis_report] writes for the
    list built from a non-empty partition (default parameters) is decoded by
    [reconstruct_from_analysis] to exactly the bytes of the partition: the
    frequencies printed with two decimals still map back to their bytes, and
    the statistics lines before the table yield no sample. *)
Theorem analysis_report_round_trip (bs : list Z) :
  bs <> [] ->
  Forall (fun b => 0 <= b <= 255) bs ->
  exists r : dsonar_result_t,
    reconstruct_from_analysis Scan.sscanf_report default_dsonar_config
      (Some (Engine.analysis_report_text
               (Audio.partition_samples bs Sonar.default_config)))
    = Some r
    /\ reconstructed_data r = Some bs
    /\ data_length r = Z.of_nat (length bs)
    /\ total_samples r = Z.of_nat (length bs).
Proof. exact (analysis_report_decodes bs). Qed.

Lemma analysis_report_round_trip_witness :
  exists r : dsonar_result_t,
    reconstruct_from_analysis Scan.sscanf_report default_dsonar_config
      (Some (Engine.analysis_report_text
               (Audio.partition_samples [72; 105; 0; 255]
                  Sonar.default_config)))
    = Some r
    /\ reconstructed_data r = Some [72; 105; 0; 255]
    /\ data_length r = 4
    /\ total_samples r = 4.
Proof.
  apply (analysis_report_round_trip [72; 105; 0; 255]);
    [discriminate | repeat constructor; lia].
Defined.

(** X9: the metadata document that [generate_metadata_json] writes for the
    list built from a non-empty partition (default parameters, library at
    44100 Hz and master volume 1.0, the state in which [mbx_sonar] uses it)
    is decoded by [reconstruct_from_json] to exactly the bytes of the
    partition. *)
Theorem metadata_round_trip (st : Engine.state) (bs : list Z) :
  Engine.g_sample_rate st = 44100 ->
  Engine.g_master_volume st = 1.0%float ->
  bs <> [] ->
  Forall (fun b => 0 <= b <= 255) bs ->
  exists r : dsonar_result_t,
    reconstruct_from_json Scan.sscanf_frequency Scan.sscanf_byte
      default_dsonar_config
      (Some (Engine.metadata_text st
               (Audio.partition_samples bs Sonar.default_config)))
    = Some r
    /\ reconstructed_data r = Some bs
    /\ data_length r = Z.of_nat (length bs)
    /\ total_samples r = Z.of_nat (length bs).
Proof. exact (metadata_decodes st bs). Qed.

Lemma metadata_round_trip_witness :
  exists r : dsonar_result_t,
    reconstruct_from_json Scan.sscanf_frequency Scan.sscanf_byte
      default_dsonar_config
      (Some (Engine.metadata_text (Engine.init_audio Engine.loaded 44100).2
               (Audio.partition_samples [72; 105; 0; 255]
                  Sonar.default_config)))
    = Some r
    /\ reconstructed_data r = Some [72; 105; 0; 255]
    /\ data_length r = 4
    /\ total_samples r = 4.
Proof.
  apply (metadata_round_trip (Engine.init_audio Engine.loaded 44100).2
           [72; 105; 0; 255]);
    [reflexivity | reflexivity | discriminate | repeat constructor; lia].
Defined.

(** *** The drivers *)

(** X10: for a configuration whose analysis window is not empty, a call of
    [mbx_dsonar] returns; it creates or changes no file other than
    dsonar_reconstructed_partition_<n>.bin, where n is the index as [%d]
    prints it (the index itself when it is below 2^31, the index minus 2^32
    from there on), and when it returns false it has written nothing at
    all. *)
Theorem mbx_dsonar_writes_its_partition_only
    (sscanf_csv : string -> option csv_row)
    (sscanf_frequency : string -> option float)
    (sscanf_byte : string -> option Z)
    (sscanf_report : string -> option report_row)
    (fs : filesystem) (index : Z) (config : dsonar_config_t) :
  0 <= index < 4294967296 ->
  int_of_double (base_frequency config * 0.05)%float <> 0 ->
  exists (ok : bool) (fs' : filesystem),
    mbx_dsonar sscanf_csv sscanf_frequency sscanf_byte sscanf_report
      fs index config = Returns (ok, fs')
    /\ can_create fs' = can_create fs
    /\ (forall name,
          name <> partition_filename
                    (if index <? 2147483648 then index else index - 4294967296) ->
          files fs' !! name = files fs !! name)
    /\ (ok = false -> fs' = fs).
Proof.
  intros Hindex Hchunk.
  destruct (mbx_dsonar_frame sscanf_csv sscanf_frequency sscanf_byte
              sscanf_report fs index config Hchunk)
    as (ok & fs' & Hcall & Hcreate & Hframe & Hfalse).
  exists ok, fs'. split; [exact Hcall|]. split; [exact Hcreate|].
  split; [|exact Hfalse].
  intros name Hname. apply Hframe.
  replace (int_of_Z index)
    with (if index <? 2147483648 then index else index - 4294967296);
    [exact Hname|].
  unfold int_of_Z. destruct (Z.ltb_spec index 2147483648).
  - rewrite Z.mod_small; lia.
  - replace (index + 2147483648) with (index - 2147483648 + 1 * 4294967296)
      by lia.
    rewrite Z.mod_add, Z.mod_small; lia.
Qed.

Lemma mbx_dsonar_writes_its_partition_only_witness :
  exists (ok : bool) (fs' : filesystem),
    mbx_dsonar Scan.sscanf_csv Scan.sscanf_frequency Scan.sscanf_byte
      Scan.sscanf_report fs_two_tables 1 default_dsonar_config
    = Returns (ok, fs')
    /\ can_create fs' = can_create fs_two_tables
    /\ (forall name, name <> partition_filename 1 ->
                     files fs' !! name = files fs_two_tables !! name)
    /\ (ok = false -> fs' = fs_two_tables).
Proof.
  apply (mbx_dsonar_writes_its_partition_only Scan.sscanf_csv
           Scan.sscanf_frequency Scan.sscanf_byte Scan.sscanf_report
           fs_two_tables 1 default_dsonar_config);
    [lia | vm_compute; discriminate].
Defined.

(** X11: when the frequency table of a partition of index below 2^31
    exists, [mbx_dsonar] decodes it and looks at no other artifact.  A table with no line after
    its header makes the call fail without trying the metadata, the
    container or the report.  Otherwise the call returns true and, when the
    partition file can be created, that file receives the decimal byte
    fields of the rows that parse, in order; when it cannot be created the
    call still returns true. *)
Theorem mbx_dsonar_table_first
    (sscanf_csv : string -> option csv_row)
    (sscanf_frequency : string -> option float)
    (sscanf_byte : string -> option Z)
    (sscanf_report : string -> option report_row)
    (fs : filesystem) (index : Z) (config : dsonar_config_t)
    (csv : list Z) (header unread : string) :
  0 <= index < 2147483648 ->
  files fs !! csv_filename index = Some csv ->
  fgets 512 (string_of_bytes csv) = Some (header, unread) ->
  let lines := stream_lines 512 (string_of_bytes csv) (String.length header) in
  let rows := parsed_rows sscanf_csv lines in
  (lines = [] ->
   mbx_dsonar sscanf_csv sscanf_frequency sscanf_byte sscanf_report
     fs index config = Returns (false, fs))
  /\ (lines <> [] ->
      mbx_dsonar sscanf_csv sscanf_frequency sscanf_byte sscanf_report
        fs index config
      = Returns (true,
                 if can_create fs (partition_filename index)
                 then {| files :=
                           <[partition_filename index
                             := (fun row => uchar_of_Z (byte_dec row)) <$> rows]>
                             (files fs);
                         can_create := can_create fs |}
                 else fs)).
Proof.
  intros Hindex Hcsv Hhdr lines rows.
  assert (Hprinted : int_of_Z index = index) by (apply int_of_Z_small; lia).
  split.
  - intros Hnil. unfold mbx_dsonar, select_and_reconstruct. cbv zeta.
    rewrite Hprinted, Hcsv.
    unfold reconstruct_from_csv. rewrite Hhdr. fold lines. rewrite Hnil.
    reflexivity.
  - intros Hne.
    destruct (reconstruct_from_csv_spec sscanf_csv _ _ _ Hhdr Hne)
      as (r & Hr & Hdata & Hlen & _).
    fold lines in Hdata. fold rows in Hdata, Hlen.
    unfold mbx_dsonar, select_and_reconstruct. cbv zeta.
    rewrite Hprinted, Hcsv, Hr.
    cbn [outcome_bind]. unfold save_reconstructed_data. rewrite Hdata.
    destruct (can_create fs (partition_filename index)); cbn [negb snd];
      [|reflexivity].
    rewrite Hlen, Nat2Z.id, take_app_length'
      by (rewrite length_fmap; reflexivity).
    reflexivity.
Qed.

Lemma mbx_dsonar_table_first_witness :
  mbx_dsonar Scan.sscanf_csv Scan.sscanf_frequency Scan.sscanf_byte
    Scan.sscanf_report fs_header_only_table 0 default_dsonar_config
  = Returns (false, fs_header_only_table).
Proof.
  refine (proj1 (mbx_dsonar_table_first Scan.sscanf_csv Scan.sscanf_frequency
                   Scan.sscanf_byte Scan.sscanf_report fs_header_only_table 0
                   default_dsonar_config
                   (bytes_of_string
                      (text_line
                         "Sample,Byte_Hex,Byte_Dec,Frequency_Hz,Amplitude,Duration_s"))
                   (text_line
                      "Sample,Byte_Hex,Byte_Dec,Frequency_Hz,Amplitude,Duration_s")
                   EmptyString _ _ _) _);
    [lia | vm_compute; reflexivity | vm_compute; reflexivity
    | vm_compute; reflexivity].
Defined.

(** X12: encoding then decoding one partition of index below 2^31.  After
    [generate_frequency_data] has written the table of a non-empty partition
    of at most 10^9 bytes under the base name that [mbx_sonar] uses for
    [index], [mbx_dsonar] for the same index returns true and writes to
    dsonar_reconstructed_partition_<index>.bin exactly the bytes of the
    partition, whatever other artifacts exist and whatever its
    configuration. *)
Theorem table_then_mbx_dsonar (fs : filesystem) (index : Z) (bs : list Z)
    (config : dsonar_config_t) :
  0 <= index < 2147483648 ->
  bs <> [] ->
  Forall (fun b => 0 <= b <= 255) bs ->
  Z.of_nat (length bs) <= 1000000000 ->
  can_create fs (csv_filename index) = true ->
  can_create fs (partition_filename index) = true ->
  let generated :=
    Engine.generate_frequency_data fs
      (Audio.partition_samples bs Sonar.default_config)
      (base_filename index) in
  generated.1 = 0
  /\ mbx_dsonar Scan.sscanf_csv Scan.sscanf_frequency Scan.sscanf_byte
       Scan.sscanf_report generated.2 index config
     = Returns (true,
                {| files := <[partition_filename index := bs]>
                              (files generated.2);
                   can_create := can_create fs |}).
Proof.
  intros Hindex Hne Hbytes Hlen Hcsv Hpart generated. subst generated.
  assert (Hprinted : int_of_Z index = index) by (apply int_of_Z_small; lia).
  destruct (frequency_table_decodes bs Hne Hbytes Hlen)
    as (r & Hr & Hdata & Hdl & _).
  unfold Engine.generate_frequency_data.
  destruct (Audio.partition_samples bs Sonar.default_config) eqn:Hsamples.
  { pose proof (partition_samples_spec bs Sonar.default_config) as H.
    rewrite Hsamples in H. destruct bs; [contradiction | discriminate]. }
  rewrite <- Hsamples in Hr |- *. rewrite csv_filename_of_base, Hprinted.
  unfold Engine.write_text.
  rewrite Hcsv. cbn [negb fst snd]. split; [reflexivity|].
  rewrite (mbx_dsonar_saves _ _ _ _ _ index config r bs).
  - rewrite Hdl, Nat2Z.id, firstn_all. reflexivity.
  - exact Hprinted.
  - unfold select_and_reconstruct. cbn [files].
    rewrite lookup_insert_eq, string_of_bytes_of_string, Hr. reflexivity.
  - exact Hdata.
  - exact Hpart.
Qed.

Lemma table_then_mbx_dsonar_witness :
  mbx_dsonar Scan.sscanf_csv Scan.sscanf_frequency Scan.sscanf_byte
    Scan.sscanf_report
    (Engine.generate_frequency_data fs_empty
       (Audio.partition_samples [72; 105] Sonar.default_config)
       (base_filename 3)).2 3 default_dsonar_config
  = Returns (true,
             {| files := <[partition_filename 3 := [72; 105]]>
                           (files
                              (Engine.generate_frequency_data fs_empty
                                 (Audio.partition_samples [72; 105]
                                    Sonar.default_config)
                                 (base_filename 3)).2);
                can_create := can_create fs_empty |}).
Proof.
  refine (proj2 (table_then_mbx_dsonar fs_empty 3 [72; 105]
                   default_dsonar_config _ _ _ _ _ _));
    [lia | discriminate | repeat constructor; lia | simpl; lia
    | reflexivity | reflexivity].
Defined.

Lemma parts_of_indices (parts : list (list Z)) :
  (fun i => parts !!! Z.to_nat i) <$> seqZ 0 (Z.of_nat (length parts)) = parts.
Proof.
  apply list_eq. intros k. rewrite list_lookup_fmap.
  destruct (decide (k < length parts)%nat) as [Hk|Hk].
  - rewrite lookup_seqZ_lt by lia. cbn [fmap option_fmap option_map].
    rewrite Z.add_0_l, Nat2Z.id.
    destruct (lookup_lt_is_Some_2 parts k Hk) as [part Hpart].
    rewrite Hpart. f_equal. apply list_lookup_total_correct. exact Hpart.
  - rewrite lookup_seqZ_ge by lia. symmetry. apply lookup_ge_None. lia.
Qed.

(** The batch run when every partition has a generated frequency table. *)
Lemma batch_loop_tables (parts : list (list Z)) (fs : filesystem)
    (config : dsonar_config_t) :
  Z.of_nat (length parts) <= 2147483648 ->
  Forall (fun part => part <> []
                      /\ Forall (fun b => 0 <= b <= 255) part
                      /\ Z.of_nat (length part) <= 1000000000) parts ->
  (forall (i : nat) (part : list Z),
      parts !! i = Some part ->
      files fs !! csv_filename (Z.of_nat i) = Some (table_of part)
      /\ can_create fs (partition_filename (Z.of_nat i)) = true) ->
  batch_loop Scan.sscanf_csv Scan.sscanf_frequency Scan.sscanf_byte
    Scan.sscanf_report (seqZ 0 (Z.of_nat (length parts))) config fs true
  = Returns (true,
             {| files :=
                  foldl (fun m i =>
                           <[partition_filename i := parts !!! Z.to_nat i]> m)
                    (files fs) (seqZ 0 (Z.of_nat (length parts)));
                can_create := can_create fs |}).
Proof.
  intros Hcount Hparts Hfs.
  apply (batch_loop_all_decoded _ _ _ _ config
           (fun i => parts !!! Z.to_nat i)).
  intros i Hi. apply elem_of_seqZ in Hi.
  destruct (lookup_lt_is_Some_2 parts (Z.to_nat i) ltac:(lia)) as [part Hpart].
  destruct (Hfs _ _ Hpart) as [Hcsv Hcreate]. rewrite Z2Nat.id in * by lia.
  split; [apply int_of_Z_small; lia|].
  split; [exact Hcreate|].
  rewrite Forall_forall in Hparts.
  destruct (Hparts part ltac:(eapply list_elem_of_lookup_2; exact Hpart))
    as (Hne & Hbytes & Hlen).
  destruct (frequency_table_decodes part Hne Hbytes Hlen)
    as (r & Hr & Hdata & Hdl & _).
  exists r, part. split; [|split; [exact Hdata|]].
  - unfold select_and_reconstruct. rewrite Hcsv. unfold table_of.
    rewrite string_of_bytes_of_string, Hr. reflexivity.
  - rewrite Hdl, Nat2Z.id, firstn_all.
    symmetry. apply list_lookup_total_correct. exact Hpart.
Qed.

Lemma length_concat_nonempty (parts : list (list Z)) :
  Forall (fun part => part <> []) parts ->
  (length parts <= length (concat parts))%nat.
Proof.
  induction 1 as [|part parts Hpart _ IH]; [reflexivity|].
  cbn [concat length]. rewrite length_app.
  destruct part; [contradiction|]. cbn [length]. lia.
Qed.

(** X13: encoding then decoding a whole file.  When for each of the
    partitions of a file (non-empty, at most 10^9 bytes each, fewer than
    2^31 bytes in all) the table written by [generate_frequency_data] is on
    disk, [mbx_dsonar_batch_process] returns true, every partition file holds
    the bytes of its partition, and dsonar_reconstructed_original_file.bin
    holds the partitions end to end, that is the original file. *)
Theorem batch_round_trip (parts : list (list Z)) (fs : filesystem)
    (config : dsonar_config_t) :
  parts <> [] ->
  Forall (fun part => part <> []
                      /\ Forall (fun b => 0 <= b <= 255) part
                      /\ Z.of_nat (length part) <= 1000000000) parts ->
  Z.of_nat (length (concat parts)) < 2147483648 ->
  (forall (i : nat) (part : list Z),
      parts !! i = Some part ->
      files fs !! csv_filename (Z.of_nat i) = Some (table_of part)
      /\ can_create fs (partition_filename (Z.of_nat i)) = true) ->
  can_create fs (output_filename "original_file.bin") = true ->
  exists fs' : filesystem,
    mbx_dsonar_batch_process Scan.sscanf_csv Scan.sscanf_frequency
      Scan.sscanf_byte Scan.sscanf_report fs (Z.of_nat (length parts)) config
    = Returns (true, fs')
    /\ files fs' !! output_filename "original_file.bin" = Some (concat parts)
    /\ (forall (i : nat) (part : list Z),
           parts !! i = Some part ->
           files fs' !! partition_filename (Z.of_nat i) = Some part).
Proof.
  intros Hne Hparts Htotal Hfs Hout.
  assert (Hcount : (length parts <= length (concat parts))%nat).
  { apply length_concat_nonempty. eapply Forall_impl; [exact Hparts|].
    intros part (Hpart & _). exact Hpart. }
  unfold mbx_dsonar_batch_process.
  rewrite (batch_loop_tables parts fs config ltac:(lia) Hparts Hfs).
  cbn [outcome_bind].
  rewrite (int_of_Z_small (Z.of_nat (length parts))) by lia.
  set (n := Z.of_nat (length parts)).
  set (written := foldl _ (files fs) (seqZ 0 n)).
  rewrite combine_partition_files_spec;
    [|intros i _; apply batch_output_not_partition | exact Hout].
  cbn [files can_create].
  assert (Hcontents : partition_contents written n = parts).
  { unfold partition_contents.
    rewrite (omap_all_some _ (fun i => parts !!! Z.to_nat i)).
    - apply parts_of_indices.
    - intros i Hi. subst written. apply partition_files_written. exact Hi. }
  rewrite Hcontents.
  assert (Hpos : 0 < Z.of_nat (length (concat parts))).
  { destruct parts as [|part parts']; [contradiction|].
    inversion Hparts as [|? ? (Hpart & _) _]; subst.
    destruct part; [contradiction|]. cbn [concat app length]. lia. }
  rewrite int_of_Z_small by lia.
  eexists. split; [|split].
  - f_equal. f_equal. apply Z.ltb_lt. exact Hpos.
  - cbn [files]. apply lookup_insert_eq.
  - intros i part Hpart. cbn [files].
    rewrite lookup_insert_ne
      by (apply not_eq_sym, batch_output_not_partition).
    subst written.
    rewrite (partition_files_written (fun i => parts !!! Z.to_nat i)).
    + rewrite Nat2Z.id. f_equal. apply list_lookup_total_correct. exact Hpart.
    + apply elem_of_seqZ. apply lookup_lt_Some in Hpart. lia.
Qed.

Lemma batch_round_trip_witness :
  exists fs' : filesystem,
    mbx_dsonar_batch_process Scan.sscanf_csv Scan.sscanf_frequency
      Scan.sscanf_byte Scan.sscanf_report fs_two_tables 2 default_dsonar_config
    = Returns (true, fs')
    /\ files fs' !! output_filename "original_file.bin"
       = Some [72; 105; 33; 0; 255]
    /\ (forall (i : nat) (part : list Z),
           two_partitions !! i = Some part ->
           files fs' !! partition_filename (Z.of_nat i) = Some part).
Proof.
  apply (batch_round_trip two_partitions fs_two_tables default_dsonar_config).
  - discriminate.
  - repeat constructor; (discriminate || lia).
  - simpl. lia.
  - intros [|[|i]] part Hpart; [| |destruct i; discriminate];
      injection Hpart as <-; split; reflexivity.
  - reflexivity.
Defined.

Section BatchFacts.

Variable sscanf_csv : string -> option csv_row.
Variable sscanf_frequency : string -> option float.
Variable sscanf_byte : string -> option Z.
Variable sscanf_report : string -> option report_row.

Lemma mbx_dsonar_no_artifact (fs : filesystem) (index : Z)
    (config : dsonar_config_t) :
  no_artifact fs (int_of_Z index) ->
  mbx_dsonar sscanf_csv sscanf_frequency sscanf_byte sscanf_report
    fs index config = Returns (false, fs).
Proof.
  intros (Hcsv & Hjson & Hwav & Hreport).
  unfold mbx_dsonar, select_and_reconstruct. cbv zeta.
  rewrite Hcsv, Hjson, Hwav, Hreport. reflexivity.
Qed.

(** The batch loop returns, leaves every file that is not the partition
    file of one of its indices as it was, and reports failure as soon as one
    partition has no artifact. *)
Lemma batch_loop_frame (config : dsonar_config_t) (indices : list Z) :
  int_of_double (base_frequency config * 0.05)%float <> 0 ->
  forall (fs : filesystem) (success : bool),
  exists (success' : bool) (fs' : filesystem),
    batch_loop sscanf_csv sscanf_frequency sscanf_byte sscanf_report
      indices config fs success = Returns (success', fs')
    /\ can_create fs' = can_create fs
    /\ (forall name,
          (forall i, i ∈ indices -> name <> partition_filename (int_of_Z i)) ->
          files fs' !! name = files fs !! name)
    /\ (success = false -> success' = false)
    /\ (forall i, i ∈ indices -> no_artifact fs (int_of_Z i) ->
                  success' = false).
Proof.
  intros Hchunk. induction indices as [|k indices IH]; intros fs success.
  - exists success, fs. repeat split; try reflexivity; try (intros; assumption).
    intros i Hi. inversion Hi.
  - destruct (mbx_dsonar_frame sscanf_csv sscanf_frequency sscanf_byte
                sscanf_report fs k config Hchunk)
      as (ok & fs1 & Hcall & Hcreate1 & Hframe1 & Hfalse1).
    destruct (IH fs1 (if ok then success else false))
      as (success' & fs' & Hloop & Hcreate & Hframe & Hkeep & Hmissing).
    exists success', fs'. cbn [batch_loop]. rewrite Hcall. cbn [outcome_bind].
    split; [exact Hloop|]. split; [congruence|]. split; [|split].
    + intros name Hname. rewrite Hframe.
      * apply Hframe1, Hname. left.
      * intros i Hi. apply Hname. right. exact Hi.
    + intros ->. apply Hkeep. destruct ok; reflexivity.
    + intros i Hi Hnone. apply elem_of_cons in Hi as [->|Hi].
      * rewrite (mbx_dsonar_no_artifact fs k config Hnone) in Hcall.
        injection Hcall as <- <-. apply Hkeep. reflexivity.
      * apply (Hmissing i Hi).
        destruct Hnone as (Hcsv & Hjson & Hwav & Hreport).
        repeat split; rewrite Hframe1;
          first [ assumption
                | apply csv_filename_not_partition
                | apply json_filename_not_partition
                | apply wav_filename_not_partition
                | apply analysis_filename_not_partition ].
Qed.

(** The batch loop writes the partition file of every index whose artifact
    decodes, whatever happens at the other indices. *)
Lemma batch_loop_processes (config : dsonar_config_t) (indices : list Z) :
  int_of_double (base_frequency config * 0.05)%float <> 0 ->
  NoDup indices ->
  Forall (fun i => int_of_Z i = i) indices ->
  forall (fs : filesystem) (success : bool) (j : Z) (r : dsonar_result_t)
         (data : list Z),
    j ∈ indices ->
    select_and_reconstruct sscanf_csv sscanf_frequency sscanf_byte
      sscanf_report fs j config = Returns (Some (Some r)) ->
    reconstructed_data r = Some data ->
    can_create fs (partition_filename j) = true ->
    exists (success' : bool) (fs' : filesystem),
      batch_loop sscanf_csv sscanf_frequency sscanf_byte sscanf_report
        indices config fs success = Returns (success', fs')
      /\ files fs' !! partition_filename j
         = Some (take (Z.to_nat (data_length r)) data).
Proof.
  intros Hchunk Hnodup Hprinted.
  induction indices as [|k indices IH];
    intros fs success j r data Hj Hsel Hdata Hcreate; [inversion Hj|].
  apply NoDup_cons in Hnodup as [Hk Hnodup].
  apply Forall_cons in Hprinted as [Hkk Hprinted].
  cbn [batch_loop].
  destruct (decide (j = k)) as [->|Hne].
  - rewrite (mbx_dsonar_saves sscanf_csv sscanf_frequency sscanf_byte
               sscanf_report fs k config r data Hkk Hsel Hdata Hcreate).
    cbn [outcome_bind].
    match goal with
    | |- context [batch_loop _ _ _ _ _ _ ?fs1 ?s1] =>
        destruct (batch_loop_frame config indices Hchunk fs1 s1)
          as (success' & fs' & Hloop & _ & Hframe & _)
    end.
    exists success', fs'. split; [exact Hloop|].
    rewrite Hframe; [cbn [files]; apply lookup_insert_eq|].
    intros i Hi Heq.
    rewrite Forall_forall in Hprinted. rewrite (Hprinted i Hi) in Heq.
    apply partition_filename_inj in Heq. subst i. contradiction.
  - apply elem_of_cons in Hj as [Hj|Hj]; [contradiction|].
    destruct (mbx_dsonar_frame sscanf_csv sscanf_frequency sscanf_byte
                sscanf_report fs k config Hchunk)
      as (ok & fs1 & Hcall & Hcreate1 & Hframe1 & _).
    rewrite Hcall. cbn [outcome_bind].
    apply (IH Hnodup Hprinted fs1 _ j r data Hj).
    + rewrite <- Hsel. apply select_frame.
      intros name Hname. apply Hframe1, Hname.
    + exact Hdata.
    + rewrite Hcreate1. exact Hcreate.
Qed.

End BatchFacts.

(** X14: a batch run over at most 2^31 partitions of which one has no
    artifact at all returns false and leaves the combined file
    dsonar_reconstructed_original_file.bin as it was, yet the loop goes on
    over the remaining partitions: every partition whose artifact decodes,
    before or after the missing one, has its partition file written with the
    bytes decoded. *)
Theorem batch_needs_every_partition
    (sscanf_csv : string -> option csv_row)
    (sscanf_frequency : string -> option float)
    (sscanf_byte : string -> option Z)
    (sscanf_report : string -> option report_row)
    (fs : filesystem) (partition_count missing : Z)
    (config : dsonar_config_t) :
  int_of_double (base_frequency config * 0.05)%float <> 0 ->
  0 <= missing < partition_count ->
  partition_count <= 2147483648 ->
  files fs !! csv_filename missing = None ->
  files fs !! json_filename missing = None ->
  files fs !! wav_filename missing = None ->
  files fs !! analysis_filename missing = None ->
  exists fs' : filesystem,
    mbx_dsonar_batch_process sscanf_csv sscanf_frequency sscanf_byte
      sscanf_report fs partition_count config = Returns (false, fs')
    /\ files fs' !! output_filename "original_file.bin"
       = files fs !! output_filename "original_file.bin"
    /\ (forall (j : Z) (r : dsonar_result_t) (data : list Z),
           0 <= j < partition_count ->
           select_and_reconstruct sscanf_csv sscanf_frequency sscanf_byte
             sscanf_report fs j config = Returns (Some (Some r)) ->
           reconstructed_data r = Some data ->
           can_create fs (partition_filename j) = true ->
           files fs' !! partition_filename j
           = Some (take (Z.to_nat (data_length r)) data)).
Proof.
  intros Hchunk Hmissing Hcount Hcsv Hjson Hwav Hreport.
  destruct (batch_loop_frame sscanf_csv sscanf_frequency sscanf_byte
              sscanf_report config (seqZ 0 partition_count) Hchunk fs true)
    as (success' & fs' & Hloop & _ & Hframe & _ & Hfail).
  assert (success' = false) as ->.
  { apply (Hfail missing); [apply elem_of_seqZ; lia|].
    rewrite int_of_Z_small by lia. repeat split; assumption. }
  exists fs'. unfold mbx_dsonar_batch_process. rewrite Hloop.
  split; [reflexivity|]. split.
  - apply Hframe. intros j _. apply not_eq_sym, batch_output_not_partition.
  - intros j r data Hj Hsel Hdata Hcreate.
    destruct (batch_loop_processes sscanf_csv sscanf_frequency sscanf_byte
                sscanf_report config (seqZ 0 partition_count) Hchunk
                (NoDup_seqZ _ _)) with (fs := fs) (success := true) (j := j)
                                       (r := r) (data := data)
      as (success2 & fs2 & Hloop2 & Hfile);
      try assumption.
    + apply Forall_forall. intros i Hi. apply elem_of_seqZ in Hi.
      apply int_of_Z_small. lia.
    + apply elem_of_seqZ. lia.
    + rewrite Hloop in Hloop2. injection Hloop2 as _ <-. exact Hfile.
Qed.

Lemma batch_needs_every_partition_witness :
  exists fs' : filesystem,
    mbx_dsonar_batch_process Scan.sscanf_csv Scan.sscanf_frequency
      Scan.sscanf_byte Scan.sscanf_report fs_tables_0_and_2 3
      default_dsonar_config
    = Returns (false, fs')
    /\ files fs' !! output_filename "original_file.bin" = None
    /\ files fs' !! partition_filename 0 = Some [72; 105]
    /\ files fs' !! partition_filename 2 = Some [33; 0; 255].
Proof.
  destruct (batch_needs_every_partition Scan.sscanf_csv Scan.sscanf_frequency
              Scan.sscanf_byte Scan.sscanf_report fs_tables_0_and_2 3 1
              default_dsonar_config)
    as (fs' & Hrun & Hout & Hparts);
    [vm_compute; discriminate | lia | lia | reflexivity | reflexivity
    | reflexivity | reflexivity |].
  exists fs'. split; [exact Hrun|]. split; [exact Hout|]. split.
  - destruct (select_and_reconstruct Scan.sscanf_csv Scan.sscanf_frequency
                Scan.sscanf_byte Scan.sscanf_report fs_tables_0_and_2 0
                default_dsonar_config) as [[[r|]|]|] eqn:Hsel;
      try (vm_compute in Hsel; discriminate).
    rewrite (Hparts 0 r [72; 105] ltac:(lia) Hsel);
      vm_compute in Hsel; injection Hsel as <-; reflexivity.
  - destruct (select_and_reconstruct Scan.sscanf_csv Scan.sscanf_frequency
                Scan.sscanf_byte Scan.sscanf_report fs_tables_0_and_2 2
                default_dsonar_config) as [[[r|]|]|] eqn:Hsel;
      try (vm_compute in Hsel; discriminate).
    rewrite (Hparts 2 r [33; 0; 255] ltac:(lia) Hsel);
      vm_compute in Hsel; injection Hsel as <-; reflexivity.
Defined.

(** X15: the artifacts after the table, for an index below 2^31 and the
    default configuration.  When the partition has no frequency table,
    [mbx_dsonar] decodes the metadata document that [generate_metadata_json]
    has written with the library at 44100 Hz and master volume 1.0; when it
    has neither table nor metadata nor container, it decodes the analysis
    report written by [generate_analysis_report]; either way the partition
    file receives exactly the bytes of the partition. *)
Theorem mbx_dsonar_later_artifacts (fs : filesystem) (index : Z)
    (st : Engine.state) (bs : list Z) :
  0 <= index < 2147483648 ->
  Engine.g_sample_rate st = 44100 ->
  Engine.g_master_volume st = 1.0%float ->
  bs <> [] ->
  Forall (fun b => 0 <= b <= 255) bs ->
  can_create fs (partition_filename index) = true ->
  files fs !! csv_filename index = None ->
  let decoded :=
    Returns (true,
             {| files := <[partition_filename index := bs]> (files fs);
                can_create := can_create fs |}) in
  (files fs !! json_filename index
   = Some (bytes_of_string
             (Engine.metadata_text st
                (Audio.partition_samples bs Sonar.default_config))) ->
   mbx_dsonar Scan.sscanf_csv Scan.sscanf_frequency Scan.sscanf_byte
     Scan.sscanf_report fs index default_dsonar_config = decoded)
  /\ (files fs !! json_filename index = None ->
      files fs !! wav_filename index = None ->
      files fs !! analysis_filename index
      = Some (bytes_of_string
                (Engine.analysis_report_text
                   (Audio.partition_samples bs Sonar.default_config))) ->
      mbx_dsonar Scan.sscanf_csv Scan.sscanf_frequency Scan.sscanf_byte
        Scan.sscanf_report fs index default_dsonar_config = decoded).
Proof.
  intros Hindex Hrate Hvolume Hne Hbytes Hcreate Hcsv decoded. subst decoded.
  assert (Hprinted : int_of_Z index = index) by (apply int_of_Z_small; lia).
  split.
  - intros Hjson.
    destruct (metadata_decodes st bs Hrate Hvolume Hne Hbytes)
      as (r & Hr & Hdata & Hdl & _).
    rewrite (mbx_dsonar_saves _ _ _ _ _ index default_dsonar_config r bs).
    + rewrite Hdl, Nat2Z.id, firstn_all. reflexivity.
    + exact Hprinted.
    + unfold select_and_reconstruct.
      rewrite Hcsv, Hjson, string_of_bytes_of_string, Hr. reflexivity.
    + exact Hdata.
    + exact Hcreate.
  - intros Hjson Hwav Hreport.
    destruct (analysis_report_decodes bs Hne Hbytes)
      as (r & Hr & Hdata & Hdl & _).
    rewrite (mbx_dsonar_saves _ _ _ _ _ index default_dsonar_config r bs).
    + rewrite Hdl, Nat2Z.id, firstn_all. reflexivity.
    + exact Hprinted.
    + unfold select_and_reconstruct.
      rewrite Hcsv, Hjson, Hwav, Hreport, string_of_bytes_of_string, Hr.
      reflexivity.
    + exact Hdata.
    + exact Hcreate.
Qed.

Lemma mbx_dsonar_later_artifacts_witness :
  mbx_dsonar Scan.sscanf_csv Scan.sscanf_frequency Scan.sscanf_byte
    Scan.sscanf_report fs_metadata_only 0 default_dsonar_config
  = Returns (true,
             {| files := <[partition_filename 0 := [65]]>
                           (files fs_metadata_only);
                can_create := can_create fs_metadata_only |}).
Proof.
  refine (proj1 (mbx_dsonar_later_artifacts fs_metadata_only 0 Engine.loaded
                   [65] _ _ _ _ _ _ _) _);
    [lia | reflexivity | reflexivity | discriminate | repeat constructor; lia
    | reflexivity | reflexivity | reflexivity].
Defined.

(** *** The stand-alone driver *)

Lemma wav_output_not_partition (i : Z) :
  partition_filename i <> output_filename "reconstructed_from_wav.bin".
Proof.
  unfold partition_filename, output_filename.
  cbv [append]. fold append. intros H.
  repeat (injection H as _ H). discriminate.
Qed.

(** The loop of [process_wav_files_only] when every partition has its
    container and a generated frequency table. *)
Lemma wav_driver_loop_tables (parts : list (list Z)) (indices : list Z) :
  forall (fs : filesystem) (success : bool),
    (forall i, i ∈ indices ->
       exists part : list Z,
         parts !! Z.to_nat i = Some part
         /\ part <> [] /\ Forall (fun b => 0 <= b <= 255) part
         /\ Z.of_nat (length part) <= 1000000000
         /\ is_Some (files fs !! wav_filename i)
         /\ files fs !! csv_filename i = Some (table_of part)
         /\ can_create fs (partition_filename i) = true) ->
    wav_driver_loop Scan.sscanf_csv indices fs success
    = Returns (success,
               {| files :=
                    foldl (fun m i =>
                             <[partition_filename i := parts !!! Z.to_nat i]> m)
                      (files fs) indices;
                  can_create := can_create fs |}).
Proof.
  induction indices as [|i indices IH]; intros fs success Hall.
  - destruct fs. reflexivity.
  - destruct (Hall i ltac:(left))
      as (part & Hpart & Hne & Hbytes & Hlen & [wav Hwav] & Hcsv & Hcreate).
    destruct (frequency_table_decodes part Hne Hbytes Hlen)
      as (r & Hr & Hdata & Hdl & _).
    cbn [wav_driver_loop foldl]. unfold wav_driver_step.
    rewrite Hwav, Hcsv. unfold table_of at 1.
    rewrite string_of_bytes_of_string, Hr. cbn [outcome_bind].
    unfold save_reconstructed_data. rewrite Hdata, Hcreate. cbn [negb].
    rewrite Hdl, Nat2Z.id, firstn_all, Z.eqb_refl. cbn [outcome_bind].
    rewrite (list_lookup_total_correct _ _ _ Hpart).
    rewrite IH; [reflexivity|].
    intros j Hj. destruct (Hall j ltac:(right; exact Hj))
      as (part' & Hpart' & Hne' & Hbytes' & Hlen' & Hwav' & Hcsv' & Hcreate').
    exists part'. cbn [files can_create].
    rewrite !lookup_insert_ne
      by (apply not_eq_sym;
          first [ apply csv_filename_not_partition
                | apply wav_filename_not_partition ]).
    repeat split; assumption.
Qed.

(** X16: the stand-alone driver.  When for each partition of a file
    (non-empty, at most 10^9 bytes each, fewer than 2^31 bytes in all) both
    the container and the table written by [generate_frequency_data] are on
    disk, [process_wav_files_only] decodes the tables, not the containers,
    returns true, and dsonar_reconstructed_reconstructed_from_wav.bin holds
    the partitions end to end. *)
Theorem wav_driver_round_trip (parts : list (list Z)) (fs : filesystem) :
  parts <> [] ->
  Forall (fun part => part <> []
                      /\ Forall (fun b => 0 <= b <= 255) part
                      /\ Z.of_nat (length part) <= 1000000000) parts ->
  Z.of_nat (length (concat parts)) < 2147483648 ->
  (forall (i : nat) (part : list Z),
      parts !! i = Some part ->
      is_Some (files fs !! wav_filename (Z.of_nat i))
      /\ files fs !! csv_filename (Z.of_nat i) = Some (table_of part)
      /\ can_create fs (partition_filename (Z.of_nat i)) = true) ->
  can_create fs (output_filename "reconstructed_from_wav.bin") = true ->
  exists fs' : filesystem,
    process_wav_files_only Scan.sscanf_csv fs (Z.of_nat (length parts))
    = Returns (true, fs')
    /\ files fs' !! output_filename "reconstructed_from_wav.bin"
       = Some (concat parts).
Proof.
  intros Hne Hparts Htotal Hfs Hout.
  unfold process_wav_files_only.
  rewrite (wav_driver_loop_tables parts).
  2:{ intros i Hi. apply elem_of_seqZ in Hi.
      destruct (lookup_lt_is_Some_2 parts (Z.to_nat i) ltac:(lia))
        as [part Hpart].
      destruct (Hfs _ _ Hpart) as (Hwav & Hcsv & Hcreate).
      rewrite Z2Nat.id in * by lia.
      rewrite Forall_forall in Hparts.
      destruct (Hparts part ltac:(eapply list_elem_of_lookup_2; exact Hpart))
        as (Hpne & Hbytes & Hlen).
      exists part. repeat split; assumption. }
  cbn [outcome_bind].
  set (n := Z.of_nat (length parts)).
  set (written := foldl _ (files fs) (seqZ 0 n)).
  rewrite combine_partition_files_spec;
    [|intros i _; apply wav_output_not_partition | exact Hout].
  cbn [files can_create].
  assert (Hcontents : partition_contents written n = parts).
  { unfold partition_contents.
    rewrite (omap_all_some _ (fun i => parts !!! Z.to_nat i)).
    - apply parts_of_indices.
    - intros i Hi. subst written. apply partition_files_written. exact Hi. }
  rewrite Hcontents.
  assert (Hpos : 0 < Z.of_nat (length (concat parts))).
  { destruct parts as [|part parts']; [contradiction|].
    inversion Hparts as [|? ? (Hpart & _) _]; subst.
    destruct part; [contradiction|]. cbn [concat app length]. lia. }
  rewrite int_of_Z_small by lia.
  eexists. split.
  - f_equal. f_equal. apply Z.ltb_lt. exact Hpos.
  - cbn [files]. apply lookup_insert_eq.
Qed.

Lemma wav_driver_round_trip_witness :
  exists fs' : filesystem,
    process_wav_files_only Scan.sscanf_csv fs_two_tables_and_tones 2
    = Returns (true, fs')
    /\ files fs' !! output_filename "reconstructed_from_wav.bin"
       = Some [72; 105; 33; 0; 255].
Proof.
  apply (wav_driver_round_trip two_partitions fs_two_tables_and_tones).
  - discriminate.
  - repeat constructor; (discriminate || lia).
  - simpl. lia.
  - intros [|[|i]] part Hpart; [| |destruct i; discriminate];
      injection Hpart as <-; (split; [eexists; reflexivity|]);
      split; reflexivity.
  - reflexivity.
Defined.

